(** * AKUDENTAL: COCO polygon annotations to per-fold YOLO label trees

    Shallow embedding of [coco_instances_to_yolo_instances.py]
    ([create_yolo_datasets_for_all_folds]) and the properties of its
    class mapper, label encoder and fold materializer.

    Modelling conventions.
    - The two JSON documents are taken as parsed: records for images,
      annotations and categories, association lists for JSON objects.
    - A JSON number is a Python [int] (unbounded, [Z]) or a Python [float]
      (IEEE binary64, [spec_float] with [prec = 53], [emax = 1024]); [/]
      is Python's true division and [{:.6f}] rounds the exact binary value
      half to even.
    - A Python exception is a value of [exn]; code that may raise lives in
      the [result] monad, code that also touches the disk or the console in
      the [io] monad over [world].
    - A Python [dict] is an association list in insertion order with the
      update-in-place discipline of [dict.__setitem__].
    - [str] is a byte string (UTF-8); byte-wise lexicographic order is the
      code-point order Python uses to compare [str] values, and [sorted]
      is a stable insertion sort.
    - The file system is a store from paths (absolute component lists) to
      nodes, without symbolic links, permissions or limits on names.
      [shutil.copy] raises on a source that is missing or a directory.
      Beyond that the calls are modelled where they succeed:
      [shutil.rmtree] on a directory, [mkdir(parents=True, exist_ok=True)]
      with no regular file on the way, [shutil.copy] and [open(_, 'w')]
      into a directory that is there and onto a path that is no
      directory, and [/] joining a name that is one plain component (not
      empty, not [.] or [..], without a slash).  Hypotheses of this
      kind ([no_file_above], [plain_name], [plain_fold], the split
      directories being there, the destinations being no directories)
      restrict statements about the disk to such inputs.
    - [Path(name).stem] is that of CPython 3.8 to 3.13 on POSIX paths. *)

From Stdlib Require Import ZArith List String Ascii Bool Lia Arith.
From Stdlib Require Import Permutation Sorted.
From Stdlib Require Import SpecFloat.
From Stdlib Require Import DecimalString.
From Stdlib Require DecimalPos DecimalN Nnat.
From Stdlib Require Import QArith Qabs.
Import ListNotations.

Local Close Scope Q_scope.

Local Open Scope list_scope.
Local Open Scope string_scope.

(** ** Exceptions and the result monad *)

Inductive exn : Type :=
| ZeroDivisionError
| OverflowError
| IndexError
| KeyError
| IsADirectoryError
| FileNotFoundError.

Inductive result (A : Type) : Type :=
| Ok (a : A)
| Raise (e : exn).
Arguments Ok {A} a.
Arguments Raise {A} e.

Definition bind {A B : Type} (r : result A) (k : A -> result B) : result B :=
  match r with
  | Ok a => k a
  | Raise e => Raise e
  end.

Notation "'do' x <- r ; k" := (bind r (fun x => k))
  (at level 10, x name, r at level 100, k at level 200).

(** A list comprehension whose element expression may raise: elements are
    evaluated left to right and the first exception escapes. *)
Fixpoint comprehension {A B : Type} (f : A -> result B) (l : list A)
  : result (list B) :=
  match l with
  | [] => Ok []
  | a :: l' => do b <- f a; do bs <- comprehension f l'; Ok (b :: bs)
  end.

(** [enumerate(l)], counting from [start]. *)
Fixpoint enumerate_from {A : Type} (start : nat) (l : list A) : list (nat * A) :=
  match l with
  | [] => []
  | a :: l' => (start, a) :: enumerate_from (S start) l'
  end.

Definition enumerate {A : Type} (l : list A) : list (nat * A) :=
  enumerate_from 0 l.

(** ** Python numbers *)

Definition prec : Z := 53.
Definition emax : Z := 1024.

Inductive pynum : Type :=
| PyInt (n : Z)
| PyFloat (x : spec_float).

(** [PyLong_AsDouble]: the nearest double, ties to even; an [int] that
    rounds beyond the largest double raises. *)
Definition float_of_int (n : Z) : result spec_float :=
  match binary_normalize prec emax n 0 false with
  | S754_infinity _ => Raise OverflowError
  | x => Ok x
  end.

Definition is_zero (x : spec_float) : bool :=
  match x with
  | S754_zero _ => true
  | _ => false
  end.

(** [float.__truediv__] on two doubles. *)
Definition float_truediv (x y : spec_float) : result spec_float :=
  if is_zero y then Raise ZeroDivisionError
  else Ok (SFdiv prec emax x y).

(** [int.__truediv__] on two ints: the correctly rounded quotient. *)
Definition int_truediv (a b : Z) : result spec_float :=
  if (b =? 0)%Z then Raise ZeroDivisionError
  else if (a =? 0)%Z then Ok (S754_zero (b <? 0)%Z)
  else
    let negate := xorb (a <? 0)%Z (b <? 0)%Z in
    let '(mz, ez, lz) :=
      SFdiv_core_binary prec emax (Z.abs a) 0 (Z.abs b) 0 in
    match binary_round_aux prec emax negate mz ez lz with
    | S754_infinity _ => Raise OverflowError
    | x => Ok x
    end.

(** [a / b]. *)
Definition truediv (a b : pynum) : result spec_float :=
  match a, b with
  | PyInt m, PyInt n => int_truediv m n
  | PyFloat x, PyFloat y => float_truediv x y
  | PyFloat x, PyInt n => do y <- float_of_int n; float_truediv x y
  | PyInt m, PyFloat y => do x <- float_of_int m; float_truediv x y
  end.

(** [b > 0] for a number. *)
Definition positive_num (b : pynum) : bool :=
  match b with
  | PyInt n => (0 <? n)%Z
  | PyFloat y => SFltb (S754_zero false) y
  end.

(** ** Strings *)

Definition digit_char (d : Z) : ascii :=
  ascii_of_N (48 + Z.to_N d).

(** The last [k] decimal digits of [n], zero padded. *)
Fixpoint zero_pad (k : nat) (n : Z) : string :=
  match k with
  | O => ""
  | S k' => zero_pad k' (n / 10) ++ String (digit_char (n mod 10)) ""
  end.

(** [str(n)] for a nonnegative int. *)
Definition str_of_N (n : N) : string :=
  NilEmpty.string_of_uint (N.to_uint n).

Definition str_of_nat (n : nat) : string := str_of_N (N.of_nat n).

(** [sep.join(l)]. *)
Definition join (sep : string) (l : list string) : string :=
  String.concat sep l.

(** The integer nearest to [num / den] (ties to the even one), for
    [den > 0]. *)
Definition round_half_even (num den : Z) : Z :=
  let q := (num / den)%Z in
  let r := (num mod den)%Z in
  match (2 * r ?= den)%Z with
  | Lt => q
  | Gt => (q + 1)%Z
  | Eq => if Z.even q then q else (q + 1)%Z
  end.

(** The magnitude of a finite double in millionths, rounded to the
    nearest integer, ties to even: the digits [{:.6f}] prints. *)
Definition micro_units (m : positive) (e : Z) : Z :=
  match e with
  | Zneg p => round_half_even (Zpos m * 1000000) (2 ^ Zpos p)
  | _ => (Zpos m * 2 ^ e * 1000000)%Z
  end.

Definition fixed6 (q : Z) : string :=
  str_of_N (Z.to_N (q / 1000000)) ++ "." ++ zero_pad 6 (q mod 1000000).

Definition sign_str (s : bool) : string := if s then "-" else "".

(** [f"{p:.6f}"] for a float [p]. *)
Definition format_6f (p : spec_float) : string :=
  match p with
  | S754_nan => "nan"
  | S754_infinity s => sign_str s ++ "inf"
  | S754_zero s => sign_str s ++ fixed6 0
  | S754_finite s m e => sign_str s ++ fixed6 (micro_units m e)
  end.

Definition nl : string := String (ascii_of_nat 10) "".

(** [c.upper()] on an ASCII letter. *)
Definition upper_char (c : ascii) : ascii :=
  let n := nat_of_ascii c in
  if (97 <=? n)%nat && (n <=? 122)%nat then ascii_of_nat (n - 32) else c.

Fixpoint upper (s : string) : string :=
  match s with
  | EmptyString => EmptyString
  | String c s' => String (upper_char c) (upper s')
  end.

(** [s.rfind('.')], scanning with the index [i] of the head of [s]. *)
Fixpoint rfind_dot_from (i : nat) (s : string) : option nat :=
  match s with
  | EmptyString => None
  | String c s' =>
      match rfind_dot_from (S i) s' with
      | Some j => Some j
      | None => if Ascii.eqb c "."%char then Some i else None
      end
  end.

Definition rfind_dot (s : string) : option nat := rfind_dot_from 0 s.

(** A component that [pathlib] keeps: neither empty nor [.]. *)
Definition kept_component (c : string) : bool :=
  negb (String.eqb c "") && negb (String.eqb c ".").

(** The scan behind [Path(name).name]: [cur] is the component being read
    and [seen] the last kept component before it. *)
Fixpoint final_component_from (cur seen s : string) : string :=
  match s with
  | EmptyString => if kept_component cur then cur else seen
  | String c s' =>
      if Ascii.eqb c "/"%char
      then final_component_from "" (if kept_component cur then cur else seen) s'
      else final_component_from (cur ++ String c "") seen s'
  end.

(** [Path(name).name]: the last component of [name] that is neither empty
    nor [.]; the empty string when there is none. *)
Definition final_component (name : string) : string :=
  final_component_from "" "" name.

(** [Path(name).stem] (CPython 3.8 to 3.13): the final component without
    its last suffix. *)
Definition stem (name : string) : string :=
  let n := final_component name in
  match rfind_dot n with
  | Some i =>
      if (0 <? i)%nat && (i <? String.length n - 1)%nat
      then substring 0 i n
      else n
  | None => n
  end.

(** ** Python dictionaries *)

Section Dict.
Context {K V : Type}.
Variable eqb : K -> K -> bool.

Definition dict : Type := list (K * V).

Fixpoint dict_get (d : dict) (k : K) : option V :=
  match d with
  | [] => None
  | (k', v) :: d' => if eqb k' k then Some v else dict_get d' k
  end.

Definition dict_mem (d : dict) (k : K) : bool :=
  match dict_get d k with
  | Some _ => true
  | None => false
  end.

(** [d[k] = v]: an existing key keeps its position. *)
Fixpoint dict_set (d : dict) (k : K) (v : V) : dict :=
  match d with
  | [] => [(k, v)]
  | (k', v') :: d' =>
      if eqb k' k then (k', v) :: d' else (k', v') :: dict_set d' k v
  end.
End Dict.

(** ** Data model *)

Record image : Type := {
  img_id : Z;
  file_name : string;
  width : pynum;
  height : pynum
}.

Record annotation : Type := {
  image_id : Z;
  category_id : Z;
  segmentation : list (list pynum)
}.

Record category : Type := {
  cat_id : Z;
  name : string
}.

Record coco : Type := {
  images : list image;
  annotations : list annotation;
  categories : list category
}.

(** The split manifest: fold name, then split name, then file names. *)
Definition split_manifest : Type :=
  list (string * list (string * list string)).

(** ** Annotation loader *)

(** [{img['id']: img for img in coco_data['images']}] *)
Definition images_info_of (c : coco) : list (Z * image) :=
  fold_left (fun d img => dict_set Z.eqb d (img_id img) img) (images c) [].

(** The grouping loop over [coco_data['annotations']]. *)
Definition group_annotation (d : list (Z * list annotation)) (ann : annotation)
  : list (Z * list annotation) :=
  let img_id := image_id ann in
  let d1 := if negb (dict_mem Z.eqb d img_id) then dict_set Z.eqb d img_id [] else d in
  match dict_get Z.eqb d1 img_id with
  | Some l => dict_set Z.eqb d1 img_id (l ++ [ann])%list
  | None => d1
  end.

Definition annotations_by_image_id_of (c : coco) : list (Z * list annotation) :=
  fold_left group_annotation (annotations c) [].

(** ** Class mapper *)

(** [sorted] on strings: a stable sort by the order of [str]. *)
Fixpoint insert_sorted (x : string) (l : list string) : list string :=
  match l with
  | [] => [x]
  | y :: l' => if String.leb x y then x :: l else y :: insert_sorted x l'
  end.

Fixpoint sorted (l : list string) : list string :=
  match l with
  | [] => []
  | x :: l' => insert_sorted x (sorted l')
  end.

Definition class_names_ordered_of (c : coco) : list string :=
  sorted (map name (categories c)).

(** [{name: i for i, name in enumerate(class_names_ordered)}] *)
Definition class_name_to_id_of (names : list string) : list (string * nat) :=
  fold_left (fun d '(i, n) => dict_set String.eqb d n i) (enumerate names) [].

(** [{cat['id']: class_name_to_id[cat['name']] for cat in categories}] *)
Definition coco_cat_id_to_yolo_id_of
  (class_name_to_id : list (string * nat)) (cats : list category)
  : result (list (Z * nat)) :=
  fold_left
    (fun acc cat =>
       do d <- acc;
       match dict_get String.eqb class_name_to_id (name cat) with
       | Some i => Ok (dict_set Z.eqb d (cat_id cat) i)
       | None => Raise KeyError
       end)
    cats (Ok []).

(** ** Label encoder *)

(** [ann['segmentation'][0]] *)
Definition first_ring (ann : annotation) : result (list pynum) :=
  match segmentation ann with
  | [] => Raise IndexError
  | ring :: _ => Ok ring
  end.

(** [[coord / (img_width if i % 2 == 0 else img_height)
      for i, coord in enumerate(segmentation)]] *)
Definition normalized_points (img_width img_height : pynum) (ring : list pynum)
  : result (list spec_float) :=
  comprehension
    (fun '(i, coord) =>
       truediv coord (if (i mod 2 =? 0)%nat then img_width else img_height))
    (enumerate ring).

(** The body of the loop over one image's annotations; [yolo_annotations]
    is the list built so far. *)
Fixpoint label_loop (img_width img_height : pynum)
  (coco_cat_id_to_yolo_id : list (Z * nat))
  (anns : list annotation) (yolo_annotations : list string)
  : result (list string) :=
  match anns with
  | [] => Ok yolo_annotations
  | ann :: anns' =>
      match dict_get Z.eqb coco_cat_id_to_yolo_id (category_id ann) with
      | None =>
          label_loop img_width img_height coco_cat_id_to_yolo_id anns'
            yolo_annotations
      | Some yolo_class_id =>
          do ring <- first_ring ann;
          do pts <- normalized_points img_width img_height ring;
          let points_str := join " " (map format_6f pts) in
          let line := str_of_nat yolo_class_id ++ " " ++ points_str in
          label_loop img_width img_height coco_cat_id_to_yolo_id anns'
            (yolo_annotations ++ [line])%list
      end
  end.

(** The label lines of one image. *)
Definition label_lines (img_info : image)
  (annotations_by_image_id : list (Z * list annotation))
  (coco_cat_id_to_yolo_id : list (Z * nat)) (image_id : Z)
  : result (list string) :=
  if dict_mem Z.eqb annotations_by_image_id image_id then
    match dict_get Z.eqb annotations_by_image_id image_id with
    | Some anns =>
        label_loop (width img_info) (height img_info) coco_cat_id_to_yolo_id
          anns []
    | None => Raise KeyError
    end
  else Ok [].

(** ** File system and console *)

Definition path : Type := list string.

Inductive node : Type :=
| File (content : string)
| Dir.

Definition fs : Type := path -> option node.

Record world : Type := {
  disk : fs;
  console : list string
}.

Fixpoint path_eqb (p q : path) : bool :=
  match p, q with
  | [], [] => true
  | a :: p', b :: q' => String.eqb a b && path_eqb p' q'
  | _, _ => false
  end.

(** [p] is [q] or an ancestor of [q]. *)
Fixpoint is_prefix (p q : path) : bool :=
  match p, q with
  | [], _ => true
  | a :: p', b :: q' => String.eqb a b && is_prefix p' q'
  | _ :: _, [] => false
  end.

(** [p / c] for a name [c] that is one plain component. *)
Definition child (p : path) (c : string) : path := List.app p [c].

Notation "p // c" := (child p c) (at level 40, left associativity).

Definition update (d : fs) (p : path) (n : node) : fs :=
  fun q => if path_eqb p q then Some n else d q.

(** Computations that may raise and that act on the world; what was
    written before an exception stays written. *)
Definition io (A : Type) : Type := world -> world * result A.

Definition io_ret {A : Type} (a : A) : io A := fun w => (w, Ok a).

Definition io_bind {A B : Type} (c : io A) (k : A -> io B) : io B :=
  fun w =>
    match c w with
    | (w', Ok a) => k a w'
    | (w', Raise e) => (w', Raise e)
    end.

Definition lift {A : Type} (r : result A) : io A := fun w => (w, r).

Notation "x <~ c ;; k" := (io_bind c (fun x => k))
  (at level 61, c at next level, right associativity).
Notation "c ;; k" := (io_bind c (fun _ => k))
  (at level 61, right associativity).

(** A [for] loop; [continue] is the body returning early. *)
Fixpoint for_each {A : Type} (l : list A) (body : A -> io unit) : io unit :=
  match l with
  | [] => io_ret tt
  | a :: l' => body a ;; for_each l' body
  end.

Definition print (s : string) : io unit :=
  fun w => ({| disk := disk w; console := (console w ++ [s])%list |}, Ok tt).

(** [p.exists()] *)
Definition path_exists (p : path) : io bool :=
  fun w => (w, Ok (match disk w p with Some _ => true | None => false end)).

(** [shutil.rmtree(p)] for a directory [p]. *)
Definition rmtree (p : path) : io unit :=
  fun w =>
    ({| disk := fun q => if is_prefix p q then None else disk w q;
        console := console w |}, Ok tt).

(** [p.mkdir(parents=True, exist_ok=True)] when no path on the way is a
    regular file. *)
Definition mkdir_parents (p : path) : io unit :=
  fun w =>
    ({| disk := fun q =>
                  if is_prefix q p then
                    match disk w q with
                    | None => Some Dir
                    | Some n => Some n
                    end
                  else disk w q;
        console := console w |}, Ok tt).

(** [shutil.copy(src, dst)] when the directory of [dst] is there: into
    [dst] when that is a directory, else onto [dst]. *)
Definition copy (src dst : path) : io unit :=
  fun w =>
    match disk w src with
    | Some (File content) =>
        let target :=
          match disk w dst with
          | Some Dir => dst // last src ""
          | _ => dst
          end in
        ({| disk := update (disk w) target (File content);
            console := console w |}, Ok tt)
    | Some Dir => (w, Raise IsADirectoryError)
    | None => (w, Raise FileNotFoundError)
    end.

(** [with open(p, 'w') as f: f.write(s)] when the directory of [p] is
    there and [p] is no directory. *)
Definition write_text (p : path) (s : string) : io unit :=
  fun w =>
    ({| disk := update (disk w) p (File s); console := console w |}, Ok tt).

(** [str(p)]: paths are absolute component lists. *)
Definition path_str (p : path) : string := "/" ++ join "/" p.

(** [p.resolve()], printed. *)
Definition resolve (p : path) : string := path_str p.

(** ** Fold materializer *)

Definition splits : list string := ["train"; "val"; "test"].

Definition fold_name_of (i : nat) : string := "fold_" ++ str_of_nat i.

Definition output_base_path_of (base_path : path) (fold_name : string) : path :=
  base_path // ("AKUDENTAL_YOLO_" ++ upper fold_name).

Definition bar : string := "====================".

(** [next((i_id for i_id, i_info in images_info.items()
           if i_info['file_name'] == image_filename), None)] *)
Fixpoint find_image_id (images_info : list (Z * image)) (image_filename : string)
  : option Z :=
  match images_info with
  | [] => None
  | (i_id, i_info) :: rest =>
      if String.eqb (file_name i_info) image_filename then Some i_id
      else find_image_id rest image_filename
  end.

Section Pipeline.
Variable base_path : path.
Variable images_info : list (Z * image).
Variable annotations_by_image_id : list (Z * list annotation).
Variable coco_cat_id_to_yolo_id : list (Z * nat).
Variable class_names_ordered : list string.

(** The body of the loop over one split's file names. *)
Definition process_image (output_base_path : path) (split_name : string)
  (image_filename : string) : io unit :=
  match find_image_id images_info image_filename with
  | None => io_ret tt
  | Some image_id =>
      let source_image_path := base_path // image_filename in
      let dest_image_path := output_base_path // "images" // split_name // image_filename in
      present <~ path_exists source_image_path ;;
      if present then
        copy source_image_path dest_image_path ;;
        img_info <~ lift (match dict_get Z.eqb images_info image_id with
                          | Some info => Ok info
                          | None => Raise KeyError
                          end) ;;
        yolo_annotations <~ lift (label_lines img_info annotations_by_image_id
                                    coco_cat_id_to_yolo_id image_id) ;;
        let label_filename := stem image_filename ++ ".txt" in
        let dest_label_path := output_base_path // "labels" // split_name // label_filename in
        write_text dest_label_path (join nl yolo_annotations)
      else io_ret tt
  end.

Definition process_split (output_base_path : path) (fold_name : string)
  (entry : string * list string) : io unit :=
  let '(split_name, image_files) := entry in
  print ("  -> Processing '" ++ split_name ++ "' split for " ++ fold_name ++ "...") ;;
  for_each image_files (process_image output_base_path split_name).

Definition yaml_content_of (fold_name : string) (output_base_path : path)
  : string :=
  fold_left
    (fun acc '(j, name) => acc ++ "  " ++ str_of_nat j ++ ": " ++ name ++ nl)
    (enumerate class_names_ordered)
    (nl ++ "# Dataset configuration for " ++ upper fold_name ++ nl
        ++ "path: " ++ resolve output_base_path ++ nl
        ++ "train: images/train" ++ nl
        ++ "val: images/val" ++ nl
        ++ "test: images/test" ++ nl
        ++ nl
        ++ "nc: " ++ str_of_nat (List.length class_names_ordered) ++ nl
        ++ "names:" ++ nl).

(** The directory skeleton of one fold. *)
Definition make_skeleton (output_base_path : path) : io unit :=
  for_each splits
    (fun split =>
       mkdir_parents (output_base_path // "images" // split) ;;
       mkdir_parents (output_base_path // "labels" // split)).

(** The body of the loop over the five folds. *)
Definition process_fold (split_info : split_manifest) (i : nat) : io unit :=
  let fold_name := fold_name_of i in
  let output_base_path := output_base_path_of base_path fold_name in
  print (nl ++ bar ++ " PROCESSING " ++ upper fold_name ++ " " ++ bar) ;;
  print ("Output will be in: " ++ path_str output_base_path) ;;
  present <~ path_exists output_base_path ;;
  (if present then rmtree output_base_path else io_ret tt) ;;
  make_skeleton output_base_path ;;
  match dict_get String.eqb split_info fold_name with
  | None | Some [] =>
      print ("❌ Error: '" ++ fold_name
               ++ "' not found in split_info.json. Skipping.")
  | Some fold_splits =>
      for_each fold_splits (process_split output_base_path fold_name) ;;
      write_text (output_base_path // "dataset.yaml")
        (yaml_content_of fold_name output_base_path) ;;
      print ("  -> `dataset.yaml` for " ++ fold_name ++ " created successfully.")
  end.

Definition process_folds (split_info : split_manifest) (folds : list nat)
  : io unit :=
  for_each folds (process_fold split_info).
End Pipeline.

(** [create_yolo_datasets_for_all_folds(base_path)], the two JSON
    documents given as parsed. *)
Definition create_yolo_datasets_for_all_folds (base_path : path)
  (coco_data : coco) (split_info : split_manifest) : io unit :=
  print "🚀 Starting 5-fold dataset creation process..." ;;
  print "🔄 Loading annotation and split data (this happens only once)..." ;;
  let images_info := images_info_of coco_data in
  let annotations_by_image_id := annotations_by_image_id_of coco_data in
  let class_names_ordered := class_names_ordered_of coco_data in
  let class_name_to_id := class_name_to_id_of class_names_ordered in
  coco_cat_id_to_yolo_id <~
    lift (coco_cat_id_to_yolo_id_of class_name_to_id (categories coco_data)) ;;
  process_folds base_path images_info annotations_by_image_id
    coco_cat_id_to_yolo_id class_names_ordered split_info (seq 0 5) ;;
  print (nl ++ bar ++ " ALL FOLDS PROCESSED " ++ bar) ;;
  print (nl ++ "✅ Success! Your 5 YOLO dataset folders are ready.").

(** * Specification vocabulary

    The notions the statements below are written in: what the
    specification calls a qualifying annotation, a label line, the empty
    skeleton of a fold, and the sample data of its example. *)

(** Ascending in the order of [str]. *)
Definition leb_sorted : list string -> Prop :=
  StronglySorted (fun a b => String.leb a b = true).

(** An annotation qualifies when its category id is a key of the map. *)
Definition qualifies (m : list (Z * nat)) (a : annotation) : bool :=
  dict_mem Z.eqb m (category_id a).

(** The quotient [c / d] as a double, where the division is defined. *)
Definition quotient (c d : pynum) : spec_float :=
  match truediv c d with
  | Ok q => q
  | Raise _ => S754_nan
  end.

(** The printed coordinates of a ring read as x, y, x, y, ...: each x over
    the width, each y over the height, six decimals. *)
Fixpoint ring_points (w h : pynum) (ring : list pynum) : list string :=
  match ring with
  | x :: y :: rest =>
      format_6f (quotient x w) :: format_6f (quotient y h)
        :: ring_points w h rest
  | [x] => [format_6f (quotient x w)]
  | [] => []
  end.

(** The line [<class_index> <x1> <y1> ... <xn> <yn>] of an annotation. *)
Definition yolo_line (img : image) (m : list (Z * nat)) (a : annotation)
  : string :=
  let class_index :=
    match dict_get Z.eqb m (category_id a) with
    | Some i => i
    | None => 0
    end in
  str_of_nat class_index ++ " "
    ++ join " " (ring_points (width img) (height img) (hd [] (segmentation a))).

(** No coordinate of the ring overflows the double range when divided by
    its dimension. *)
Fixpoint ring_in_range (w h : pynum) (ring : list pynum) : Prop :=
  match ring with
  | x :: y :: rest =>
      truediv x w <> Raise OverflowError
      /\ truediv y h <> Raise OverflowError
      /\ ring_in_range w h rest
  | [x] => truediv x w <> Raise OverflowError
  | [] => True
  end.

(** The annotation has a first ring, within range. *)
Definition encodable (img : image) (a : annotation) : Prop :=
  exists ring rest,
    segmentation a = ring :: rest
    /\ ring_in_range (width img) (height img) ring.

(** ** Values of doubles and of printed decimals *)

(** The magnitude [m * 2^e] of a finite double. *)
Definition float_value (m : positive) (e : Z) : Q :=
  match e with
  | Zneg p => Zpos m # (2 ^ p)%positive
  | _ => inject_Z (Zpos m * 2 ^ e)
  end.

(** The magnitude that [fixed6 u] denotes: [u] millionths. *)
Definition printed_value (u : Z) : Q := u # 1000000.

(** [u] is the integer nearest to [v], the even one of the two when [v]
    lies halfway between them. *)
Definition nearest_even (u : Z) (v : Q) : Prop :=
  (Qabs (inject_Z u - v) <= 1 # 2)%Q
  /\ ((Qabs (inject_Z u - v) == 1 # 2)%Q -> Z.even u = true).

(** The digit that a character denotes. *)
Definition digit_value (c : ascii) : option Z :=
  let n := nat_of_ascii c in
  if (48 <=? n)%nat && (n <=? 57)%nat then Some (Z.of_nat (n - 48)) else None.

(** The number that decimal digits denote, read from the left after
    [acc]. *)
Fixpoint read_digits (s : string) (acc : Z) : option Z :=
  match s with
  | EmptyString => Some acc
  | String c s' =>
      match digit_value c with
      | Some d => read_digits s' (10 * acc + d)
      | None => None
      end
  end.

(** A text read as an unsigned decimal with six fractional digits: at
    least one digit, a point, six digits.  The result is the number of
    millionths. *)
Definition read_unsigned6 (body : string) : option Z :=
  let n := String.length body in
  if (n <? 8)%nat then None
  else if negb (String.eqb (substring (n - 7) 1 body) ".") then None
  else
    match read_digits (substring 0 (n - 7) body) 0,
          read_digits (substring (n - 6) 6 body) 0 with
    | Some whole, Some frac => Some (whole * 1000000 + frac)%Z
    | _, _ => None
    end.

(** The same with an optional minus sign before it: the sign and the
    number of millionths. *)
Definition read_fixed6 (t : string) : option (bool * Z) :=
  match t with
  | String c r =>
      if Ascii.eqb c "-"%char
      then option_map (pair true) (read_unsigned6 r)
      else option_map (pair false) (read_unsigned6 t)
  | EmptyString => None
  end.

(** ** The fold skeleton *)

(** [shutil.rmtree] behind its [exists()] guard, on the disk. *)
Definition cleared (out : path) (d : fs) : fs :=
  match d out with
  | Some _ => fun q => if is_prefix out q then None else d q
  | None => d
  end.

(** [mkdir(parents=True, exist_ok=True)], on the disk. *)
Definition with_dir (p : path) (d : fs) : fs :=
  fun q =>
    if is_prefix q p then
      match d q with
      | None => Some Dir
      | Some n => Some n
      end
    else d q.

(** The disk once a fold's output directory is recreated. *)
Definition skeleton_disk (out : path) (d : fs) : fs :=
  fold_left
    (fun d split => with_dir (out // "labels" // split)
                      (with_dir (out // "images" // split) d))
    splits (cleared out d).

(** The directories of a fresh fold tree, relative to its root. *)
Definition skeleton_dirs : list path :=
  [ []; ["images"]; ["labels"];
    ["images"; "train"]; ["labels"; "train"];
    ["images"; "val"]; ["labels"; "val"];
    ["images"; "test"]; ["labels"; "test"] ].

(** The tree rooted at [out] is the empty skeleton: the nine directories
    and nothing else. *)
Definition empty_tree (out : path) (d : fs) : Prop :=
  forall r, d (out ++ r)%list
            = if existsb (path_eqb r) skeleton_dirs then Some Dir else None.

(** A real disk has no entry below a path that does not exist. *)
Definition absent_is_empty (d : fs) (p : path) : Prop :=
  d p = None -> forall r, d (p ++ r)%list = None.

(** The two lines printed when a fold starts, and the report of a fold
    that the manifest lacks. *)
Definition fold_banner (base_path : path) (i : nat) : list string :=
  [ nl ++ bar ++ " PROCESSING " ++ upper (fold_name_of i) ++ " " ++ bar;
    "Output will be in: "
      ++ path_str (output_base_path_of base_path (fold_name_of i)) ].

Definition fold_missing_report (i : nat) : string :=
  "❌ Error: '" ++ fold_name_of i ++ "' not found in split_info.json. Skipping.".

(** The work of a fold that the manifest has: its splits, then the
    data set descriptor. *)
Definition materialize (base_path : path) (images_info : list (Z * image))
  (annotations_by_image_id : list (Z * list annotation))
  (coco_cat_id_to_yolo_id : list (Z * nat)) (class_names_ordered : list string)
  (i : nat) (fold_splits : list (string * list string)) : io unit :=
  let fold_name := fold_name_of i in
  let out := output_base_path_of base_path fold_name in
  for_each fold_splits
    (process_split base_path images_info annotations_by_image_id
       coco_cat_id_to_yolo_id out fold_name) ;;
  write_text (out // "dataset.yaml")
    (yaml_content_of class_names_ordered fold_name out) ;;
  print ("  -> `dataset.yaml` for " ++ fold_name ++ " created successfully.").

(** Two worlds with the same disk. *)
Definition same_disk (a b : world) : Prop := forall q, disk a q = disk b q.

(** ** Io computations and the disk *)

(** The computation reads only the disk, and treats equal disks alike. *)
Definition respects {A : Type} (c : io A) : Prop :=
  forall a b, same_disk a b ->
    same_disk (fst (c a)) (fst (c b)) /\ snd (c a) = snd (c b).

(** The computation changes the disk strictly below [out] only. *)
Definition frames {A : Type} (out : path) (c : io A) : Prop :=
  forall w q, (forall x r, q <> (out ++ x :: r)%list) ->
    disk (fst (c w)) q = disk w q.

(** What a fold does once its skeleton stands. *)
Definition fold_tail (base_path : path) (images_info : list (Z * image))
  (annotations_by_image_id : list (Z * list annotation))
  (coco_cat_id_to_yolo_id : list (Z * nat)) (class_names_ordered : list string)
  (split_info : split_manifest) (i : nat) : io unit :=
  match dict_get String.eqb split_info (fold_name_of i) with
  | None | Some [] => print (fold_missing_report i)
  | Some fold_splits =>
      materialize base_path images_info annotations_by_image_id
        coco_cat_id_to_yolo_id class_names_ordered i fold_splits
  end.

(** The world in which the manifest is consulted: skeleton recreated,
    banner printed. *)
Definition prepared (base_path : path) (i : nat) (w : world) : world :=
  {| disk := skeleton_disk (output_base_path_of base_path (fold_name_of i))
               (disk w);
     console := (console w ++ fold_banner base_path i)%list |}.

(** ** Sample data: the example of the specification *)

Definition ex_categories : list category :=
  [ {| cat_id := 7; name := "crown" |}; {| cat_id := 2; name := "cavity" |} ].

Definition ex_categories_renumbered : list category :=
  [ {| cat_id := 0; name := "cavity" |}; {| cat_id := 1; name := "crown" |} ].

Definition ex_image : image :=
  {| img_id := 1; file_name := "tooth.png";
     width := PyInt 200; height := PyInt 100 |}.

Definition ex_annotation : annotation :=
  {| image_id := 1; category_id := 7;
     segmentation :=
       [[PyInt 0; PyInt 0; PyInt 100; PyInt 0;
         PyInt 100; PyInt 100; PyInt 0; PyInt 100]] |}.

(** An annotation of an unknown category, and one without any ring. *)
Definition ex_unmapped : annotation :=
  {| image_id := 1; category_id := 9; segmentation := [] |}.

Definition ex_no_ring : annotation :=
  {| image_id := 1; category_id := 7; segmentation := [] |}.

(** A coordinate beyond the double range. *)
Definition ex_huge : annotation :=
  {| image_id := 1; category_id := 7;
     segmentation := [[PyInt (10 ^ 400); PyInt 0]] |}.

Definition ex_map : list (Z * nat) := [(7%Z, 1); (2%Z, 0)].

Definition ex_coco (anns : list annotation) : coco :=
  {| images := [ex_image]; annotations := anns; categories := ex_categories |}.

Definition ex_base : path := ["data"].

(** A disk with the data set directory and one source image. *)
Definition ex_disk : fs :=
  fun p =>
    if path_eqb p ["data"] then Some Dir
    else if path_eqb p ["data"; "tooth.png"] then Some (File "PNG")
    else None.

Definition ex_world : world := {| disk := ex_disk; console := [] |}.

Definition ex_split_info : split_manifest :=
  [ ("fold_0", [("train", ["tooth.png"]); ("val", ["absent.png"])]);
    ("fold_1", []) ].

(** The coordinate 100.0001220703125 (819201/8192), a double. *)
Definition ex_subpixel : pynum :=
  PyFloat (binary_normalize prec emax 819201 (-13) false).

(** A disk with the output of an earlier run of fold 1. *)
Definition ex_disk_old : fs :=
  fun p =>
    if is_prefix p ["data"; "AKUDENTAL_YOLO_FOLD_1"; "labels"; "train"]
    then Some Dir
    else if path_eqb p
              ["data"; "AKUDENTAL_YOLO_FOLD_1"; "labels"; "train"; "old.txt"]
    then Some (File "0 0.100000 0.100000")
    else ex_disk p.

Definition ex_world_old : world := {| disk := ex_disk_old; console := [] |}.

(** A second record with the file name of [ex_image], under another id
    and with other dimensions. *)
Definition ex_image_twin : image :=
  {| img_id := 2; file_name := "tooth.png";
     width := PyInt 640; height := PyInt 480 |}.

(** ** Characters of a label file *)

Definition is_digit (c : ascii) : bool :=
  let n := nat_of_ascii c in (48 <=? n)%nat && (n <=? 57)%nat.

Fixpoint all_digits (s : string) : bool :=
  match s with
  | EmptyString => true
  | String c s' => is_digit c && all_digits s'
  end.

(** The number of newline characters of a text. *)
Fixpoint count_nl (s : string) : nat :=
  match s with
  | EmptyString => 0
  | String c s' =>
      (if Ascii.eqb c (ascii_of_nat 10) then 1 else 0) + count_nl s'
  end.

Fixpoint has_dot (s : string) : bool :=
  match s with
  | EmptyString => false
  | String c s' => Ascii.eqb c "."%char || has_dot s'
  end.

Fixpoint has_slash (s : string) : bool :=
  match s with
  | EmptyString => false
  | String c s' => Ascii.eqb c "/"%char || has_slash s'
  end.

(** ** Names and disks on which the file system calls are the model's *)

(** A name that is one ordinary path component: not empty, not [.] or
    [..], without a slash.  Joined to a directory it names an entry of
    that directory. *)
Definition plain_name (s : string) : bool :=
  negb (String.eqb s "") && negb (String.eqb s ".")
  && negb (String.eqb s "..") && negb (has_slash s).

(** The splits of a manifest entry are among [train], [val] and [test],
    whose directories the skeleton has, and their file names are plain. *)
Definition plain_splits (fold_splits : list (string * list string)) : bool :=
  forallb
    (fun e => existsb (String.eqb (fst e)) splits && forallb plain_name (snd e))
    fold_splits.

(** The entry of fold [i], if the manifest has one, is of that kind. *)
Definition plain_fold (split_info : split_manifest) (i : nat) : bool :=
  match dict_get String.eqb split_info (fold_name_of i) with
  | Some fold_splits => plain_splits fold_splits
  | None => true
  end.

Definition is_file (n : option node) : bool :=
  match n with
  | Some (File _) => true
  | _ => false
  end.

(** Neither [p] nor a path above it is a regular file: [shutil.rmtree]
    on [p], if it is there, and [mkdir(parents=True)] below it find
    directories only. *)
Definition no_file_above (d : fs) (p : path) : bool :=
  forallb (fun n => negb (is_file (d (firstn n p))))
    (seq 0 (S (List.length p))).

(** ** Where a fold writes *)

(** Every path is left as it was, or is a path of [P] that now holds a
    regular file. *)
Definition writes_files_at {A : Type} (P : path -> Prop) (c : io A) : Prop :=
  forall w q,
    disk (fst (c w)) q = disk w q
    \/ (P q /\ exists content, disk (fst (c w)) q = Some (File content)).

(** The places of image copies and label files in a fold tree:
    [images/<split>/<name>...] and [labels/<split>/<name>...]. *)
Definition split_file_place (out q : path) : Prop :=
  exists d split_name f rest,
    (d = "images" \/ d = "labels")
    /\ q = (out ++ d :: split_name :: f :: rest)%list.

(** The places of all files of a fold tree: those and [dataset.yaml]. *)
Definition fold_file_place (out q : path) : Prop :=
  split_file_place out q \/ q = out // "dataset.yaml".

(** Missing ancestors of the output directories are created as
    directories; nothing else changes. *)
Definition with_ancestors (base_path : path) (d : fs) : fs :=
  fun q =>
    if is_prefix q base_path then
      match d q with
      | None => Some Dir
      | Some n => Some n
      end
    else d q.

(** The computation never raises [KeyError]. *)
Definition no_key_error {A : Type} (c : io A) : Prop :=
  forall w, snd (c w) <> Raise KeyError.

(** One line of the names block of the descriptor. *)
Definition names_line (j : nat) (n : string) : string :=
  "  " ++ str_of_nat j ++ ": " ++ n ++ nl.

(** A second image of the same tooth in another format, and a disk that
    holds both. *)
Definition ex_image_jpg : image :=
  {| img_id := 3; file_name := "tooth.jpg";
     width := PyInt 200; height := PyInt 100 |}.

Definition ex_coco_pair (anns : list annotation) : coco :=
  {| images := [ex_image; ex_image_jpg]; annotations := anns;
     categories := ex_categories |}.

Definition ex_disk_pair : fs :=
  fun p =>
    if path_eqb p ["data"; "tooth.jpg"] then Some (File "JPG") else ex_disk p.

Definition ex_world_pair : world := {| disk := ex_disk_pair; console := [] |}.

(** That world once the skeleton of an output directory [OUT] is made. *)
Definition ex_world_ready : world :=
  fst (make_skeleton (ex_base // "OUT") ex_world_pair).

(** * Properties *)

(** ** Dictionaries *)

Section DictFacts.
Context {K V : Type}.
Variable eqb : K -> K -> bool.
Hypothesis eqb_eq : forall a b, eqb a b = true <-> a = b.

Lemma eqb_refl_dict (k : K) : eqb k k = true.
Proof. now apply eqb_eq. Qed.

Lemma eqb_neq_dict (a b : K) : a <> b -> eqb a b = false.
Proof.
  intros H. destruct (eqb a b) eqn:E; [|reflexivity].
  now apply eqb_eq in E.
Qed.

Lemma dict_get_set_same (d : list (K * V)) k v :
  dict_get eqb (dict_set eqb d k v) k = Some v.
Proof.
  induction d as [|[k' v'] d IH]; simpl.
  - now rewrite eqb_refl_dict.
  - destruct (eqb k' k) eqn:E; simpl; rewrite E; auto.
Qed.

Lemma dict_get_set_other (d : list (K * V)) k k' v :
  k <> k' -> dict_get eqb (dict_set eqb d k v) k' = dict_get eqb d k'.
Proof.
  intros Hne. induction d as [|[k0 v0] d IH]; simpl.
  - now rewrite eqb_neq_dict.
  - destruct (eqb k0 k) eqn:E; simpl.
    + apply eqb_eq in E; subst k0. now rewrite eqb_neq_dict.
    + now rewrite IH.
Qed.

Lemma dict_set_fresh (d : list (K * V)) k v :
  ~ In k (map fst d) -> dict_set eqb d k v = (d ++ [(k, v)])%list.
Proof.
  induction d as [|[k0 v0] d IH]; simpl; intros H; [reflexivity|].
  rewrite eqb_neq_dict by (intros ->; apply H; now left).
  f_equal. apply IH. intros Hin. apply H. now right.
Qed.

End DictFacts.

(** ** The order of [str] *)

Lemma ascii_compare_refl (a : ascii) : Ascii.compare a a = Eq.
Proof. unfold Ascii.compare. apply N.compare_refl. Qed.

Lemma ascii_compare_lt_trans (a b c : ascii) :
  Ascii.compare a b = Lt -> Ascii.compare b c = Lt -> Ascii.compare a c = Lt.
Proof.
  unfold Ascii.compare. rewrite !N.compare_lt_iff. apply N.lt_trans.
Qed.

Lemma string_compare_refl (s : string) : String.compare s s = Eq.
Proof.
  induction s as [|a s IH]; simpl; [reflexivity|].
  now rewrite ascii_compare_refl.
Qed.

Lemma string_compare_lt_trans (x y z : string) :
  String.compare x y = Lt -> String.compare y z = Lt -> String.compare x z = Lt.
Proof.
  revert y z; induction x as [|a x IH]; intros [|b y] [|c z]; simpl;
    try discriminate; try reflexivity.
  destruct (Ascii.compare a b) eqn:Eab; try discriminate;
    destruct (Ascii.compare b c) eqn:Ebc; try discriminate; intros H1 H2.
  - apply Ascii.compare_eq_iff in Eab, Ebc; subst.
    rewrite ascii_compare_refl. eauto.
  - apply Ascii.compare_eq_iff in Eab; subst. now rewrite Ebc.
  - apply Ascii.compare_eq_iff in Ebc; subst. now rewrite Eab.
  - now rewrite (ascii_compare_lt_trans a b c).
Qed.

Lemma string_leb_cases (x y : string) :
  String.leb x y = true <-> String.compare x y = Lt \/ x = y.
Proof.
  unfold String.leb. split.
  - destruct (String.compare x y) eqn:E; try discriminate; intros _.
    + right. now apply String.compare_eq_iff.
    + now left.
  - intros [H | ->]; [now rewrite H | now rewrite string_compare_refl].
Qed.

Lemma string_leb_trans (x y z : string) :
  String.leb x y = true -> String.leb y z = true -> String.leb x z = true.
Proof.
  rewrite !string_leb_cases. intros [H1 | ->] [H2 | ->]; auto.
  left. eapply string_compare_lt_trans; eauto.
Qed.

Lemma string_ltb_leb_neq (x y : string) :
  String.leb x y = true -> x <> y -> String.ltb x y = true.
Proof.
  rewrite string_leb_cases. unfold String.ltb.
  intros [H | ->] Hne; [now rewrite H | contradiction].
Qed.

(** ** Sorting *)

Lemma insert_sorted_perm (x : string) (l : list string) :
  Permutation (x :: l) (insert_sorted x l).
Proof.
  induction l as [|y l IH]; simpl; [reflexivity|].
  destruct (String.leb x y); [reflexivity|].
  rewrite perm_swap. now constructor.
Qed.

Lemma sorted_perm (l : list string) : Permutation l (sorted l).
Proof.
  induction l as [|x l IH]; simpl; [constructor|].
  rewrite <- insert_sorted_perm. now constructor.
Qed.

Lemma insert_sorted_sorted (x : string) (l : list string) :
  leb_sorted l -> leb_sorted (insert_sorted x l).
Proof.
  unfold leb_sorted. induction 1 as [|y l Hs IH Hall]; simpl.
  - repeat constructor.
  - destruct (String.leb x y) eqn:E.
    + constructor; [now constructor|].
      constructor; [assumption|].
      eapply Forall_impl; [|exact Hall].
      intros z Hz. eapply string_leb_trans; eauto.
    + constructor; [assumption|].
      apply (Permutation_Forall (insert_sorted_perm x l)).
      constructor; [|assumption].
      destruct (String.leb_total x y) as [H|H]; congruence.
Qed.

Lemma sorted_sorted (l : list string) : leb_sorted (sorted l).
Proof.
  induction l as [|x l IH]; simpl; [constructor|].
  now apply insert_sorted_sorted.
Qed.

(** Two sorted lists with the same elements are the same list. *)
Lemma leb_sorted_unique (l1 l2 : list string) :
  leb_sorted l1 -> leb_sorted l2 -> Permutation l1 l2 -> l1 = l2.
Proof.
  unfold leb_sorted. intros H1; revert l2.
  induction H1 as [|x l1 Hs1 IH Hall1]; intros l2 H2 Hp.
  - apply Permutation_nil in Hp. now subst.
  - destruct H2 as [|y l2 Hs2 Hall2].
    + apply Permutation_sym, Permutation_nil in Hp. discriminate.
    + assert (x = y) as ->.
      { apply String.leb_antisym.
        - assert (In y (x :: l1)) as [->|Hin]
            by (eapply Permutation_in; [symmetry; exact Hp | now left]).
          + apply string_leb_cases. now right.
          + rewrite Forall_forall in Hall1. auto.
        - assert (In x (y :: l2)) as [->|Hin]
            by (eapply Permutation_in; [exact Hp | now left]).
          + apply string_leb_cases. now right.
          + rewrite Forall_forall in Hall2. auto. }
      f_equal. apply IH; [assumption|].
      eapply Permutation_cons_inv; eauto.
Qed.

Lemma leb_sorted_strict (l : list string) :
  leb_sorted l -> NoDup l ->
  StronglySorted (fun a b => String.ltb a b = true) l.
Proof.
  unfold leb_sorted. induction 1 as [|x l Hs IH Hall]; intros Hnd.
  - constructor.
  - inversion Hnd as [|? ? Hnotin Hnd']; subst.
    constructor; [auto|].
    rewrite Forall_forall in *. intros y Hy.
    apply string_ltb_leb_neq; [auto|]. intros ->. contradiction.
Qed.

(** ** Class mapper *)

Lemma string_eqb_iff (a b : string) : String.eqb a b = true <-> a = b.
Proof. apply String.eqb_eq. Qed.

Lemma z_eqb_iff (a b : Z) : Z.eqb a b = true <-> a = b.
Proof. apply Z.eqb_eq. Qed.

Lemma class_name_to_id_from (s : nat) (names : list string)
  (d : list (string * nat)) :
  NoDup names ->
  (forall n, In n names -> ~ In n (map fst d)) ->
  fold_left (fun d '(i, n) => dict_set String.eqb d n i) (enumerate_from s names) d
  = (d ++ combine names (seq s (List.length names)))%list.
Proof.
  revert s d; induction names as [|n names IH]; intros s d Hnd Hfresh; simpl.
  - now rewrite app_nil_r.
  - inversion Hnd as [|? ? Hnotin Hnd']; subst.
    rewrite (dict_set_fresh String.eqb string_eqb_iff)
      by (apply Hfresh; now left).
    rewrite IH; [now rewrite <- app_assoc | assumption |].
    intros m Hm. rewrite map_app, in_app_iff. simpl.
    intros [Hin | [<- | []]]; [|contradiction].
    apply (Hfresh m); [now right | assumption].
Qed.

Lemma class_name_to_id_table (names : list string) :
  NoDup names ->
  class_name_to_id_of names = combine names (seq 0 (List.length names)).
Proof.
  intros Hnd. unfold class_name_to_id_of, enumerate.
  rewrite class_name_to_id_from; auto.
Qed.

Lemma combine_seq_get (names : list string) (s : nat) (x : string) :
  In x names ->
  exists i, dict_get String.eqb (combine names (seq s (List.length names))) x = Some i
            /\ nth_error names (i - s) = Some x /\ s <= i.
Proof.
  revert s; induction names as [|n names IH]; intros s Hin; simpl in *; [easy|].
  destruct (String.eqb n x) eqn:E.
  - apply String.eqb_eq in E; subst. exists s. rewrite Nat.sub_diag. auto.
  - destruct Hin as [->|Hin]; [now rewrite String.eqb_refl in E|].
    destruct (IH (S s) Hin) as (i & Hg & Hn & Hle).
    exists i. split; [assumption|]. split; [|lia].
    replace (i - s) with (S (i - S s)) by lia. exact Hn.
Qed.

(** The id bridge never raises when every category name is in the table,
    and an id maps to the index of the name of its last category. *)
Lemma cat_id_bridge (cn : list (string * nat)) (cats : list category) :
  (forall c, In c cats -> dict_get String.eqb cn (name c) <> None) ->
  exists d, coco_cat_id_to_yolo_id_of cn cats = Ok d /\
    forall k, dict_get Z.eqb d k =
      match find (fun c => Z.eqb (cat_id c) k) (rev cats) with
      | Some c => dict_get String.eqb cn (name c)
      | None => None
      end.
Proof.
  unfold coco_cat_id_to_yolo_id_of.
  induction cats as [|c cats IH] using rev_ind; intros Hall.
  - exists []. simpl. auto.
  - destruct IH as (d & Hd & Hget).
    { intros c' Hc'. apply Hall. apply in_or_app. now left. }
    rewrite fold_left_app. simpl. rewrite Hd. simpl.
    destruct (dict_get String.eqb cn (name c)) as [i|] eqn:Ei.
    + exists (dict_set Z.eqb d (cat_id c) i). split; [reflexivity|].
      intros k. rewrite rev_app_distr. simpl.
      destruct (Z.eqb (cat_id c) k) eqn:Ek.
      * apply Z.eqb_eq in Ek; subst k.
        now rewrite (dict_get_set_same Z.eqb z_eqb_iff).
      * rewrite (dict_get_set_other Z.eqb z_eqb_iff); [apply Hget|].
        intros Heq. rewrite Heq, Z.eqb_refl in Ek. discriminate.
    + exfalso. apply (Hall c); [|assumption].
      apply in_or_app. right. now left.
Qed.

Lemma find_last_nodup (cats : list category) (c : category) :
  NoDup (map cat_id cats) -> In c cats ->
  find (fun c' => Z.eqb (cat_id c') (cat_id c)) (rev cats) = Some c.
Proof.
  induction cats as [|c' cats IH] using rev_ind; intros Hnd Hin; [easy|].
  rewrite rev_app_distr. simpl.
  rewrite map_app in Hnd. simpl in Hnd.
  apply NoDup_remove in Hnd. rewrite app_nil_r in Hnd. destruct Hnd as [Hnd Hnotin].
  apply in_app_or in Hin. destruct Hin as [Hin | [-> | []]].
  - destruct (Z.eqb (cat_id c') (cat_id c)) eqn:E; [|auto].
    apply Z.eqb_eq in E. exfalso. apply Hnotin. rewrite E. now apply in_map.
  - now rewrite Z.eqb_refl.
Qed.

Lemma class_names_ordered_perm (c : coco) :
  Permutation (map name (categories c)) (class_names_ordered_of c).
Proof. apply sorted_perm. Qed.

Lemma class_table_total (c : coco) (x : category) :
  NoDup (map name (categories c)) -> In x (categories c) ->
  dict_get String.eqb (class_name_to_id_of (class_names_ordered_of c)) (name x)
  <> None.
Proof.
  intros Hnd Hin.
  rewrite class_name_to_id_table
    by (eapply Permutation_NoDup; [apply class_names_ordered_perm | exact Hnd]).
  destruct (combine_seq_get (class_names_ordered_of c) 0 (name x)) as (i & Hi & _).
  - eapply Permutation_in; [apply class_names_ordered_perm|]. now apply in_map.
  - now rewrite Hi.
Qed.

(** C2.  For categories with pairwise distinct names the class table
    lists the names in strictly ascending order of [str], numbered
    0, 1, 2, ...; a second category list with the same set of names (in
    any order, under any ids) gives the same name list and the same
    name-to-index dictionary, and with distinct ids on both sides the id
    bridges send the ids of equally named categories to the same index. *)
Theorem class_table_depends_only_on_names (c1 c2 : coco) :
  NoDup (map name (categories c1)) ->
  NoDup (map name (categories c2)) ->
  (forall n, In n (map name (categories c1)) <-> In n (map name (categories c2))) ->
  let names := class_names_ordered_of c1 in
  let table := class_name_to_id_of names in
  StronglySorted (fun a b => String.ltb a b = true) names /\
  Permutation (map name (categories c1)) names /\
  table = combine names (seq 0 (List.length names)) /\
  class_names_ordered_of c2 = names /\
  class_name_to_id_of (class_names_ordered_of c2) = table /\
  exists d1 d2,
    coco_cat_id_to_yolo_id_of table (categories c1) = Ok d1 /\
    coco_cat_id_to_yolo_id_of (class_name_to_id_of (class_names_ordered_of c2))
      (categories c2) = Ok d2 /\
    (NoDup (map cat_id (categories c1)) ->
     NoDup (map cat_id (categories c2)) ->
     forall a b, In a (categories c1) -> In b (categories c2) ->
       name a = name b ->
       dict_get Z.eqb d1 (cat_id a) = dict_get String.eqb table (name a) /\
       dict_get Z.eqb d2 (cat_id b) = dict_get Z.eqb d1 (cat_id a)).
Proof.
  intros Hnd1 Hnd2 Hsame names table.
  assert (Hp1 : Permutation (map name (categories c1)) names)
    by apply class_names_ordered_perm.
  assert (Hndn : NoDup names) by (eapply Permutation_NoDup; eauto).
  assert (Heq : class_names_ordered_of c2 = names).
  { apply leb_sorted_unique; try apply sorted_sorted.
    rewrite <- class_names_ordered_perm. rewrite <- Hp1.
    apply NoDup_Permutation; auto. intros n. symmetry. apply Hsame. }
  split; [apply leb_sorted_strict; [apply sorted_sorted | exact Hndn]|].
  split; [exact Hp1|].
  split; [now apply class_name_to_id_table|].
  split; [exact Heq|].
  split; [now rewrite Heq|].
  destruct (cat_id_bridge table (categories c1)) as (d1 & Hd1 & Hg1).
  { intros c Hc. now apply class_table_total. }
  destruct (cat_id_bridge (class_name_to_id_of (class_names_ordered_of c2))
              (categories c2)) as (d2 & Hd2 & Hg2).
  { intros c Hc. now apply class_table_total. }
  exists d1, d2. repeat split; auto.
  - rewrite Hg1, find_last_nodup; auto.
  - rewrite Hg1, Hg2, !find_last_nodup, Heq; auto. now f_equal.
Qed.

(** The example of the specification, reordered and renumbered. *)
Lemma class_table_depends_only_on_names_example :
  let c1 := ex_coco [] in
  let c2 := {| images := []; annotations := [];
               categories := ex_categories_renumbered |} in
  NoDup (map name (categories c1))
  /\ NoDup (map name (categories c2))
  /\ (forall n, In n (map name (categories c1)) <-> In n (map name (categories c2)))
  /\ class_name_to_id_of (class_names_ordered_of c1) = [("cavity", 0); ("crown", 1)]
  /\ class_name_to_id_of (class_names_ordered_of c2) = [("cavity", 0); ("crown", 1)].
Proof.
  intros c1 c2.
  assert (H1 : NoDup (map name (categories c1)))
    by (repeat constructor; simpl; intuition discriminate).
  assert (H2 : NoDup (map name (categories c2)))
    by (repeat constructor; simpl; intuition discriminate).
  assert (H3 : forall n, In n (map name (categories c1))
                         <-> In n (map name (categories c2)))
    by (intros n; simpl; tauto).
  split; [exact H1|]. split; [exact H2|]. split; [exact H3|].
  split; [reflexivity|].
  exact (proj1 (proj2 (proj2 (proj2 (proj2
           (class_table_depends_only_on_names c1 c2 H1 H2 H3)))))).
Defined.

(** ** Doubles: rounding a nonzero magnitude above the subnormal range
    never produces a zero *)

Lemma digits2_pos_size (p : positive) : digits2_pos p = Pos.size p.
Proof. induction p; simpl; congruence. Qed.

Lemma digits2_lower (p : positive) :
  (2 ^ (Zpos (digits2_pos p) - 1) <= Zpos p)%Z.
Proof.
  rewrite digits2_pos_size.
  pose proof (Pos.size_le p) as H.
  assert (H' : (Zpos (2 ^ Pos.size p) <= Zpos p~0)%Z) by exact H.
  rewrite Pos2Z.inj_pow in H'.
  replace (Zpos (Pos.size p)) with (1 + (Zpos (Pos.size p) - 1))%Z in H' by lia.
  rewrite Z.pow_add_r in H' by lia.
  change (2 ^ 1)%Z with 2%Z in H'. lia.
Qed.

Lemma shr_1_div2 (mrs : shr_record) :
  (0 <= shr_m mrs)%Z -> shr_m (shr_1 mrs) = Z.shiftr (shr_m mrs) 1.
Proof.
  destruct mrs as [m r s]; simpl. intros Hm.
  rewrite <- Z.div2_spec.
  destruct m as [|[p|p|]|p]; simpl; try reflexivity; lia.
Qed.

Lemma shr_iter_shiftr (n : positive) : forall mrs : shr_record,
  (0 <= shr_m mrs)%Z ->
  shr_m (SpecFloat.iter_pos shr_1 n mrs) = Z.shiftr (shr_m mrs) (Zpos n).
Proof.
  induction n as [n IH|n IH|]; intros mrs Hm; simpl.
  - assert (H1 : (0 <= shr_m (shr_1 mrs))%Z)
      by (rewrite shr_1_div2 by assumption; now apply Z.shiftr_nonneg).
    assert (H2 : (0 <= shr_m (SpecFloat.iter_pos shr_1 n (shr_1 mrs)))%Z)
      by (rewrite IH by assumption; now apply Z.shiftr_nonneg).
    rewrite IH, IH, shr_1_div2 by assumption.
    rewrite !Z.shiftr_shiftr by lia. f_equal. lia.
  - assert (H2 : (0 <= shr_m (SpecFloat.iter_pos shr_1 n mrs))%Z)
      by (rewrite IH by assumption; now apply Z.shiftr_nonneg).
    rewrite IH, IH by assumption.
    rewrite !Z.shiftr_shiftr by lia. f_equal. lia.
  - now apply shr_1_div2.
Qed.

Lemma shr_record_of_loc_m (m : Z) (l : location) :
  shr_m (shr_record_of_loc m l) = m.
Proof. destruct l as [|[| |]]; reflexivity. Qed.

Lemma shr_fexp_positive (m e : Z) (l : location) :
  (0 < m)%Z -> (-1000 <= e)%Z ->
  (0 < shr_m (fst (shr_fexp prec emax m e l)))%Z
  /\ (e <= snd (shr_fexp prec emax m e l))%Z.
Proof.
  intros Hm He. destruct m as [|p|p]; try lia.
  unfold shr_fexp, shr. simpl Zdigits2.
  pose proof (digits2_lower p) as Hd.
  set (D := Zpos (digits2_pos p)) in *.
  assert (HD : (1 <= D)%Z) by (unfold D; lia).
  assert (Hn : (fexp prec emax (D + e) - e = D - 53)%Z)
    by (unfold fexp, emin, prec, emax; lia).
  rewrite Hn.
  destruct (D - 53)%Z as [|q|q] eqn:Eq; simpl;
    try (rewrite shr_record_of_loc_m; lia).
  rewrite shr_iter_shiftr by (rewrite shr_record_of_loc_m; lia).
  rewrite shr_record_of_loc_m. split; [|lia].
  rewrite Z.shiftr_div_pow2 by lia.
  apply Z.div_str_pos. split; [apply Z.pow_pos_nonneg; lia|].
  eapply Z.le_trans; [|exact Hd].
  apply Z.pow_le_mono_r; lia.
Qed.

Lemma round_nearest_even_ge (m : Z) (l : location) :
  (m <= round_nearest_even m l)%Z.
Proof.
  destruct l as [|[| |]]; simpl; try lia.
  destruct (Z.even m); lia.
Qed.

Lemma binary_round_aux_nonzero (sx : bool) (mx ex : Z) (lx : location) :
  (0 < mx)%Z -> (-1000 <= ex)%Z ->
  is_zero (binary_round_aux prec emax sx mx ex lx) = false.
Proof.
  intros Hm He. unfold binary_round_aux.
  pose proof (shr_fexp_positive mx ex lx Hm He) as [H1 H1e].
  destruct (shr_fexp prec emax mx ex lx) as [mrs' e']; simpl in H1, H1e.
  pose proof (round_nearest_even_ge (shr_m mrs') (loc_of_shr_record mrs')) as Hr.
  set (m1 := round_nearest_even (shr_m mrs') (loc_of_shr_record mrs')) in *.
  pose proof (shr_fexp_positive m1 e' loc_Exact ltac:(lia) ltac:(lia)) as [H2 _].
  destruct (shr_fexp prec emax m1 e' loc_Exact) as [mrs'' e'']; simpl in H2.
  destruct (shr_m mrs''); try lia.
  now destruct (e'' <=? emax - prec)%Z.
Qed.

(** [float(n)] of a positive int is not zero. *)
Lemma float_of_int_nonzero (n : Z) (y : spec_float) :
  (0 < n)%Z -> float_of_int n = Ok y -> is_zero y = false.
Proof.
  intros Hn. destruct n as [|p|p]; try lia.
  unfold float_of_int, binary_normalize, binary_round.
  destruct (shl_align p 0 (fexp prec emax (Zpos (digits2_pos p) + 0)))
    as [mz ez] eqn:Es.
  assert (Hez : (-1000 <= ez)%Z).
  { unfold shl_align in Es.
    destruct (fexp prec emax (Zpos (digits2_pos p) + 0) - 0)%Z eqn:Ef;
      inversion Es; subst; try lia.
    unfold fexp, emin, prec, emax. lia. }
  pose proof (binary_round_aux_nonzero false (Zpos mz) ez loc_Exact
                ltac:(lia) Hez) as Hz.
  destruct (binary_round_aux prec emax false (Zpos mz) ez loc_Exact);
    intros H; inversion H; subst; auto; discriminate.
Qed.

(** Dividing by a positive number can only fail by overflow. *)
Lemma truediv_positive (c d : pynum) (e : exn) :
  positive_num d = true -> truediv c d = Raise e -> e = OverflowError.
Proof.
  intros Hd. destruct c as [m|x], d as [n|y]; simpl in *.
  - apply Z.ltb_lt in Hd. unfold int_truediv.
    destruct (n =? 0)%Z eqn:En; [apply Z.eqb_eq in En; lia|].
    destruct (m =? 0)%Z; [discriminate|].
    destruct (SFdiv_core_binary prec emax (Z.abs m) 0 (Z.abs n) 0) as [[mz ez] lz].
    destruct (binary_round_aux prec emax _ mz ez lz); intros H;
      inversion H; reflexivity.
  - unfold float_of_int.
    destruct (binary_normalize prec emax m 0 false); simpl;
      unfold float_truediv; destruct y; simpl in *; try discriminate;
      intros H; inversion H; reflexivity.
  - apply Z.ltb_lt in Hd.
    destruct (float_of_int n) as [y|e'] eqn:Ef; simpl.
    + unfold float_truediv. now rewrite (float_of_int_nonzero n y Hd Ef).
    + unfold float_of_int in Ef.
      destruct (binary_normalize prec emax n 0 false); inversion Ef; subst.
      intros H; now inversion H.
  - unfold float_truediv. destruct y; simpl in *; discriminate.
Qed.

Lemma truediv_in_range (c d : pynum) :
  positive_num d = true -> truediv c d <> Raise OverflowError ->
  exists q, truediv c d = Ok q.
Proof.
  intros Hd Hno. destruct (truediv c d) as [q|e] eqn:E; [eauto|].
  apply truediv_positive in E; [subst; contradiction | assumption].
Qed.

(** ** Annotation loader *)

Lemma group_annotation_get (d : list (Z * list annotation)) (ann : annotation)
  (id : Z) :
  dict_get Z.eqb (group_annotation d ann) id
  = if Z.eqb (image_id ann) id
    then Some (match dict_get Z.eqb d id with Some l => l | None => [] end
               ++ [ann])%list
    else dict_get Z.eqb d id.
Proof.
  unfold group_annotation, dict_mem.
  destruct (Z.eqb (image_id ann) id) eqn:E.
  - apply Z.eqb_eq in E; subst id.
    destruct (dict_get Z.eqb d (image_id ann)) as [l|] eqn:Eg; simpl.
    + rewrite Eg. now rewrite (dict_get_set_same Z.eqb z_eqb_iff).
    + rewrite (dict_get_set_same Z.eqb z_eqb_iff).
      now rewrite (dict_get_set_same Z.eqb z_eqb_iff).
  - assert (Hne : image_id ann <> id)
      by (intros Heq; rewrite Heq, Z.eqb_refl in E; discriminate).
    destruct (dict_get Z.eqb d (image_id ann)) as [l|] eqn:Eg; simpl.
    + rewrite Eg. now rewrite (dict_get_set_other Z.eqb z_eqb_iff).
    + rewrite (dict_get_set_same Z.eqb z_eqb_iff).
      now rewrite !(dict_get_set_other Z.eqb z_eqb_iff).
Qed.

Lemma group_annotations_get (anns : list annotation) (id : Z) :
  forall d,
    dict_get Z.eqb (fold_left group_annotation anns d) id
    = match filter (fun a => Z.eqb (image_id a) id) anns with
      | [] => dict_get Z.eqb d id
      | l => Some (match dict_get Z.eqb d id with Some l0 => l0 | None => [] end
                   ++ l)%list
      end.
Proof.
  induction anns as [|a anns IH]; intros d; simpl; [reflexivity|].
  rewrite IH, group_annotation_get.
  destruct (Z.eqb (image_id a) id); [|reflexivity].
  destruct (filter (fun a0 => Z.eqb (image_id a0) id) anns) as [|b l].
  - reflexivity.
  - now rewrite <- app_assoc.
Qed.

(** The grouped dictionary holds, for an image id, its annotations in
    input order, and has no key for an image without annotations. *)
Lemma annotations_by_image_id_get (c : coco) (id : Z) :
  dict_get Z.eqb (annotations_by_image_id_of c) id
  = match filter (fun a => Z.eqb (image_id a) id) (annotations c) with
    | [] => None
    | l => Some l
    end.
Proof.
  unfold annotations_by_image_id_of. rewrite group_annotations_get. reflexivity.
Qed.

Lemma find_image_id_key (images_info : list (Z * image)) (f : string) (id : Z) :
  find_image_id images_info f = Some id ->
  exists info, dict_get Z.eqb images_info id = Some info.
Proof.
  induction images_info as [|[k info] rest IH]; simpl; [discriminate|].
  destruct (String.eqb (file_name info) f).
  - intros H; inversion H; subst. rewrite Z.eqb_refl. eauto.
  - intros H. destruct (Z.eqb k id); eauto.
Qed.

Lemma label_loop_none_qualify (w h : pynum) (m : list (Z * nat))
  (anns : list annotation) (acc : list string) :
  filter (qualifies m) anns = [] -> label_loop w h m anns acc = Ok acc.
Proof.
  induction anns as [|a anns IH]; simpl; [reflexivity|].
  unfold qualifies at 1, dict_mem.
  destruct (dict_get Z.eqb m (category_id a)); [discriminate|]. exact IH.
Qed.

(** ** Label encoder *)

Lemma list_pair_ind {A : Type} (P : list A -> Prop) :
  P [] -> (forall x, P [x]) -> (forall x y l, P l -> P (x :: y :: l)) ->
  forall l, P l.
Proof.
  intros H0 H1 H2 l.
  enough (P l /\ forall a, P (a :: l)) by tauto.
  induction l as [|b l [IH1 IH2]]; split; auto.
Qed.

Lemma even_index_step (s : nat) :
  (s mod 2 =? 0)%nat = true ->
  (S s mod 2 =? 0)%nat = false /\ (S (S s) mod 2 =? 0)%nat = true.
Proof.
  rewrite !Nat.eqb_eq, Nat.eqb_neq.
  intros H. replace (S (S s)) with (s + 1 * 2) by lia.
  rewrite Nat.Div0.mod_add. split; [|assumption].
  replace (S s) with (1 + s) by lia.
  rewrite <- Nat.Div0.add_mod_idemp_r, H. simpl. lia.
Qed.

Lemma normalized_points_from (w h : pynum) (ring : list pynum) :
  positive_num w = true -> positive_num h = true ->
  ring_in_range w h ring ->
  forall s, (s mod 2 =? 0)%nat = true ->
  exists pts,
    comprehension
      (fun '(i, coord) => truediv coord (if (i mod 2 =? 0)%nat then w else h))
      (enumerate_from s ring) = Ok pts
    /\ map format_6f pts = ring_points w h ring.
Proof.
  intros Hw Hh. induction ring as [|x|x y ring IH] using list_pair_ind;
    intros Hr s Hs.
  - exists []. auto.
  - destruct (truediv_in_range x w Hw Hr) as [q Hq].
    exists [q]. cbn [enumerate_from comprehension]. rewrite Hs, Hq.
    cbn [bind map ring_points]. unfold quotient. now rewrite Hq.
  - destruct (even_index_step s Hs) as [Hs1 Hs2].
    destruct Hr as (Hx & Hy & Hrest).
    destruct (truediv_in_range x w Hw Hx) as [q Hq].
    destruct (truediv_in_range y h Hh Hy) as [r Hr'].
    destruct (IH Hrest (S (S s)) Hs2) as (pts & Hpts & Hfmt).
    exists (q :: r :: pts). cbn [enumerate_from comprehension].
    rewrite Hs, Hs1, Hq, Hr'. cbn [bind]. rewrite Hpts.
    cbn [bind map ring_points]. unfold quotient at 1 2. rewrite Hq, Hr'.
    now rewrite Hfmt.
Qed.

Lemma normalized_points_spec (w h : pynum) (ring : list pynum) :
  positive_num w = true -> positive_num h = true ->
  ring_in_range w h ring ->
  exists pts, normalized_points w h ring = Ok pts
              /\ map format_6f pts = ring_points w h ring.
Proof.
  intros Hw Hh Hr. now apply normalized_points_from.
Qed.

Lemma label_loop_acc (img : image) (m : list (Z * nat))
  (anns : list annotation) :
  positive_num (width img) = true -> positive_num (height img) = true ->
  (forall a, In a anns -> qualifies m a = true -> encodable img a) ->
  forall acc,
    label_loop (width img) (height img) m anns acc
    = Ok (acc ++ map (yolo_line img m) (filter (qualifies m) anns))%list.
Proof.
  intros Hw Hh. induction anns as [|a anns IH]; intros Hall acc; simpl.
  - now rewrite app_nil_r.
  - unfold qualifies at 1, dict_mem.
    destruct (dict_get Z.eqb m (category_id a)) as [cls|] eqn:Eg.
    + destruct (Hall a) as (ring & rest & Hseg & Hrange);
        [now left | unfold qualifies, dict_mem; now rewrite Eg |].
      unfold first_ring. rewrite Hseg. simpl.
      destruct (normalized_points_spec _ _ ring Hw Hh Hrange) as (pts & Hp & Hf).
      rewrite Hp. simpl. rewrite IH by (intros; apply Hall; auto; now right).
      rewrite <- app_assoc. simpl. unfold yolo_line at 2.
      now rewrite Eg, Hseg, Hf.
    + apply IH. intros; apply Hall; auto. now right.
Qed.

(** C1 (as amended).  For an image of positive width and height on which
    every annotation whose category id is in the map has a first ring and
    no division leaves the double range, the encoder emits, for those
    annotations taken in input order, exactly the lines
    [<class_index> <x1> <y1> ... <xn> <yn>] built from the first ring, x
    coordinates over the width and y coordinates over the height, six
    decimals each, one line per such annotation. *)
Theorem label_encoder_lines (c : coco) (img : image) (m : list (Z * nat))
  (id : Z) :
  positive_num (width img) = true ->
  positive_num (height img) = true ->
  let on_image := filter (fun a => Z.eqb (image_id a) id) (annotations c) in
  (forall a, In a on_image -> qualifies m a = true -> encodable img a) ->
  let lines := map (yolo_line img m) (filter (qualifies m) on_image) in
  label_lines img (annotations_by_image_id_of c) m id = Ok lines
  /\ List.length lines = List.length (filter (qualifies m) on_image).
Proof.
  intros Hw Hh on_image Hall lines. split; [|apply length_map].
  unfold label_lines, dict_mem. rewrite annotations_by_image_id_get.
  fold on_image. subst lines. destruct on_image as [|a l]; [reflexivity|].
  now rewrite label_loop_acc.
Qed.

(** The example of the specification: category 7 ("crown", class 1) with
    the ring [0,0,100,0,100,100,0,100] on a 200 x 100 image. *)
Lemma label_encoder_lines_example :
  coco_cat_id_to_yolo_id_of
    (class_name_to_id_of (sorted (map name ex_categories))) ex_categories
  = Ok ex_map
  /\ positive_num (width ex_image) = true
  /\ positive_num (height ex_image) = true
  /\ label_lines ex_image
       (annotations_by_image_id_of (ex_coco [ex_unmapped; ex_annotation]))
       ex_map 1
     = Ok ["1 0.000000 0.000000 0.500000 0.000000 0.500000 1.000000 0.000000 1.000000"].
Proof.
  split; [reflexivity|]. split; [reflexivity|]. split; [reflexivity|].
  refine (proj1 (label_encoder_lines (ex_coco [ex_unmapped; ex_annotation])
                   ex_image ex_map 1 eq_refl eq_refl _)).
  intros a [<- | [<- | []]] Hq; [discriminate Hq|].
  eexists; exists []. split; [reflexivity|].
  cbn [ring_in_range width height ex_image].
  repeat split; vm_compute; discriminate.
Defined.

(** C1 as stated fails: an annotation of a mapped category with an empty
    segmentation, or with a coordinate beyond the double range, yields an
    exception and no line; and then the image gets no line for its other
    annotations either, the one of the specification's example
    included. *)
Lemma label_encoder_lines_counterexample :
  positive_num (width ex_image) = true
  /\ positive_num (height ex_image) = true
  /\ qualifies ex_map ex_no_ring = true
  /\ label_lines ex_image (annotations_by_image_id_of (ex_coco [ex_no_ring]))
       ex_map 1
     = Raise IndexError
  /\ qualifies ex_map ex_huge = true
  /\ label_lines ex_image (annotations_by_image_id_of (ex_coco [ex_huge]))
       ex_map 1
     = Raise OverflowError
  /\ qualifies ex_map ex_annotation = true
  /\ label_lines ex_image
       (annotations_by_image_id_of (ex_coco [ex_annotation; ex_no_ring]))
       ex_map 1
     = Raise IndexError.
Proof. repeat split; vm_compute; reflexivity. Qed.

Lemma label_loop_app (w h : pynum) (m : list (Z * nat))
  (pre post : list annotation) (acc : list string) :
  label_loop w h m (pre ++ post)%list acc
  = do acc' <- label_loop w h m pre acc; label_loop w h m post acc'.
Proof.
  revert acc; induction pre as [|a pre IH]; intros acc; simpl; [reflexivity|].
  destruct (dict_get Z.eqb m (category_id a)); [|apply IH].
  destruct (first_ring a) as [ring|e]; simpl; [|reflexivity].
  destruct (normalized_points w h ring) as [pts|e]; simpl; [|reflexivity].
  apply IH.
Qed.

(** C8.  An annotation whose category id is not a key of the map adds no
    line and raises nothing, wherever it stands among the annotations of
    the image: the encoder behaves as if it were not there. *)
Theorem label_loop_skips_unmapped (w h : pynum) (m : list (Z * nat))
  (a : annotation) (pre post : list annotation) (acc : list string) :
  qualifies m a = false ->
  label_loop w h m (pre ++ a :: post)%list acc
  = label_loop w h m (pre ++ post)%list acc.
Proof.
  intros Hq. rewrite !label_loop_app.
  destruct (label_loop w h m pre acc) as [acc'|e]; simpl; [|reflexivity].
  unfold qualifies, dict_mem in Hq.
  now destruct (dict_get Z.eqb m (category_id a)).
Qed.

Lemma label_loop_skips_unmapped_example :
  qualifies ex_map ex_unmapped = false
  /\ label_loop (width ex_image) (height ex_image) ex_map
       ([ex_annotation] ++ ex_unmapped :: [ex_annotation])%list []
     = label_loop (width ex_image) (height ex_image) ex_map
         ([ex_annotation] ++ [ex_annotation])%list [].
Proof.
  split; [reflexivity|].
  apply (label_loop_skips_unmapped _ _ ex_map ex_unmapped). reflexivity.
Defined.

(** ** Six-decimal rounding *)

(** Division and formatting on inputs whose Python results are known. *)

Example format_one_third :
  format_6f (quotient (PyInt 1) (PyInt 3)) = "0.333333".
Proof. reflexivity. Qed.

Example format_large_quotient :
  format_6f (quotient (PyInt 12345678) (PyInt 7)) = "1763668.285714".
Proof. reflexivity. Qed.

(** Decimal ties are decided by the double: 2.5e-06 lies above the tie
    and 5e-07 below it. *)
Example format_near_ties :
  map (fun n => format_6f (quotient (PyInt n) (PyInt 2000000))) [1; 3; 5; 7]%Z
  = ["0.000000"; "0.000002"; "0.000003"; "0.000003"].
Proof. reflexivity. Qed.

Example format_negative_underflow :
  format_6f (quotient (PyInt (-1)) (PyInt 3000000000)) = "-0.000000".
Proof. reflexivity. Qed.

Example format_not_finite :
  map format_6f [S754_infinity false; S754_infinity true; S754_nan]
  = ["inf"; "-inf"; "nan"].
Proof. reflexivity. Qed.

Example truediv_by_zero :
  truediv (PyInt 1) (PyInt 0) = Raise ZeroDivisionError
  /\ truediv (PyFloat (S754_zero false)) (PyFloat (S754_zero true))
     = Raise ZeroDivisionError.
Proof. split; reflexivity. Qed.

Example truediv_int_too_large :
  truediv (PyFloat (S754_zero false)) (PyInt (2 ^ 1024)) = Raise OverflowError.
Proof. vm_compute. reflexivity. Qed.

Lemma round_half_even_error (num den : Z) :
  (0 < den)%Z ->
  (2 * Z.abs (round_half_even num den * den - num) <= den)%Z.
Proof.
  intros Hden. unfold round_half_even.
  pose proof (Z.div_mod num den ltac:(lia)) as Hdm.
  pose proof (Z.mod_pos_bound num den Hden) as Hr.
  destruct (2 * (num mod den) ?= den)%Z eqn:E.
  - apply Z.compare_eq in E. destruct (Z.even (num / den)); nia.
  - rewrite Z.compare_lt_iff in E. nia.
  - rewrite Z.compare_gt_iff in E. nia.
Qed.

Lemma round_half_even_floor (num den : Z) :
  (0 < den)%Z -> (num / den <= round_half_even num den)%Z.
Proof.
  intros _. unfold round_half_even.
  destruct (2 * (num mod den) ?= den)%Z; [destruct (Z.even (num / den))| |]; lia.
Qed.

Lemma micro_units_error (m : positive) (e : Z) :
  (Qabs (printed_value (micro_units m e) - float_value m e) <= 1 # 2000000)%Q.
Proof.
  apply Qabs_Qle_condition. unfold printed_value, float_value, micro_units.
  destruct e as [|p|p];
    unfold Qle, Qminus, Qplus, Qopp, inject_Z; cbn [Qnum Qden];
    rewrite ?Pos2Z.inj_mul, ?Pos2Z.inj_pow.
  - lia.
  - set (D := (2 ^ Zpos p)%Z). lia.
  - pose proof (round_half_even_error (Zpos m * 1000000) (2 ^ Zpos p)
                  ltac:(apply Z.pow_pos_nonneg; lia)) as H.
    set (D := (2 ^ Zpos p)%Z) in *.
    assert (0 < D)%Z by (apply Z.pow_pos_nonneg; lia).
    split; nia.
Qed.

Lemma micro_units_above_one (m : positive) (e : Z) :
  (1 <= float_value m e)%Q -> (1000000 <= micro_units m e)%Z.
Proof.
  unfold float_value, micro_units. destruct e as [|p|p];
    unfold Qle, inject_Z; cbn [Qnum Qden]; rewrite ?Pos2Z.inj_pow; intros H.
  - lia.
  - assert (0 < 2 ^ Zpos p)%Z by (apply Z.pow_pos_nonneg; lia). nia.
  - assert (HD : (0 < 2 ^ Zpos p)%Z) by (apply Z.pow_pos_nonneg; lia).
    eapply Z.le_trans; [|apply round_half_even_floor; exact HD].
    apply Z.div_le_lower_bound; [exact HD|]. nia.
Qed.

(** ** Paths *)

Lemma path_eqb_refl (p : path) : path_eqb p p = true.
Proof. induction p as [|a p IH]; simpl; [reflexivity|]. now rewrite String.eqb_refl. Qed.

Lemma path_eqb_eq (p q : path) : path_eqb p q = true <-> p = q.
Proof.
  split; [|intros ->; apply path_eqb_refl].
  revert q; induction p as [|a p IH]; intros [|b q]; simpl; try discriminate; auto.
  rewrite andb_true_iff, String.eqb_eq. intros [-> H]. f_equal. auto.
Qed.

Lemma path_eqb_neq (p q : path) : p <> q -> path_eqb p q = false.
Proof.
  intros H. destruct (path_eqb p q) eqn:E; [|reflexivity].
  now apply path_eqb_eq in E.
Qed.

Lemma update_same (d : fs) (p : path) (n : node) : update d p n p = Some n.
Proof. unfold update. now rewrite path_eqb_refl. Qed.

Lemma update_other (d : fs) (p q : path) (n : node) :
  p <> q -> update d p n q = d q.
Proof. intros H. unfold update. now rewrite path_eqb_neq. Qed.

(** ** The io monad *)

Lemma io_bind_ok {A B : Type} (c : io A) (k : A -> io B) (w w' : world) (a : A) :
  c w = (w', Ok a) -> io_bind c k w = k a w'.
Proof. intros H. unfold io_bind. now rewrite H. Qed.

Lemma copy_file (src dst : path) (w : world) (content : string) :
  disk w src = Some (File content) ->
  exists target,
    copy src dst w
    = ({| disk := update (disk w) target (File content); console := console w |},
       Ok tt)
    /\ (target = dst \/ target = dst // last src "").
Proof.
  intros H. unfold copy. rewrite H.
  destruct (disk w dst) as [[|]|]; eauto.
Qed.

(** ** Per-image step *)

(** C5.  A file name that matches no image record, or whose source file
    is missing on disk, leaves the world as it is (no copy, no label file,
    nothing printed), raises nothing, and the loop over the split goes on
    with the file names that follow. *)
Theorem unresolved_image_is_skipped (base_path : path)
  (images_info : list (Z * image))
  (annotations_by_image_id : list (Z * list annotation))
  (coco_cat_id_to_yolo_id : list (Z * nat))
  (output_base_path : path) (split_name image_filename : string)
  (rest : list string) (w : world) :
  find_image_id images_info image_filename = None
  \/ disk w (base_path // image_filename) = None ->
  let step :=
    process_image base_path images_info annotations_by_image_id
      coco_cat_id_to_yolo_id output_base_path split_name in
  step image_filename w = (w, Ok tt)
  /\ for_each (image_filename :: rest) step w = for_each rest step w.
Proof.
  intros H step.
  assert (Hstep : step image_filename w = (w, Ok tt)).
  { unfold step, process_image.
    destruct (find_image_id images_info image_filename) as [id|];
      [|reflexivity].
    destruct H as [H|H]; [discriminate|].
    unfold io_bind, path_exists. now rewrite H. }
  split; [exact Hstep|].
  simpl. unfold io_bind. now rewrite Hstep.
Qed.

Lemma unresolved_image_is_skipped_example :
  (find_image_id (images_info_of (ex_coco [])) "absent.png" = None
   \/ disk ex_world (ex_base // "absent.png") = None)
  /\ process_image ex_base (images_info_of (ex_coco [])) [] ex_map
       (ex_base // "OUT") "val" "absent.png" ex_world
     = (ex_world, Ok tt).
Proof.
  split; [left; reflexivity|].
  apply (unresolved_image_is_skipped ex_base (images_info_of (ex_coco [])) []
           ex_map (ex_base // "OUT") "val" "absent.png" [] ex_world).
  left; reflexivity.
Defined.

(** C4.  For a plain file name resolved to an image whose source is a
    regular file on disk, in a split whose [images/] and [labels/]
    directories are there, neither destination being a directory: when no
    annotation of that image has a category id in the map (there may be
    none at all), the step raises nothing and leaves an empty label file
    [labels/<split>/<stem>.txt]. *)
Theorem unannotated_image_gets_empty_label (c : coco) (base_path : path)
  (coco_cat_id_to_yolo_id : list (Z * nat))
  (output_base_path : path) (split_name image_filename : string)
  (w : world) (id : Z) (content : string) :
  let image_path :=
    output_base_path // "images" // split_name // image_filename in
  let label_path :=
    output_base_path // "labels" // split_name
      // (stem image_filename ++ ".txt") in
  plain_name split_name = true ->
  plain_name image_filename = true ->
  find_image_id (images_info_of c) image_filename = Some id ->
  disk w (base_path // image_filename) = Some (File content) ->
  disk w (output_base_path // "images" // split_name) = Some Dir ->
  disk w (output_base_path // "labels" // split_name) = Some Dir ->
  base_path // image_filename <> image_path ->
  disk w image_path <> Some Dir ->
  disk w label_path <> Some Dir ->
  filter (qualifies coco_cat_id_to_yolo_id)
    (filter (fun a => Z.eqb (image_id a) id) (annotations c)) = [] ->
  let r :=
    process_image base_path (images_info_of c) (annotations_by_image_id_of c)
      coco_cat_id_to_yolo_id output_base_path split_name image_filename w in
  snd r = Ok tt
  /\ disk (fst r) image_path = Some (File content)
  /\ disk (fst r) label_path = Some (File "").
Proof.
  intros image_path label_path _ _ Hfind Hsrc _ _ _ Hdst _ Hnone r. subst r.
  destruct (find_image_id_key _ _ _ Hfind) as [info Hinfo].
  assert (Hlines : label_lines info (annotations_by_image_id_of c)
                     coco_cat_id_to_yolo_id id = Ok []).
  { unfold label_lines, dict_mem. rewrite annotations_by_image_id_get.
    destruct (filter (fun a => Z.eqb (image_id a) id) (annotations c)) as [|a l];
      [reflexivity|].
    now apply label_loop_none_qualify. }
  unfold process_image. rewrite Hfind.
  rewrite (io_bind_ok _ _ w w true) by (unfold path_exists; now rewrite Hsrc).
  assert (Hcopy : copy (base_path // image_filename) image_path w
                  = ({| disk := update (disk w) image_path (File content);
                        console := console w |}, Ok tt)).
  { unfold copy. rewrite Hsrc.
    destruct (disk w image_path) as [[|]|]; try reflexivity.
    now contradiction Hdst. }
  fold image_path. rewrite (io_bind_ok _ _ _ _ _ Hcopy).
  rewrite (io_bind_ok _ _ _ _ info) by (unfold lift; now rewrite Hinfo).
  rewrite (io_bind_ok _ _ _ _ []) by (unfold lift; now rewrite Hlines).
  unfold write_text. cbn [fst snd disk]. fold label_path.
  split; [reflexivity|]. split; [|apply update_same].
  rewrite update_other; [apply update_same|].
  unfold label_path, image_path, child. rewrite <- !app_assoc. intros H.
  apply app_inv_head in H. discriminate H.
Qed.

Lemma unannotated_image_gets_empty_label_example :
  let c := ex_coco [ex_unmapped] in
  let out := ex_base // "OUT" in
  plain_name "train" = true
  /\ plain_name "tooth.png" = true
  /\ find_image_id (images_info_of c) "tooth.png" = Some 1%Z
  /\ disk ex_world_ready (ex_base // "tooth.png") = Some (File "PNG")
  /\ disk ex_world_ready (out // "images" // "train") = Some Dir
  /\ disk ex_world_ready (out // "labels" // "train") = Some Dir
  /\ disk ex_world_ready (out // "images" // "train" // "tooth.png") = None
  /\ disk ex_world_ready (out // "labels" // "train" // "tooth.txt") = None
  /\ filter (qualifies ex_map)
       (filter (fun a => Z.eqb (image_id a) 1) (annotations c)) = []
  /\ disk (fst (process_image ex_base (images_info_of c)
                  (annotations_by_image_id_of c) ex_map out "train"
                  "tooth.png" ex_world_ready))
       (out // "labels" // "train" // "tooth.txt")
     = Some (File "").
Proof.
  intros c out.
  assert (Hi : disk ex_world_ready (out // "images" // "train" // "tooth.png")
               = None) by reflexivity.
  assert (Hl : disk ex_world_ready (out // "labels" // "train" // "tooth.txt")
               = None) by reflexivity.
  split; [reflexivity|]. split; [reflexivity|]. split; [reflexivity|].
  split; [reflexivity|]. split; [reflexivity|]. split; [reflexivity|].
  split; [exact Hi|]. split; [exact Hl|]. split; [reflexivity|].
  refine (proj2 (proj2
            (unannotated_image_gets_empty_label c ex_base ex_map out "train"
               "tooth.png" ex_world_ready 1%Z "PNG" eq_refl eq_refl eq_refl
               eq_refl eq_refl eq_refl _ _ _ eq_refl))).
  - discriminate.
  - rewrite Hi. discriminate.
  - change (stem "tooth.png" ++ ".txt") with "tooth.txt". rewrite Hl.
    discriminate.
Defined.

(** ** Prefixes *)

Lemma is_prefix_app_same (p a b : path) :
  is_prefix (p ++ a)%list (p ++ b)%list = is_prefix a b.
Proof.
  induction p as [|x p IH]; simpl; [reflexivity|].
  now rewrite String.eqb_refl.
Qed.

Lemma is_prefix_app (p r : path) : is_prefix p (p ++ r)%list = true.
Proof.
  rewrite <- (app_nil_r p) at 1. now rewrite is_prefix_app_same.
Qed.

Lemma is_prefix_split (p q : path) :
  is_prefix p q = true -> exists r, q = (p ++ r)%list.
Proof.
  revert q; induction p as [|a p IH]; intros q; simpl; [eauto|].
  destruct q as [|b q]; [discriminate|].
  rewrite andb_true_iff, String.eqb_eq. intros [-> H].
  destruct (IH q H) as [r ->]. eauto.
Qed.

(** A path outside [p] is a prefix of something under [p] only by being
    a prefix of [p]. *)
Lemma is_prefix_outside (p q r : path) :
  is_prefix p q = false -> is_prefix q (p ++ r)%list = is_prefix q p.
Proof.
  revert q; induction p as [|a p IH]; intros q; simpl; [discriminate|].
  destruct q as [|b q]; [reflexivity|]. simpl.
  rewrite (String.eqb_sym b a).
  destruct (String.eqb a b); simpl; [apply IH | reflexivity].
Qed.

(** ** The skeleton *)

Lemma with_dir_file (p : path) (d : fs) (q : path) (content : string) :
  with_dir p d q = Some (File content) -> d q = Some (File content).
Proof.
  unfold with_dir. destruct (is_prefix q p); [|auto].
  destruct (d q); [auto | discriminate].
Qed.

Lemma cleared_file (out : path) (d : fs) (q : path) (content : string) :
  cleared out d q = Some (File content) -> d q = Some (File content).
Proof.
  unfold cleared. destruct (d out); [|auto].
  destruct (is_prefix out q); [discriminate | auto].
Qed.

(** Recreating the skeleton writes no file. *)
Lemma skeleton_disk_file (out : path) (d : fs) (q : path) (content : string) :
  skeleton_disk out d q = Some (File content) -> d q = Some (File content).
Proof.
  unfold skeleton_disk, splits. cbn [fold_left]. intros H.
  repeat apply with_dir_file in H. now apply cleared_file in H.
Qed.

Lemma cleared_under (out : path) (d : fs) (r : path) :
  absent_is_empty d out -> cleared out d (out ++ r)%list = None.
Proof.
  intros H. unfold cleared. destruct (d out) eqn:E.
  - now rewrite is_prefix_app.
  - now apply H.
Qed.

(** Below [out], the recreated disk is the empty skeleton. *)
Lemma skeleton_disk_under (out : path) (d : fs) :
  absent_is_empty d out -> empty_tree out (skeleton_disk out d).
Proof.
  intros H r. unfold skeleton_disk, splits. cbn [fold_left].
  unfold with_dir, child. rewrite <- !app_assoc. cbn [app].
  rewrite !is_prefix_app_same.
  rewrite (cleared_under out d r H).
  unfold skeleton_dirs.
  destruct r as [|a [|b [|c r]]]; cbn [app is_prefix existsb path_eqb andb orb].
  - reflexivity.
  - rewrite !andb_true_r.
    destruct (String.eqb a "images"), (String.eqb a "labels"); reflexivity.
  - rewrite !andb_true_r, !andb_false_r.
    destruct (String.eqb a "images"), (String.eqb a "labels"),
      (String.eqb b "train"), (String.eqb b "val"), (String.eqb b "test");
      reflexivity.
  - rewrite !andb_false_r. reflexivity.
Qed.

(** Outside [out], recreating the skeleton only creates missing
    ancestors of [out]. *)
Lemma skeleton_disk_outside (out : path) (d : fs) (q : path) :
  is_prefix out q = false ->
  skeleton_disk out d q
  = if is_prefix q out
    then match d q with None => Some Dir | Some n => Some n end
    else d q.
Proof.
  intros H. unfold skeleton_disk, splits. cbn [fold_left].
  unfold with_dir, child. rewrite <- !app_assoc. cbn [app].
  rewrite !(is_prefix_outside out q _ H).
  assert (Hc : cleared out d q = d q)
    by (unfold cleared; destruct (d out); [now rewrite H | reflexivity]).
  rewrite Hc. destruct (is_prefix q out); [|reflexivity].
  now destruct (d q).
Qed.

(** ** Computations that respect and frame the disk *)

Lemma respects_ret {A : Type} (a : A) : respects (io_ret a).
Proof. intros x y H. split; [exact H | reflexivity]. Qed.

Lemma respects_lift {A : Type} (r : result A) : respects (lift r).
Proof. intros x y H. split; [exact H | reflexivity]. Qed.

Lemma respects_bind {A B : Type} (c : io A) (k : A -> io B) :
  respects c -> (forall a, respects (k a)) -> respects (io_bind c k).
Proof.
  intros Hc Hk x y H. destruct (Hc x y H) as [Hs Hr]. unfold io_bind.
  destruct (c x) as [x' rx], (c y) as [y' ry]. simpl in Hs, Hr. subst ry.
  destruct rx as [a|e]; [now apply Hk | split; [exact Hs | reflexivity]].
Qed.

Lemma respects_for_each {A : Type} (l : list A) (body : A -> io unit) :
  (forall a, respects (body a)) -> respects (for_each l body).
Proof.
  intros Hb. induction l as [|a l IH]; simpl.
  - apply respects_ret.
  - apply respects_bind; auto.
Qed.

Lemma respects_print (s : string) : respects (print s).
Proof. intros x y H. split; [exact H | reflexivity]. Qed.

Lemma respects_path_exists (p : path) : respects (path_exists p).
Proof.
  intros x y H. split; [exact H|]. unfold path_exists. simpl. now rewrite (H p).
Qed.

Lemma respects_write_text (p : path) (s : string) : respects (write_text p s).
Proof.
  intros x y H. split; [|reflexivity]. intros q. simpl. unfold update.
  now rewrite (H q).
Qed.

Lemma respects_copy (src dst : path) : respects (copy src dst).
Proof.
  intros x y H. unfold copy. rewrite (H src), (H dst).
  destruct (disk y src) as [[content|]|]; simpl; auto.
  split; [|reflexivity]. intros q. simpl. unfold update. now rewrite (H q).
Qed.

Lemma frames_ret {A : Type} (out : path) (a : A) : frames out (io_ret a).
Proof. intros w q _. reflexivity. Qed.

Lemma frames_lift {A : Type} (out : path) (r : result A) : frames out (lift r).
Proof. intros w q _. reflexivity. Qed.

Lemma frames_bind {A B : Type} (out : path) (c : io A) (k : A -> io B) :
  frames out c -> (forall a, frames out (k a)) -> frames out (io_bind c k).
Proof.
  intros Hc Hk w q Hq. specialize (Hc w q Hq). unfold io_bind.
  destruct (c w) as [w' r]. simpl in Hc.
  destruct r as [a|e]; simpl; [|exact Hc].
  now rewrite (Hk a w' q Hq).
Qed.

Lemma frames_for_each {A : Type} (out : path) (l : list A) (body : A -> io unit) :
  (forall a, frames out (body a)) -> frames out (for_each l body).
Proof.
  intros Hb. induction l as [|a l IH]; simpl.
  - apply frames_ret.
  - apply frames_bind; auto.
Qed.

Lemma frames_print (out : path) (s : string) : frames out (print s).
Proof. intros w q _. reflexivity. Qed.

Lemma frames_path_exists (out p : path) : frames out (path_exists p).
Proof. intros w q _. reflexivity. Qed.

Lemma frames_write_text (out : path) (x : string) (r : path) (s : string) :
  frames out (write_text (out ++ x :: r)%list s).
Proof.
  intros w q Hq. simpl. apply update_other. intros <-. now apply (Hq x r).
Qed.

Lemma frames_copy (out src : path) (x : string) (r : path) :
  frames out (copy src (out ++ x :: r)%list).
Proof.
  intros w q Hq. unfold copy.
  destruct (disk w src) as [[content|]|]; simpl; try reflexivity.
  apply update_other. intros <-.
  destruct (disk w (out ++ x :: r)%list) as [[|]|]; try now apply (Hq x r).
  apply (Hq x (r ++ [last src ""])%list). unfold child.
  now rewrite <- app_assoc.
Qed.

Section Materialize.
Variable base_path : path.
Variable images_info : list (Z * image).
Variable annotations_by_image_id : list (Z * list annotation).
Variable coco_cat_id_to_yolo_id : list (Z * nat).
Variable class_names_ordered : list string.
Variable split_info : split_manifest.

Local Abbreviation step out split :=
  (process_image base_path images_info annotations_by_image_id
     coco_cat_id_to_yolo_id out split).
Local Abbreviation tail :=
  (fold_tail base_path images_info annotations_by_image_id
     coco_cat_id_to_yolo_id class_names_ordered split_info).

Lemma process_image_respects (out : path) (split f : string) :
  respects (step out split f).
Proof.
  unfold process_image.
  destruct (find_image_id images_info f); [|apply respects_ret].
  apply respects_bind; [apply respects_path_exists|].
  intros [|]; [|apply respects_ret].
  apply respects_bind; [apply respects_copy | intros _].
  apply respects_bind; [apply respects_lift | intros info].
  apply respects_bind; [apply respects_lift | intros lines].
  apply respects_write_text.
Qed.

Lemma process_image_frames (out : path) (split f : string) :
  frames out (step out split f).
Proof.
  unfold process_image.
  destruct (find_image_id images_info f); [|apply frames_ret].
  apply frames_bind; [apply frames_path_exists|].
  intros [|]; [|apply frames_ret].
  unfold child. rewrite <- !app_assoc. cbn [app].
  apply frames_bind; [apply frames_copy | intros _].
  apply frames_bind; [apply frames_lift | intros info].
  apply frames_bind; [apply frames_lift | intros lines].
  apply frames_write_text.
Qed.

Lemma fold_tail_respects (i : nat) : respects (tail i).
Proof.
  unfold fold_tail.
  destruct (dict_get String.eqb split_info (fold_name_of i)) as [[|e l]|];
    try apply respects_print.
  unfold materialize.
  apply respects_bind; [|intros _; apply respects_bind;
                          [apply respects_write_text
                          |intros _; apply respects_print]].
  apply respects_for_each. intros [split files]. unfold process_split.
  apply respects_bind; [apply respects_print | intros _].
  apply respects_for_each. intros f. apply process_image_respects.
Qed.

Lemma fold_tail_frames (i : nat) :
  frames (output_base_path_of base_path (fold_name_of i)) (tail i).
Proof.
  unfold fold_tail.
  destruct (dict_get String.eqb split_info (fold_name_of i)) as [[|e l]|];
    try apply frames_print.
  unfold materialize.
  apply frames_bind; [|intros _; apply frames_bind;
                        [apply frames_write_text
                        |intros _; apply frames_print]].
  apply frames_for_each. intros [split files]. unfold process_split.
  apply frames_bind; [apply frames_print | intros _].
  apply frames_for_each. intros f. apply process_image_frames.
Qed.

(** A fold is its prologue followed by its tail. *)
Lemma process_fold_decompose (i : nat) (w : world) :
  process_fold base_path images_info annotations_by_image_id
    coco_cat_id_to_yolo_id class_names_ordered split_info i w
  = tail i (prepared base_path i w).
Proof.
  unfold process_fold, fold_tail, prepared. cbv zeta.
  erewrite io_bind_ok by reflexivity.
  erewrite io_bind_ok by reflexivity.
  erewrite io_bind_ok by reflexivity.
  cbn [disk console].
  assert (Hsk : forall w0,
             make_skeleton (output_base_path_of base_path (fold_name_of i)) w0
             = ({| disk := fold_left
                             (fun d split =>
                                with_dir (output_base_path_of base_path (fold_name_of i)
                                            // "labels" // split)
                                  (with_dir (output_base_path_of base_path (fold_name_of i)
                                               // "images" // split) d))
                             splits (disk w0);
                   console := console w0 |}, Ok tt))
    by (intros w0; reflexivity).
  unfold skeleton_disk, cleared, fold_banner.
  destruct (disk w (output_base_path_of base_path (fold_name_of i))).
  all: erewrite io_bind_ok by reflexivity;
    rewrite (io_bind_ok _ _ _ _ _ (Hsk _)); cbn [disk console];
    rewrite <- !app_assoc; reflexivity.
Qed.
End Materialize.

(** What a fold leaves when the manifest lacks it or maps it to nothing. *)
Lemma process_fold_absent (base_path : path) (images_info : list (Z * image))
  (annotations_by_image_id : list (Z * list annotation))
  (coco_cat_id_to_yolo_id : list (Z * nat)) (class_names_ordered : list string)
  (split_info : split_manifest) (i : nat) (w : world) :
  dict_get String.eqb split_info (fold_name_of i) = None
  \/ dict_get String.eqb split_info (fold_name_of i) = Some [] ->
  process_fold base_path images_info annotations_by_image_id
    coco_cat_id_to_yolo_id class_names_ordered split_info i w
  = ({| disk := skeleton_disk (output_base_path_of base_path (fold_name_of i))
                  (disk w);
        console := (console w ++ fold_banner base_path i
                      ++ [fold_missing_report i])%list |}, Ok tt).
Proof.
  intros H. rewrite process_fold_decompose. unfold fold_tail, prepared.
  destruct H as [-> | ->]; unfold print; cbn [disk console];
    now rewrite <- app_assoc.
Qed.

(** ** Folds that the manifest lacks *)

Section MissingFold.
Variable base_path : path.
Variable images_info : list (Z * image).
Variable annotations_by_image_id : list (Z * list annotation).
Variable coco_cat_id_to_yolo_id : list (Z * nat).
Variable class_names_ordered : list string.
Variable split_info : split_manifest.

Local Abbreviation run_fold :=
  (process_fold base_path images_info annotations_by_image_id
     coco_cat_id_to_yolo_id class_names_ordered split_info).
Local Abbreviation run_folds :=
  (process_folds base_path images_info annotations_by_image_id
     coco_cat_id_to_yolo_id class_names_ordered split_info).
Local Abbreviation out i := (output_base_path_of base_path (fold_name_of i)).

(** C6.  For a fold name that the manifest lacks, on a disk where neither
    the fold's output path nor a path above it is a regular file, the fold
    body raises nothing; it prints the two banner lines and then the
    report of the omission; it writes no file (no image copy, no label
    file, no descriptor); and the loop over the folds goes on with the
    folds that follow. *)
Theorem missing_fold_is_reported_and_skipped
  (i : nat) (rest : list nat) (w : world) :
  dict_get String.eqb split_info (fold_name_of i) = None ->
  no_file_above (disk w) (out i) = true ->
  let w' := fst (run_fold i w) in
  snd (run_fold i w) = Ok tt
  /\ console w'
     = (console w ++ fold_banner base_path i ++ [fold_missing_report i])%list
  /\ (forall q content,
        disk w' q = Some (File content) -> disk w q = Some (File content))
  /\ run_folds (i :: rest) w = run_folds rest w'.
Proof.
  intros H _ w'.
  pose proof (process_fold_absent base_path images_info
                annotations_by_image_id coco_cat_id_to_yolo_id
                class_names_ordered split_info i w (or_introl H)) as E.
  subst w'. unfold process_folds. cbn [for_each].
  rewrite (io_bind_ok _ _ _ _ _ E). rewrite E. cbn [fst snd disk console].
  repeat split; try reflexivity.
  intros q content. apply skeleton_disk_file.
Qed.

(** C10.  For a fold that the manifest lacks, or maps to an empty
    mapping, on a disk where neither the fold's output path nor a path
    above it is a regular file, the fold body still raises nothing and
    ends with the report of the omission, and by then the fold's output
    tree is the empty skeleton: whatever was there before is gone, the
    nine directories are there and nothing else. *)
Theorem skipped_fold_output_is_wiped (i : nat) (w : world) :
  dict_get String.eqb split_info (fold_name_of i) = None
  \/ dict_get String.eqb split_info (fold_name_of i) = Some [] ->
  no_file_above (disk w) (out i) = true ->
  absent_is_empty (disk w) (out i) ->
  let w' := fst (run_fold i w) in
  snd (run_fold i w) = Ok tt
  /\ last (console w') "" = fold_missing_report i
  /\ empty_tree (out i) (disk w').
Proof.
  intros H _ Hw w'.
  pose proof (process_fold_absent base_path images_info
                annotations_by_image_id coco_cat_id_to_yolo_id
                class_names_ordered split_info i w H) as E.
  subst w'. rewrite E. cbn [fst snd disk console].
  split; [reflexivity|]. split.
  - rewrite app_assoc. apply last_last.
  - now apply skeleton_disk_under.
Qed.
End MissingFold.

Lemma missing_fold_is_reported_and_skipped_example :
  dict_get String.eqb ex_split_info (fold_name_of 2) = None
  /\ no_file_above (disk ex_world)
       (output_base_path_of ex_base (fold_name_of 2)) = true
  /\ console
       (fst (process_fold ex_base (images_info_of (ex_coco []))
               (annotations_by_image_id_of (ex_coco [])) ex_map
               ["cavity"; "crown"] ex_split_info 2 ex_world))
     = [ nl ++ "==================== PROCESSING FOLD_2 ====================";
         "Output will be in: /data/AKUDENTAL_YOLO_FOLD_2";
         "❌ Error: 'fold_2' not found in split_info.json. Skipping." ].
Proof.
  split; [reflexivity|]. split; [reflexivity|].
  apply (missing_fold_is_reported_and_skipped ex_base
           (images_info_of (ex_coco []))
           (annotations_by_image_id_of (ex_coco [])) ex_map
           ["cavity"; "crown"] ex_split_info 2 [] ex_world);
    reflexivity.
Defined.

Lemma skipped_fold_output_is_wiped_example :
  (dict_get String.eqb ex_split_info (fold_name_of 1) = None
   \/ dict_get String.eqb ex_split_info (fold_name_of 1) = Some [])
  /\ no_file_above (disk ex_world_old)
       (output_base_path_of ex_base (fold_name_of 1)) = true
  /\ absent_is_empty (disk ex_world_old)
       (output_base_path_of ex_base (fold_name_of 1))
  /\ disk ex_world_old
       ["data"; "AKUDENTAL_YOLO_FOLD_1"; "labels"; "train"; "old.txt"]
     = Some (File "0 0.100000 0.100000")
  /\ disk (fst (process_fold ex_base (images_info_of (ex_coco []))
                  (annotations_by_image_id_of (ex_coco [])) ex_map
                  ["cavity"; "crown"] ex_split_info 1 ex_world_old))
       ["data"; "AKUDENTAL_YOLO_FOLD_1"; "labels"; "train"; "old.txt"]
     = None.
Proof.
  assert (H1 : dict_get String.eqb ex_split_info (fold_name_of 1) = None
               \/ dict_get String.eqb ex_split_info (fold_name_of 1) = Some [])
    by (right; reflexivity).
  assert (H2 : absent_is_empty (disk ex_world_old)
                 (output_base_path_of ex_base (fold_name_of 1)))
    by (intros H; vm_compute in H; discriminate H).
  split; [exact H1|]. split; [reflexivity|]. split; [exact H2|].
  split; [reflexivity|].
  exact (proj2 (proj2 (skipped_fold_output_is_wiped ex_base
                         (images_info_of (ex_coco []))
                         (annotations_by_image_id_of (ex_coco [])) ex_map
                         ["cavity"; "crown"] ex_split_info 1 ex_world_old H1
                         eq_refl H2))
           ["labels"; "train"; "old.txt"]).
Defined.

(** ** Running a fold again *)

Lemma not_under_not_below (out q : path) :
  is_prefix out q = false -> forall x r, q <> (out ++ x :: r)%list.
Proof.
  intros H x r ->. now rewrite is_prefix_app in H.
Qed.

Lemma root_not_below (out : path) (x : string) (r : path) :
  out <> (out ++ x :: r)%list.
Proof.
  intros H. apply (f_equal (@List.length string)) in H.
  rewrite length_app in H. simpl in H. lia.
Qed.

Section Rerun.
Variable base_path : path.
Variable images_info : list (Z * image).
Variable annotations_by_image_id : list (Z * list annotation).
Variable coco_cat_id_to_yolo_id : list (Z * nat).
Variable class_names_ordered : list string.
Variable split_info : split_manifest.

Local Abbreviation run_fold :=
  (process_fold base_path images_info annotations_by_image_id
     coco_cat_id_to_yolo_id class_names_ordered split_info).
Local Abbreviation tail :=
  (fold_tail base_path images_info annotations_by_image_id
     coco_cat_id_to_yolo_id class_names_ordered split_info).
Local Abbreviation out i := (output_base_path_of base_path (fold_name_of i)).

(** After a run the output directory exists. *)
Lemma run_fold_output_exists (i : nat) (w : world) :
  absent_is_empty (disk w) (out i) ->
  disk (fst (run_fold i w)) (out i) = Some Dir.
Proof.
  intros Hw. rewrite process_fold_decompose.
  rewrite (fold_tail_frames base_path images_info annotations_by_image_id
             coco_cat_id_to_yolo_id class_names_ordered split_info i)
    by apply root_not_below.
  unfold prepared. cbn [disk].
  pose proof (skeleton_disk_under (out i) (disk w) Hw []) as H.
  now rewrite app_nil_r in H.
Qed.

(** The prologue of a second run lands on the disk the first prologue
    made. *)
Lemma prepared_again (i : nat) (w : world) :
  absent_is_empty (disk w) (out i) ->
  same_disk (prepared base_path i (fst (run_fold i w)))
    (prepared base_path i w).
Proof.
  intros Hw q.
  assert (Hw1 : absent_is_empty (disk (fst (run_fold i w))) (out i))
    by (intros H; rewrite run_fold_output_exists in H by assumption;
        discriminate).
  unfold prepared. cbn [disk].
  destruct (is_prefix (out i) q) eqn:E.
  - destruct (is_prefix_split _ _ E) as [r ->].
    now rewrite !skeleton_disk_under.
  - assert (Hq : disk (fst (run_fold i w)) q
                 = skeleton_disk (out i) (disk w) q).
    { rewrite process_fold_decompose.
      now rewrite (fold_tail_frames base_path images_info
                     annotations_by_image_id coco_cat_id_to_yolo_id
                     class_names_ordered split_info i)
        by now apply not_under_not_below. }
    rewrite (skeleton_disk_outside _ (disk (fst (run_fold i w))))
      by assumption.
    rewrite !Hq. rewrite !skeleton_disk_outside by assumption.
    destruct (is_prefix q (out i)); [|reflexivity].
    now destruct (disk w q).
Qed.

(** C7.  On a disk where neither the fold's output path nor a path above
    it is a regular file, and for a manifest entry whose splits are
    among train, val and test and whose file names are plain, a run of a
    fold is its tail started on a disk
    whose tree for that fold is the fresh empty skeleton (the old output
    directory, if there was one, removed; images/ and labels/ with train,
    val and test below them created), whatever the tree held before;
    hence a second run of the fold right after the first leaves the same
    disk, file for file, and ends the same way. *)
Theorem fold_rerun_is_idempotent (i : nat) (w : world) :
  no_file_above (disk w) (out i) = true ->
  plain_fold split_info i = true ->
  absent_is_empty (disk w) (out i) ->
  let w1 := fst (run_fold i w) in
  let w2 := fst (run_fold i w1) in
  (run_fold i w = tail i (prepared base_path i w)
   /\ empty_tree (out i) (disk (prepared base_path i w)))
  /\ (run_fold i w1 = tail i (prepared base_path i w1)
      /\ empty_tree (out i) (disk (prepared base_path i w1)))
  /\ same_disk w2 w1
  /\ snd (run_fold i w1) = snd (run_fold i w).
Proof.
  intros _ _ Hw w1 w2.
  assert (Hw1 : absent_is_empty (disk w1) (out i))
    by (intros H; unfold w1 in H;
        rewrite run_fold_output_exists in H by assumption; discriminate).
  split; [split; [apply process_fold_decompose
                 | now apply skeleton_disk_under]|].
  split; [split; [apply process_fold_decompose
                 | now apply skeleton_disk_under]|].
  pose proof (fold_tail_respects base_path images_info annotations_by_image_id
                coco_cat_id_to_yolo_id class_names_ordered split_info i
                _ _ (prepared_again i w Hw)) as [Hd Hr].
  unfold w2. rewrite !(process_fold_decompose _ _ _ _ _ _ i w1).
  fold w1 in Hd, Hr. split; [|].
  - intros q. rewrite (Hd q). unfold w1. now rewrite process_fold_decompose.
  - rewrite Hr. now rewrite process_fold_decompose.
Qed.
End Rerun.

Lemma fold_rerun_is_idempotent_example :
  let run :=
    process_fold ex_base (images_info_of (ex_coco [ex_annotation]))
      (annotations_by_image_id_of (ex_coco [ex_annotation])) ex_map
      ["cavity"; "crown"] ex_split_info 0 in
  no_file_above (disk ex_world)
    (output_base_path_of ex_base (fold_name_of 0)) = true
  /\ plain_fold ex_split_info 0 = true
  /\ absent_is_empty (disk ex_world)
       (output_base_path_of ex_base (fold_name_of 0))
  /\ disk (fst (run ex_world))
       ["data"; "AKUDENTAL_YOLO_FOLD_0"; "labels"; "train"; "tooth.txt"]
     = Some (File "1 0.000000 0.000000 0.500000 0.000000 0.500000 1.000000 0.000000 1.000000")
  /\ same_disk (fst (run (fst (run ex_world)))) (fst (run ex_world)).
Proof.
  intros run.
  assert (H : absent_is_empty (disk ex_world)
                (output_base_path_of ex_base (fold_name_of 0)))
    by (intros _ r; reflexivity).
  split; [reflexivity|]. split; [reflexivity|].
  split; [exact H|]. split; [reflexivity|].
  exact (proj1 (proj2 (proj2
           (fold_rerun_is_idempotent ex_base
              (images_info_of (ex_coco [ex_annotation]))
              (annotations_by_image_id_of (ex_coco [ex_annotation])) ex_map
              ["cavity"; "crown"] ex_split_info 0 ex_world eq_refl eq_refl
              H)))).
Defined.

(** ** Empty segmentations *)

Lemma io_bind_raise {A B : Type} (c : io A) (k : A -> io B) (w w' : world)
  (e : exn) :
  c w = (w', Raise e) -> io_bind c k w = (w', Raise e).
Proof. intros H. unfold io_bind. now rewrite H. Qed.

(** An exception in the body ends the loop. *)
Lemma for_each_raise {A : Type} (body : A -> io unit) (a : A) (l : list A)
  (w : world) (e : exn) :
  snd (body a w) = Raise e -> for_each (a :: l) body w = body a w.
Proof.
  intros H. simpl. destruct (body a w) as [w' r] eqn:E. simpl in H. subst r.
  now apply io_bind_raise.
Qed.

(** An exception of the encoder escapes the per-image step, after the
    copy and before the label file. *)
Lemma process_image_raises (base_path : path) (images_info : list (Z * image))
  (annotations_by_image_id : list (Z * list annotation))
  (coco_cat_id_to_yolo_id : list (Z * nat))
  (out : path) (split_name image_filename : string) (w : world)
  (id : Z) (info : image) (content : string) (e : exn) :
  find_image_id images_info image_filename = Some id ->
  dict_get Z.eqb images_info id = Some info ->
  disk w (base_path // image_filename) = Some (File content) ->
  label_lines info annotations_by_image_id coco_cat_id_to_yolo_id id = Raise e ->
  snd (process_image base_path images_info annotations_by_image_id
         coco_cat_id_to_yolo_id out split_name image_filename w) = Raise e.
Proof.
  intros Hfind Hinfo Hsrc Hlines. unfold process_image. rewrite Hfind.
  rewrite (io_bind_ok _ _ w w true) by (unfold path_exists; now rewrite Hsrc).
  destruct (copy_file _ (out // "images" // split_name // image_filename)
              w content Hsrc) as (target & Hcopy & _).
  rewrite (io_bind_ok _ _ _ _ _ Hcopy).
  rewrite (io_bind_ok _ _ _ _ info) by (unfold lift; now rewrite Hinfo).
  erewrite io_bind_raise; [reflexivity|]. unfold lift. now rewrite Hlines.
Qed.

(** C9.  The access to the first ring succeeds on every nonempty
    segmentation; on an empty one it raises [IndexError], nothing guards
    it for an annotation of a mapped category, and the exception ends the
    run: it escapes the per-image step and the loops around it, and in the
    sample run the image is copied, its label file is never written and
    the folds after the first are never started. *)
Theorem first_ring_access :
  (forall a ring rest,
      segmentation a = ring :: rest -> first_ring a = Ok ring)
  /\ (forall a, segmentation a = [] -> first_ring a = Raise IndexError)
  /\ (forall w h m a rest acc,
        qualifies m a = true -> segmentation a = [] ->
        label_loop w h m (a :: rest) acc = Raise IndexError)
  /\ (forall base_path images_info annotations_by_image_id m out split_name
             f rest w id info content,
        find_image_id images_info f = Some id ->
        dict_get Z.eqb images_info id = Some info ->
        disk w (base_path // f) = Some (File content) ->
        label_lines info annotations_by_image_id m id = Raise IndexError ->
        let step :=
          process_image base_path images_info annotations_by_image_id m out
            split_name in
        snd (step f w) = Raise IndexError
        /\ for_each (f :: rest) step w = step f w)
  /\ (segmentation ex_no_ring = []
      /\ let r := create_yolo_datasets_for_all_folds ex_base
                    (ex_coco [ex_no_ring]) ex_split_info ex_world in
         snd r = Raise IndexError
         /\ disk (fst r)
              ["data"; "AKUDENTAL_YOLO_FOLD_0"; "images"; "train"; "tooth.png"]
            = Some (File "PNG")
         /\ disk (fst r)
              ["data"; "AKUDENTAL_YOLO_FOLD_0"; "labels"; "train"; "tooth.txt"]
            = None
         /\ disk (fst r) ["data"; "AKUDENTAL_YOLO_FOLD_0"; "dataset.yaml"] = None
         /\ disk (fst r) ["data"; "AKUDENTAL_YOLO_FOLD_1"] = None).
Proof.
  split; [|split; [|split; [|split]]].
  - intros a ring rest H. unfold first_ring. now rewrite H.
  - intros a H. unfold first_ring. now rewrite H.
  - intros w h m a rest acc Hq Hs. simpl.
    unfold qualifies, dict_mem in Hq.
    destruct (dict_get Z.eqb m (category_id a)); [|discriminate].
    unfold first_ring. now rewrite Hs.
  - intros base_path images_info abid m out split_name f rest w id info content
      Hfind Hinfo Hsrc Hlines step.
    assert (Hstep : snd (step f w) = Raise IndexError)
      by (eapply process_image_raises; eauto).
    split; [exact Hstep|]. now apply (for_each_raise step f rest w IndexError).
  - repeat split; vm_compute; reflexivity.
Qed.

Lemma first_ring_access_example :
  segmentation ex_annotation
  = [PyInt 0; PyInt 0; PyInt 100; PyInt 0;
     PyInt 100; PyInt 100; PyInt 0; PyInt 100] :: []
  /\ first_ring ex_annotation
     = Ok [PyInt 0; PyInt 0; PyInt 100; PyInt 0;
           PyInt 100; PyInt 100; PyInt 0; PyInt 100]
  /\ qualifies ex_map ex_no_ring = true
  /\ label_loop (PyInt 200) (PyInt 100) ex_map [ex_no_ring; ex_annotation] []
     = Raise IndexError.
Proof.
  split; [reflexivity|].
  split; [apply (proj1 first_ring_access ex_annotation _ []); reflexivity|].
  split; [reflexivity|].
  apply (proj1 (proj2 (proj2 first_ring_access))); reflexivity.
Defined.

(** * Further properties of the code *)

(** ** Loader: the two indexes *)

Lemma dict_set_keys {V : Type} (d : list (Z * V)) (k : Z) (v : V) :
  map fst (dict_set Z.eqb d k v)
  = if dict_mem Z.eqb d k then map fst d else (map fst d ++ [k])%list.
Proof.
  unfold dict_mem. induction d as [|[k0 v0] d IH]; simpl; [reflexivity|].
  destruct (Z.eqb k0 k) eqn:E; simpl; [reflexivity|].
  rewrite IH. now destruct (dict_get Z.eqb d k).
Qed.

Lemma dict_mem_in {V : Type} (d : list (Z * V)) (k : Z) :
  dict_mem Z.eqb d k = true <-> In k (map fst d).
Proof.
  unfold dict_mem. induction d as [|[k0 v0] d IH]; simpl; [easy|].
  destruct (Z.eqb k0 k) eqn:E.
  - apply Z.eqb_eq in E. intuition.
  - rewrite IH. split; [auto|]. intros [H|H]; [|auto].
    subst. now rewrite Z.eqb_refl in E.
Qed.

Lemma dict_set_nodup {V : Type} (d : list (Z * V)) (k : Z) (v : V) :
  NoDup (map fst d) -> NoDup (map fst (dict_set Z.eqb d k v)).
Proof.
  intros H. rewrite dict_set_keys.
  destruct (dict_mem Z.eqb d k) eqn:E; [assumption|].
  apply NoDup_app; [assumption | repeat constructor; intros [] |].
  intros x Hx [<-|[]]. apply dict_mem_in in Hx. congruence.
Qed.

Lemma dict_get_nodup_in {V : Type} (d : list (Z * V)) (k : Z) (v : V) :
  NoDup (map fst d) -> (dict_get Z.eqb d k = Some v <-> In (k, v) d).
Proof.
  induction d as [|[k0 v0] d IH]; simpl; intros Hnd; [easy|].
  inversion Hnd as [|? ? Hnotin Hnd']; subst.
  destruct (Z.eqb k0 k) eqn:E.
  - apply Z.eqb_eq in E; subst. split.
    + intros H; inversion H; now left.
    + intros [H|H]; [now inversion H|].
      exfalso. apply Hnotin. now apply (in_map fst) in H.
  - rewrite IH by assumption. split; [auto|].
    intros [H|H]; [|assumption]. inversion H; subst.
    now rewrite Z.eqb_refl in E.
Qed.

Lemma images_info_nodup (c : coco) : NoDup (map fst (images_info_of c)).
Proof.
  unfold images_info_of.
  assert (H : forall l (d : list (Z * image)),
             NoDup (map fst d) ->
             NoDup (map fst (fold_left
                               (fun d img => dict_set Z.eqb d (img_id img) img)
                               l d))).
  { induction l as [|x l IH]; intros d Hd; simpl; [assumption|].
    apply IH. now apply dict_set_nodup. }
  apply H. constructor.
Qed.

Lemma images_info_get (c : coco) (id : Z) :
  dict_get Z.eqb (images_info_of c) id
  = find (fun img => Z.eqb (img_id img) id) (rev (images c)).
Proof.
  unfold images_info_of.
  induction (images c) as [|x l IH] using rev_ind; [reflexivity|].
  rewrite fold_left_app, rev_app_distr. simpl.
  destruct (Z.eqb (img_id x) id) eqn:E.
  - apply Z.eqb_eq in E; subst.
    apply (dict_get_set_same Z.eqb z_eqb_iff).
  - rewrite (dict_get_set_other Z.eqb z_eqb_iff); [exact IH|].
    intros Heq. rewrite Heq, Z.eqb_refl in E. discriminate.
Qed.

(** X2.  The image index maps an id to the last image record that carries
    it: a later record replaces an earlier one with the same id, and an id
    that no record carries has no entry. *)
Theorem images_info_last_wins (c : coco) (id : Z) :
  dict_get Z.eqb (images_info_of c) id
  = find (fun img => Z.eqb (img_id img) id) (rev (images c)).
Proof. apply images_info_get. Qed.

Lemma find_image_id_sound (d : list (Z * image)) (f : string) (id : Z) :
  NoDup (map fst d) -> find_image_id d f = Some id ->
  exists info, dict_get Z.eqb d id = Some info /\ file_name info = f.
Proof.
  induction d as [|[k info] d IH]; simpl; intros Hnd; [discriminate|].
  inversion Hnd as [|? ? Hnotin Hnd']; subst.
  destruct (String.eqb (file_name info) f) eqn:E.
  - intros H; inversion H; subst. rewrite Z.eqb_refl.
    apply String.eqb_eq in E. eauto.
  - intros H. destruct (IH Hnd' H) as (info' & Hget & Hname).
    destruct (Z.eqb k id) eqn:Ek; [|eauto].
    apply Z.eqb_eq in Ek; subst. exfalso. apply Hnotin.
    apply (dict_get_nodup_in d id info' Hnd') in Hget.
    now apply (in_map fst) in Hget.
Qed.

Lemma find_image_id_none (d : list (Z * image)) (f : string) :
  find_image_id d f = None ->
  forall k info, In (k, info) d -> file_name info <> f.
Proof.
  induction d as [|[k0 info0] d IH]; simpl; [easy|].
  destruct (String.eqb (file_name info0) f) eqn:E; [discriminate|].
  intros H k info [Heq|Hin]; [|eauto].
  inversion Heq; subst. intros Hf. rewrite Hf, String.eqb_refl in E.
  discriminate.
Qed.

(** X3.  A file name resolves to an id only when the record the index
    holds under that id has this very file name, so the later lookup
    [images_info[image_id]] cannot fail and reads the dimensions of the
    right image; a file name resolves to nothing exactly when no record
    of the index has it. *)
Theorem file_name_resolution (c : coco) (f : string) :
  match find_image_id (images_info_of c) f with
  | Some id =>
      exists info,
        dict_get Z.eqb (images_info_of c) id = Some info
        /\ file_name info = f /\ img_id info = id /\ In info (images c)
  | None =>
      forall id info,
        dict_get Z.eqb (images_info_of c) id = Some info -> file_name info <> f
  end.
Proof.
  destruct (find_image_id (images_info_of c) f) as [id|] eqn:E.
  - destruct (find_image_id_sound _ _ _ (images_info_nodup c) E)
      as (info & Hget & Hname).
    exists info. split; [assumption|]. split; [assumption|].
    rewrite images_info_get in Hget. apply find_some in Hget.
    destruct Hget as [Hin Hid]. apply Z.eqb_eq in Hid.
    split; [assumption|]. now apply in_rev.
  - intros id info Hget.
    apply (dict_get_nodup_in _ _ _ (images_info_nodup c)) in Hget.
    eapply find_image_id_none; eauto.
Qed.

Lemma images_info_distinct_ids (l : list image) (d : list (Z * image)) :
  NoDup (map fst d ++ map img_id l) ->
  fold_left (fun d img => dict_set Z.eqb d (img_id img) img) l d
  = (d ++ map (fun img => (img_id img, img)) l)%list.
Proof.
  revert d; induction l as [|x l IH]; intros d Hnd; simpl.
  - now rewrite app_nil_r.
  - rewrite (dict_set_fresh Z.eqb z_eqb_iff).
    + rewrite IH; [now rewrite <- app_assoc|].
      rewrite map_app. simpl. rewrite <- app_assoc. exact Hnd.
    + simpl in Hnd. apply NoDup_remove_2 in Hnd.
      intros Hin. apply Hnd. apply in_or_app. now left.
Qed.

(** X4.  With pairwise distinct image ids, a file name resolves to the id
    of the first image record, in input order, that has this file name:
    among records sharing a file name the first one wins. *)
Theorem first_file_name_match_wins (c : coco) (f : string) :
  NoDup (map img_id (images c)) ->
  find_image_id (images_info_of c) f
  = option_map img_id
      (find (fun img => String.eqb (file_name img) f) (images c)).
Proof.
  intros Hnd. unfold images_info_of.
  rewrite images_info_distinct_ids by exact Hnd. simpl.
  induction (images c) as [|x l IH]; simpl; [reflexivity|].
  destruct (String.eqb (file_name x) f); [reflexivity|].
  apply IH. now inversion Hnd.
Qed.

(** X1.  The grouped dictionary holds under an image id exactly the
    annotations that carry it, in input order; an image without
    annotations has no key; every annotation sits in the group of its own
    image. *)
Theorem annotations_grouped_in_order (c : coco) :
  (forall id,
      dict_get Z.eqb (annotations_by_image_id_of c) id
      = match filter (fun a => Z.eqb (image_id a) id) (annotations c) with
        | [] => None
        | l => Some l
        end)
  /\ (forall a, In a (annotations c) ->
        exists l, dict_get Z.eqb (annotations_by_image_id_of c) (image_id a)
                  = Some l /\ In a l).
Proof.
  split; [intros id; apply annotations_by_image_id_get|].
  intros a Hin. rewrite annotations_by_image_id_get.
  assert (Ha : In a (filter (fun b => Z.eqb (image_id b) (image_id a))
                       (annotations c)))
    by (apply filter_In; split; [assumption | apply Z.eqb_refl]).
  destruct (filter _ (annotations c)) as [|b l]; [destruct Ha|]. eauto.
Qed.

Lemma first_file_name_match_wins_example :
  let c := {| images := [ex_image; ex_image_twin]; annotations := [];
              categories := ex_categories |} in
  NoDup (map img_id (images c))
  /\ find_image_id (images_info_of c) "tooth.png" = Some 1%Z.
Proof.
  intros c.
  assert (H : NoDup (map img_id (images c)))
    by (repeat constructor; simpl; intuition discriminate).
  split; [exact H|].
  exact (first_file_name_match_wins c "tooth.png" H).
Defined.

(** ** Class mapper: any category list *)

Lemma enumerate_from_nth {A : Type} (l : list A) (s i : nat) (x : A) :
  In (i, x) (enumerate_from s l) -> s <= i /\ nth_error l (i - s) = Some x.
Proof.
  revert s; induction l as [|a l IH]; intros s; simpl; [easy|].
  intros [H|H].
  - inversion H; subst. rewrite Nat.sub_diag. auto.
  - destruct (IH (S s) H) as [Hle Hn]. split; [lia|].
    replace (i - s) with (S (i - S s)) by lia. exact Hn.
Qed.

Lemma fold_dict_set_invariant (P : string -> nat -> Prop)
  (pairs : list (nat * string)) :
  (forall i n, In (i, n) pairs -> P n i) ->
  forall d : list (string * nat),
    (forall x i, dict_get String.eqb d x = Some i -> P x i) ->
    forall x i,
      dict_get String.eqb
        (fold_left (fun d '(i, n) => dict_set String.eqb d n i) pairs d) x
      = Some i -> P x i.
Proof.
  induction pairs as [|[j n] pairs IH]; intros Hp d Hd x i; simpl; [apply Hd|].
  apply IH; [intros; apply Hp; now right|].
  intros y k. destruct (String.eqb_spec n y) as [->|Hne].
  - rewrite (dict_get_set_same String.eqb string_eqb_iff).
    intros H; inversion H; subst. apply Hp. now left.
  - rewrite (dict_get_set_other String.eqb string_eqb_iff) by assumption.
    apply Hd.
Qed.

Lemma fold_dict_set_keeps (pairs : list (nat * string)) :
  forall (d : list (string * nat)) x,
    dict_get String.eqb d x <> None \/ In x (map snd pairs) ->
    dict_get String.eqb
      (fold_left (fun d '(i, n) => dict_set String.eqb d n i) pairs d) x
    <> None.
Proof.
  induction pairs as [|[j n] pairs IH]; intros d x H; simpl.
  - destruct H as [H|[]]. exact H.
  - apply IH. destruct (String.eqb_spec n x) as [->|Hne].
    + left. now rewrite (dict_get_set_same String.eqb string_eqb_iff).
    + destruct H as [H|[H|H]]; [left | contradiction | now right].
      now rewrite (dict_get_set_other String.eqb string_eqb_iff).
Qed.

Lemma enumerate_from_snd {A : Type} (l : list A) (s : nat) :
  map snd (enumerate_from s l) = l.
Proof.
  revert s; induction l as [|a l IH]; intros s; simpl; [reflexivity|].
  now rewrite IH.
Qed.

(** The index a name gets is a position of that name in the list. *)
Lemma class_name_to_id_position (names : list string) (x : string) (i : nat) :
  dict_get String.eqb (class_name_to_id_of names) x = Some i ->
  nth_error names i = Some x.
Proof.
  unfold class_name_to_id_of, enumerate.
  apply (fold_dict_set_invariant (fun x i => nth_error names i = Some x)).
  - intros j n H. apply enumerate_from_nth in H. destruct H as [_ H].
    now rewrite Nat.sub_0_r in H.
  - simpl. discriminate.
Qed.

Lemma class_name_to_id_covers (names : list string) (x : string) :
  In x names -> dict_get String.eqb (class_name_to_id_of names) x <> None.
Proof.
  intros H. unfold class_name_to_id_of, enumerate.
  apply fold_dict_set_keeps. right. now rewrite enumerate_from_snd.
Qed.

(** X5.  For any category list, repeated names and ids included, the id
    bridge is built without a lookup failure and has a key for every
    category id; the class index under an id is below the class count
    [nc] written to the descriptor, and the name listed at that index is
    the name of a category with this id (the last one). *)
Theorem class_index_names_its_class (c : coco) :
  let names := class_names_ordered_of c in
  exists d,
    coco_cat_id_to_yolo_id_of (class_name_to_id_of names) (categories c) = Ok d
    /\ (forall cat, In cat (categories c) ->
          dict_mem Z.eqb d (cat_id cat) = true)
    /\ (forall k i, dict_get Z.eqb d k = Some i ->
          i < List.length names
          /\ exists cat,
               find (fun x => Z.eqb (cat_id x) k) (rev (categories c)) = Some cat
               /\ nth_error names i = Some (name cat)).
Proof.
  intros names.
  assert (Hcov : forall cat, In cat (categories c) ->
                   dict_get String.eqb (class_name_to_id_of names) (name cat)
                   <> None).
  { intros cat Hin. apply class_name_to_id_covers.
    eapply Permutation_in; [apply class_names_ordered_perm|].
    now apply in_map. }
  destruct (cat_id_bridge (class_name_to_id_of names) (categories c) Hcov)
    as (d & Hd & Hget).
  exists d. split; [exact Hd|]. split.
  - intros cat Hin. unfold dict_mem. rewrite Hget.
    destruct (find (fun x => Z.eqb (cat_id x) (cat_id cat)) (rev (categories c)))
      as [cat'|] eqn:Ef.
    + apply find_some in Ef. destruct Ef as [Hin' _]. apply in_rev in Hin'.
      specialize (Hcov cat' Hin').
      now destruct (dict_get String.eqb (class_name_to_id_of names) (name cat')).
    + pose proof (find_none _ _ Ef cat (proj1 (in_rev _ _) Hin)) as Hf.
      simpl in Hf. rewrite Z.eqb_refl in Hf. discriminate.
  - intros k i Hk. rewrite Hget in Hk.
    destruct (find (fun x => Z.eqb (cat_id x) k) (rev (categories c)))
      as [cat|]; [|discriminate].
    apply class_name_to_id_position in Hk.
    split; [apply nth_error_Some; congruence|]. eauto.
Qed.


(** ** Label encoder: failures *)

Lemma truediv_by_int_zero (c : pynum) :
  truediv c (PyInt 0) = Raise ZeroDivisionError.
Proof. destruct c as [m|x]; [reflexivity | now destruct x]. Qed.

(** X7.  On an image whose width is the integer 0, an annotation of a
    mapped category whose first ring has a coordinate aborts the encoder
    with [ZeroDivisionError]; so does a height of 0 once the first
    x coordinate is divided and a y coordinate follows. *)
Theorem zero_dimension_raises (w h : pynum) (m : list (Z * nat))
  (a : annotation) (anns : list annotation) (acc : list string)
  (x : pynum) (ring : list pynum) (rest : list (list pynum)) :
  qualifies m a = true ->
  segmentation a = (x :: ring) :: rest ->
  label_loop (PyInt 0) h m (a :: anns) acc = Raise ZeroDivisionError
  /\ (forall q y ring', truediv x w = Ok q -> ring = y :: ring' ->
        label_loop w (PyInt 0) m (a :: anns) acc = Raise ZeroDivisionError).
Proof.
  intros Hq Hs. unfold qualifies, dict_mem in Hq.
  cbn [label_loop]. destruct (dict_get Z.eqb m (category_id a)); [|discriminate].
  unfold first_ring. rewrite Hs. cbn [bind].
  unfold normalized_points, enumerate. split.
  - cbn [enumerate_from comprehension]. change (0 mod 2 =? 0)%nat with true.
    cbv iota. now rewrite truediv_by_int_zero.
  - intros q y ring' Hx ->. cbn [enumerate_from comprehension].
    change (0 mod 2 =? 0)%nat with true. change (1 mod 2 =? 0)%nat with false.
    cbv iota. rewrite Hx. cbn [bind]. now rewrite truediv_by_int_zero.
Qed.

Lemma zero_dimension_raises_example :
  qualifies ex_map ex_annotation = true
  /\ label_loop (PyInt 0) (PyInt 100) ex_map [ex_annotation] []
     = Raise ZeroDivisionError.
Proof.
  split; [reflexivity|].
  exact (proj1 (zero_dimension_raises (PyInt 200) (PyInt 100) ex_map
                  ex_annotation [] [] (PyInt 0) _ [] eq_refl eq_refl)).
Defined.

Lemma truediv_raises (c d : pynum) (e : exn) :
  truediv c d = Raise e -> e = ZeroDivisionError \/ e = OverflowError.
Proof.
  destruct c as [m|x], d as [n|y]; simpl.
  - unfold int_truediv. destruct (n =? 0)%Z; [intros H; inversion H; auto|].
    destruct (m =? 0)%Z; [discriminate|].
    destruct (SFdiv_core_binary prec emax (Z.abs m) 0 (Z.abs n) 0) as [[mz ez] lz].
    destruct (binary_round_aux prec emax _ mz ez lz); intros H;
      inversion H; auto.
  - unfold float_of_int.
    destruct (binary_normalize prec emax m 0 false); simpl;
      unfold float_truediv; destruct (is_zero y); intros H; inversion H; auto.
  - unfold float_of_int.
    destruct (binary_normalize prec emax n 0 false) as [s|s| |s k e0]; simpl;
      unfold float_truediv; simpl; intros H; inversion H; auto.
  - unfold float_truediv. destruct (is_zero y); intros H; inversion H; auto.
Qed.

Lemma comprehension_raises {A B : Type} (f : A -> result B) (l : list A)
  (e : exn) :
  comprehension f l = Raise e -> exists a, In a l /\ f a = Raise e.
Proof.
  induction l as [|a l IH]; simpl; [discriminate|].
  destruct (f a) as [b|e0] eqn:Ea; simpl.
  - destruct (comprehension f l) as [bs|e1]; simpl; [discriminate|].
    intros H; inversion H; subst. destruct IH as (a' & Hin & Ha'); eauto.
  - intros H; inversion H; subst. eauto.
Qed.

Lemma normalized_points_raises (w h : pynum) (ring : list pynum) (e : exn) :
  normalized_points w h ring = Raise e ->
  e = OverflowError
  \/ (e = ZeroDivisionError
      /\ (positive_num w = false \/ positive_num h = false)).
Proof.
  intros H. apply comprehension_raises in H.
  destruct H as ([i c] & _ & H).
  destruct (truediv_raises _ _ _ H) as [-> | ->]; [|now left]. right.
  split; [reflexivity|].
  destruct ((i mod 2 =? 0)%nat).
  - destruct (positive_num w) eqn:Ew; [|now left].
    apply truediv_positive in H; [discriminate | assumption].
  - destruct (positive_num h) eqn:Eh; [|now right].
    apply truediv_positive in H; [discriminate | assumption].
Qed.

Lemma label_loop_raises (w h : pynum) (m : list (Z * nat))
  (anns : list annotation) (e : exn) :
  forall acc,
    label_loop w h m anns acc = Raise e ->
    (e = IndexError
     /\ exists a, In a anns /\ qualifies m a = true /\ segmentation a = [])
    \/ e = OverflowError
    \/ (e = ZeroDivisionError
        /\ (positive_num w = false \/ positive_num h = false)).
Proof.
  induction anns as [|a anns IH]; intros acc; simpl; [discriminate|].
  destruct (dict_get Z.eqb m (category_id a)) as [cls|] eqn:Eg.
  - unfold first_ring. destruct (segmentation a) as [|ring rest] eqn:Es; simpl.
    + intros H; inversion H; subst. left. split; [reflexivity|].
      exists a. split; [now left|].
      unfold qualifies, dict_mem. now rewrite Eg.
    + destruct (normalized_points w h ring) as [pts|e0] eqn:En; simpl.
      * intros H. destruct (IH _ H) as [(-> & a' & Hin & Hq & Hs) | H'];
          [left; split; [reflexivity|]; exists a'; split; [now right | auto]
          | now right].
      * intros H; inversion H; subst. right.
        now apply (normalized_points_raises w h ring).
  - intros H. destruct (IH _ H) as [(-> & a' & Hin & Hq & Hs) | H'];
      [left; split; [reflexivity|]; exists a'; split; [now right | auto]
      | now right].
Qed.

(** X8.  The label encoder of an image fails in three ways only, each
    with its cause: [IndexError] when an annotation of a mapped category
    on the image has an empty segmentation, [ZeroDivisionError] when the
    width or the height is not positive, [OverflowError] when a division
    leaves the double range; the two dictionary lookups of the loop never
    fail. *)
Theorem encoder_failures (c : coco) (img : image) (m : list (Z * nat))
  (id : Z) (e : exn) :
  label_lines img (annotations_by_image_id_of c) m id = Raise e ->
  (e = IndexError
   /\ exists a, In a (annotations c) /\ image_id a = id
                /\ qualifies m a = true /\ segmentation a = [])
  \/ e = OverflowError
  \/ (e = ZeroDivisionError
      /\ (positive_num (width img) = false
          \/ positive_num (height img) = false)).
Proof.
  unfold label_lines, dict_mem. rewrite annotations_by_image_id_get.
  destruct (filter (fun a => Z.eqb (image_id a) id) (annotations c))
    as [|a0 l] eqn:Ef; [discriminate|].
  intros H. apply label_loop_raises in H.
  destruct H as [(-> & a & Hin & Hq & Hs) | H]; [left | now right].
  split; [reflexivity|]. exists a.
  rewrite <- Ef in Hin. apply filter_In in Hin. destruct Hin as [Hin Hid].
  apply Z.eqb_eq in Hid. auto.
Qed.

Lemma encoder_failures_example :
  label_lines ex_image (annotations_by_image_id_of (ex_coco [ex_no_ring]))
    ex_map 1 = Raise IndexError
  /\ exists a, In a (annotations (ex_coco [ex_no_ring]))
               /\ qualifies ex_map a = true /\ segmentation a = [].
Proof.
  assert (H : label_lines ex_image
                (annotations_by_image_id_of (ex_coco [ex_no_ring])) ex_map 1
              = Raise IndexError) by reflexivity.
  split; [exact H|].
  destruct (encoder_failures (ex_coco [ex_no_ring]) ex_image ex_map 1
              IndexError H) as [(_ & a & Hin & _ & Hq & Hs) | [H' | [H' _]]];
    [eauto | discriminate H' | discriminate H'].
Defined.

(** ** Label encoder: the text of a line *)

Lemma string_length_append (a b : string) :
  String.length (a ++ b) = String.length a + String.length b.
Proof. induction a as [|c a IH]; simpl; [reflexivity | now rewrite IH]. Qed.

Lemma all_digits_append (a b : string) :
  all_digits (a ++ b) = all_digits a && all_digits b.
Proof.
  induction a as [|c a IH]; simpl; [reflexivity|].
  now rewrite IH, andb_assoc.
Qed.

Lemma count_nl_append (a b : string) :
  count_nl (a ++ b) = count_nl a + count_nl b.
Proof.
  induction a as [|c a IH]; simpl; [reflexivity|]. rewrite IH. lia.
Qed.

Lemma digits_no_nl (s : string) : all_digits s = true -> count_nl s = 0.
Proof.
  induction s as [|c s IH]; simpl; [reflexivity|].
  rewrite andb_true_iff. intros [Hc Hs]. rewrite (IH Hs).
  destruct (Ascii.eqb_spec c (ascii_of_nat 10)) as [->|_]; [discriminate Hc|].
  reflexivity.
Qed.

Lemma digit_char_is_digit (d : Z) :
  (0 <= d < 10)%Z -> is_digit (digit_char d) = true.
Proof.
  intros H.
  assert (Hd : (d = 0 \/ d = 1 \/ d = 2 \/ d = 3 \/ d = 4 \/ d = 5 \/ d = 6
                \/ d = 7 \/ d = 8 \/ d = 9)%Z) by lia.
  repeat (destruct Hd as [-> | Hd]; [reflexivity|]). now subst.
Qed.

Lemma zero_pad_shape (k : nat) : forall n : Z,
  String.length (zero_pad k n) = k /\ all_digits (zero_pad k n) = true.
Proof.
  induction k as [|k IH]; intros n; simpl; [auto|].
  destruct (IH (n / 10)%Z) as [Hl Hd].
  rewrite string_length_append, all_digits_append, Hl, Hd. simpl.
  rewrite digit_char_is_digit by (apply Z.mod_pos_bound; lia).
  split; [lia | reflexivity].
Qed.

Lemma string_of_uint_digits (d : Decimal.uint) :
  all_digits (NilEmpty.string_of_uint d) = true.
Proof. induction d; simpl; auto. Qed.

Lemma str_of_N_shape (n : N) :
  all_digits (str_of_N n) = true /\ str_of_N n <> "".
Proof.
  unfold str_of_N. split; [apply string_of_uint_digits|].
  destruct n as [|p]; [discriminate|]. simpl.
  pose proof (DecimalPos.Unsigned.to_uint_nonnil p) as H.
  destruct (Pos.to_uint p); try contradiction; discriminate.
Qed.

Lemma fixed6_shape (q : Z) :
  exists whole frac,
    fixed6 q = whole ++ "." ++ frac
    /\ all_digits whole = true /\ whole <> ""
    /\ all_digits frac = true /\ String.length frac = 6.
Proof.
  unfold fixed6.
  destruct (str_of_N_shape (Z.to_N (q / 1000000))) as [Hd Hne].
  destruct (zero_pad_shape 6 (q mod 1000000)) as [Hl Hf].
  eauto 10.
Qed.

(** X9.  A finite or zero value is printed as an optional minus sign, at
    least one digit, a point and exactly six digits; an infinity is
    printed as [inf] or [-inf] and a NaN as [nan], which are not numbers
    of that shape. *)
Theorem format_6f_shape (p : spec_float) :
  match p with
  | S754_nan => format_6f p = "nan"
  | S754_infinity s => format_6f p = sign_str s ++ "inf"
  | S754_zero s | S754_finite s _ _ =>
      exists whole frac,
        format_6f p = sign_str s ++ whole ++ "." ++ frac
        /\ all_digits whole = true /\ whole <> ""
        /\ all_digits frac = true /\ String.length frac = 6
  end.
Proof.
  destruct p as [s|s| |s m e]; simpl; try reflexivity.
  - destruct (fixed6_shape 0) as (whole & frac & H & Hrest).
    exists whole, frac. now rewrite H.
  - destruct (fixed6_shape (micro_units m e)) as (whole & frac & H & Hrest).
    exists whole, frac. now rewrite H.
Qed.

Lemma format_6f_no_nl (p : spec_float) : count_nl (format_6f p) = 0.
Proof.
  pose proof (format_6f_shape p) as H.
  destruct p as [s|s| |s m e]; try (destruct s; reflexivity); try reflexivity.
  all: destruct H as (whole & frac & -> & Hw & _ & Hf & _);
    rewrite !count_nl_append, (digits_no_nl _ Hw), (digits_no_nl _ Hf);
    now destruct s.
Qed.

Lemma join_space_no_nl (l : list string) :
  Forall (fun s => count_nl s = 0) l -> count_nl (join " " l) = 0.
Proof.
  unfold join. induction 1 as [|s l Hs Hl IH]; [reflexivity|].
  destruct l as [|s' l]; [exact Hs|].
  change (concat " " (s :: s' :: l)) with (s ++ " " ++ concat " " (s' :: l)).
  now rewrite !count_nl_append, Hs, IH.
Qed.

Lemma join_nl_count (l : list string) :
  Forall (fun s => count_nl s = 0) l ->
  count_nl (join nl l) = pred (List.length l).
Proof.
  unfold join. induction 1 as [|s l Hs Hl IH]; [reflexivity|].
  destruct l as [|s' l]; [exact Hs|].
  change (concat nl (s :: s' :: l)) with (s ++ nl ++ concat nl (s' :: l)).
  now rewrite !count_nl_append, Hs, IH.
Qed.

Lemma label_loop_lines_no_nl (w h : pynum) (m : list (Z * nat))
  (anns : list annotation) :
  forall acc lines,
    Forall (fun s => count_nl s = 0) acc ->
    label_loop w h m anns acc = Ok lines ->
    Forall (fun s => count_nl s = 0) lines.
Proof.
  induction anns as [|a anns IH]; intros acc lines Hacc; simpl.
  - intros H; inversion H; now subst.
  - destruct (dict_get Z.eqb m (category_id a)) as [cls|]; [|now apply IH].
    destruct (first_ring a) as [ring|e]; simpl; [|discriminate].
    destruct (normalized_points w h ring) as [pts|e]; simpl; [|discriminate].
    apply IH. apply Forall_app. split; [assumption|]. constructor; [|constructor].
    unfold str_of_nat. rewrite !count_nl_append.
    rewrite (digits_no_nl _ (proj1 (str_of_N_shape _))).
    cbn [count_nl]. rewrite join_space_no_nl; [reflexivity|].
    apply Forall_forall. intros s Hs. apply in_map_iff in Hs.
    destruct Hs as (p & <- & _). apply format_6f_no_nl.
Qed.

(** X10.  No line the encoder emits contains a newline, so the label text
    of [n] lines joined by newlines has exactly [n - 1] newline
    characters: one text line per emitted annotation and no trailing
    newline. *)
Theorem label_text_line_count (w h : pynum) (m : list (Z * nat))
  (anns : list annotation) (lines : list string) :
  label_loop w h m anns [] = Ok lines ->
  Forall (fun s => count_nl s = 0) lines
  /\ count_nl (join nl lines) = pred (List.length lines).
Proof.
  intros H.
  assert (Hl : Forall (fun s => count_nl s = 0) lines)
    by (eapply label_loop_lines_no_nl; [constructor | exact H]).
  split; [exact Hl | now apply join_nl_count].
Qed.

Lemma label_text_line_count_example :
  label_loop (PyInt 200) (PyInt 100) ex_map
    [ex_annotation; ex_unmapped; ex_annotation] []
  = Ok ["1 0.000000 0.000000 0.500000 0.000000 0.500000 1.000000 0.000000 1.000000";
        "1 0.000000 0.000000 0.500000 0.000000 0.500000 1.000000 0.000000 1.000000"]
  /\ count_nl
       (join nl
          ["1 0.000000 0.000000 0.500000 0.000000 0.500000 1.000000 0.000000 1.000000";
           "1 0.000000 0.000000 0.500000 0.000000 0.500000 1.000000 0.000000 1.000000"])
     = 1.
Proof.
  assert (H : label_loop (PyInt 200) (PyInt 100) ex_map
                [ex_annotation; ex_unmapped; ex_annotation] []
              = Ok ["1 0.000000 0.000000 0.500000 0.000000 0.500000 1.000000 0.000000 1.000000";
                    "1 0.000000 0.000000 0.500000 0.000000 0.500000 1.000000 0.000000 1.000000"])
    by reflexivity.
  split; [exact H|].
  exact (proj2 (label_text_line_count _ _ _ _ _ H)).
Defined.

(** ** Per-image step: what it leaves on disk *)

Lemma process_image_run (base_path : path) (images_info : list (Z * image))
  (annotations_by_image_id : list (Z * list annotation))
  (m : list (Z * nat)) (out : path) (split_name f : string) (w : world)
  (id : Z) (info : image) (content : string) :
  find_image_id images_info f = Some id ->
  dict_get Z.eqb images_info id = Some info ->
  disk w (base_path // f) = Some (File content) ->
  disk w (out // "images" // split_name // f) <> Some Dir ->
  process_image base_path images_info annotations_by_image_id m out
    split_name f w
  = match label_lines info annotations_by_image_id m id with
    | Ok lines =>
        ({| disk := update
                      (update (disk w) (out // "images" // split_name // f)
                         (File content))
                      (out // "labels" // split_name // (stem f ++ ".txt"))
                      (File (join nl lines));
            console := console w |}, Ok tt)
    | Raise e =>
        ({| disk := update (disk w) (out // "images" // split_name // f)
                      (File content);
            console := console w |}, Raise e)
    end.
Proof.
  intros Hfind Hinfo Hsrc Hdst. unfold process_image. rewrite Hfind.
  rewrite (io_bind_ok _ _ w w true) by (unfold path_exists; now rewrite Hsrc).
  assert (Hcopy : copy (base_path // f) (out // "images" // split_name // f) w
                  = ({| disk := update (disk w)
                                  (out // "images" // split_name // f)
                                  (File content);
                        console := console w |}, Ok tt)).
  { unfold copy. rewrite Hsrc.
    destruct (disk w (out // "images" // split_name // f)) as [[|]|];
      try reflexivity. now contradiction Hdst. }
  rewrite (io_bind_ok _ _ _ _ _ Hcopy).
  rewrite (io_bind_ok _ _ _ _ info) by (unfold lift; now rewrite Hinfo).
  unfold io_bind, lift, write_text.
  destruct (label_lines info annotations_by_image_id m id); reflexivity.
Qed.

Lemma image_path_is_not_label_path (out : path) (split_name f g : string) :
  out // "images" // split_name // f <> out // "labels" // split_name // g.
Proof.
  unfold child. rewrite <- !app_assoc. intros H.
  apply app_inv_head in H. discriminate H.
Qed.

(** X11.  For a plain, resolved file name whose source is a regular file
    other than the destination, the two split directories being there and
    neither the destination nor the label path being a directory: when
    the encoder returns its lines the step ends normally, the image under
    [images/<split>/] has the bytes of the source, the label file
    [labels/<split>/<stem>.txt] holds the lines joined by newlines
    whatever it held before, nothing is printed and no other path
    changes. *)
Theorem process_image_postcondition (base_path : path)
  (images_info : list (Z * image))
  (annotations_by_image_id : list (Z * list annotation))
  (m : list (Z * nat)) (out : path) (split_name f : string) (w : world)
  (id : Z) (info : image) (content : string) (lines : list string) :
  plain_name split_name = true ->
  plain_name f = true ->
  find_image_id images_info f = Some id ->
  dict_get Z.eqb images_info id = Some info ->
  disk w (base_path // f) = Some (File content) ->
  disk w (out // "images" // split_name // f) <> Some Dir ->
  disk w (out // "images" // split_name) = Some Dir ->
  disk w (out // "labels" // split_name) = Some Dir ->
  base_path // f <> out // "images" // split_name // f ->
  disk w (out // "labels" // split_name // (stem f ++ ".txt")) <> Some Dir ->
  label_lines info annotations_by_image_id m id = Ok lines ->
  let r := process_image base_path images_info annotations_by_image_id m out
             split_name f w in
  let image_path := out // "images" // split_name // f in
  let label_path := out // "labels" // split_name // (stem f ++ ".txt") in
  snd r = Ok tt
  /\ disk (fst r) image_path = Some (File content)
  /\ disk (fst r) label_path = Some (File (join nl lines))
  /\ (forall q, q <> image_path -> q <> label_path ->
        disk (fst r) q = disk w q)
  /\ console (fst r) = console w.
Proof.
  intros _ _ Hfind Hinfo Hsrc Hdst _ _ _ _ Hlines r image_path label_path.
  subst r.
  rewrite (process_image_run _ _ _ _ _ _ _ _ _ _ _ Hfind Hinfo Hsrc Hdst).
  rewrite Hlines. cbn [fst snd disk console].
  split; [reflexivity|]. split.
  - rewrite update_other
      by (apply not_eq_sym, image_path_is_not_label_path).
    apply update_same.
  - split; [apply update_same|]. split; [|reflexivity].
    intros q Hq1 Hq2. rewrite !update_other; auto.
Qed.

(** X12.  For such a file name, the image directory of the split being
    there, when the encoder raises, the exception
    escapes the step after the copy and before the label file: the image
    is in the output tree and no label file was written for it. *)
Theorem encoder_failure_leaves_unlabelled_image (base_path : path)
  (images_info : list (Z * image))
  (annotations_by_image_id : list (Z * list annotation))
  (m : list (Z * nat)) (out : path) (split_name f : string) (w : world)
  (id : Z) (info : image) (content : string) (e : exn) :
  find_image_id images_info f = Some id ->
  dict_get Z.eqb images_info id = Some info ->
  disk w (base_path // f) = Some (File content) ->
  disk w (out // "images" // split_name // f) <> Some Dir ->
  disk w (out // "images" // split_name) = Some Dir ->
  label_lines info annotations_by_image_id m id = Raise e ->
  let r := process_image base_path images_info annotations_by_image_id m out
             split_name f w in
  let image_path := out // "images" // split_name // f in
  snd r = Raise e
  /\ disk (fst r) image_path = Some (File content)
  /\ (forall q, q <> image_path -> disk (fst r) q = disk w q).
Proof.
  intros Hfind Hinfo Hsrc Hdst _ Hlines r image_path. subst r.
  rewrite (process_image_run _ _ _ _ _ _ _ _ _ _ _ Hfind Hinfo Hsrc Hdst).
  rewrite Hlines. cbn [fst snd disk].
  split; [reflexivity|]. split; [apply update_same|].
  intros q Hq. now apply update_other, not_eq_sym.
Qed.

Lemma process_image_postcondition_example :
  let c := ex_coco [ex_annotation] in
  let out := ex_base // "OUT" in
  plain_name "train" = true
  /\ plain_name "tooth.png" = true
  /\ find_image_id (images_info_of c) "tooth.png" = Some 1%Z
  /\ dict_get Z.eqb (images_info_of c) 1%Z = Some ex_image
  /\ disk ex_world_ready (ex_base // "tooth.png") = Some (File "PNG")
  /\ disk ex_world_ready (out // "images" // "train" // "tooth.png") = None
  /\ disk ex_world_ready (out // "images" // "train") = Some Dir
  /\ disk ex_world_ready (out // "labels" // "train") = Some Dir
  /\ disk ex_world_ready (out // "labels" // "train" // "tooth.txt") = None
  /\ disk (fst (process_image ex_base (images_info_of c)
                  (annotations_by_image_id_of c) ex_map out
                  "train" "tooth.png" ex_world_ready))
       (out // "labels" // "train" // "tooth.txt")
     = Some (File "1 0.000000 0.000000 0.500000 0.000000 0.500000 1.000000 0.000000 1.000000").
Proof.
  intros c out.
  assert (Hi : disk ex_world_ready (out // "images" // "train" // "tooth.png")
               = None) by reflexivity.
  assert (Hl : disk ex_world_ready (out // "labels" // "train" // "tooth.txt")
               = None) by reflexivity.
  split; [reflexivity|]. split; [reflexivity|]. split; [reflexivity|].
  split; [reflexivity|]. split; [reflexivity|]. split; [exact Hi|].
  split; [reflexivity|]. split; [reflexivity|]. split; [exact Hl|].
  refine (proj1 (proj2 (proj2
            (process_image_postcondition ex_base (images_info_of c)
               (annotations_by_image_id_of c) ex_map out
               "train" "tooth.png" ex_world_ready 1%Z ex_image "PNG"
               ["1 0.000000 0.000000 0.500000 0.000000 0.500000 1.000000 0.000000 1.000000"]
               eq_refl eq_refl eq_refl eq_refl eq_refl _ eq_refl eq_refl
               _ _ eq_refl)))).
  - rewrite Hi. discriminate.
  - discriminate.
  - change (stem "tooth.png" ++ ".txt") with "tooth.txt". rewrite Hl.
    discriminate.
Defined.

Lemma encoder_failure_leaves_unlabelled_image_example :
  let c := ex_coco [ex_no_ring] in
  find_image_id (images_info_of c) "tooth.png" = Some 1%Z
  /\ dict_get Z.eqb (images_info_of c) 1%Z = Some ex_image
  /\ disk ex_world_ready (ex_base // "tooth.png") = Some (File "PNG")
  /\ disk ex_world_ready
       (ex_base // "OUT" // "images" // "train" // "tooth.png")
     <> Some Dir
  /\ disk ex_world_ready (ex_base // "OUT" // "images" // "train") = Some Dir
  /\ label_lines ex_image (annotations_by_image_id_of c) ex_map 1%Z
     = Raise IndexError
  /\ (let r := process_image ex_base (images_info_of c)
                 (annotations_by_image_id_of c) ex_map (ex_base // "OUT")
                 "train" "tooth.png" ex_world_ready in
      disk (fst r) (ex_base // "OUT" // "images" // "train" // "tooth.png")
      = Some (File "PNG")
      /\ disk (fst r) (ex_base // "OUT" // "labels" // "train" // "tooth.txt")
         = None).
Proof.
  intros c.
  assert (Hd : disk ex_world_ready
                 (ex_base // "OUT" // "images" // "train" // "tooth.png")
               <> Some Dir) by (intros H; vm_compute in H; discriminate H).
  split; [reflexivity|]. split; [reflexivity|]. split; [reflexivity|].
  split; [exact Hd|]. split; [reflexivity|]. split; [reflexivity|].
  destruct (encoder_failure_leaves_unlabelled_image ex_base (images_info_of c)
              (annotations_by_image_id_of c) ex_map (ex_base // "OUT")
              "train" "tooth.png" ex_world_ready 1%Z ex_image "PNG" IndexError
              eq_refl eq_refl eq_refl Hd eq_refl eq_refl) as (_ & H1 & H2).
  split; [exact H1|].
  rewrite (H2 (ex_base // "OUT" // "labels" // "train" // "tooth.txt")
              ltac:(discriminate)).
  reflexivity.
Defined.

(** ** The name of a label file *)

Lemma rfind_dot_from_none (s : string) (i : nat) :
  has_dot s = false -> rfind_dot_from i s = None.
Proof.
  revert i; induction s as [|c s IH]; intros i; simpl; [reflexivity|].
  rewrite orb_false_iff. intros [Hc Hs]. now rewrite (IH _ Hs), Hc.
Qed.

Lemma rfind_dot_from_last (base ext : string) (i : nat) :
  has_dot ext = false ->
  rfind_dot_from i (base ++ "." ++ ext) = Some (i + String.length base).
Proof.
  intros Hext. revert i; induction base as [|c base IH]; intros i.
  - simpl. rewrite (rfind_dot_from_none _ _ Hext). f_equal. lia.
  - cbn [append rfind_dot_from String.length]. rewrite IH. f_equal. lia.
Qed.

Lemma string_append_assoc (a b c : string) : (a ++ b) ++ c = a ++ (b ++ c).
Proof. induction a as [|x a IH]; simpl; [reflexivity | now rewrite IH]. Qed.

Lemma substring_prefix (a b : string) :
  substring 0 (String.length a) (a ++ b) = a.
Proof.
  induction a as [|c a IH]; simpl; [now destruct b | now rewrite IH].
Qed.

Lemma string_append_nil_r (a : string) : a ++ "" = a.
Proof. induction a as [|x a IH]; simpl; [reflexivity | now rewrite IH]. Qed.

Lemma has_slash_append (a b : string) :
  has_slash (a ++ b) = has_slash a || has_slash b.
Proof.
  induction a as [|c a IH]; simpl; [reflexivity|].
  now rewrite IH, orb_assoc.
Qed.

(** A name without a slash is its own final component when [pathlib]
    keeps it. *)
Lemma final_component_from_plain (s cur seen : string) :
  has_slash s = false ->
  final_component_from cur seen s
  = if kept_component (cur ++ s) then cur ++ s else seen.
Proof.
  revert cur; induction s as [|c s IH]; intros cur; cbn [has_slash].
  - intros _. cbn [final_component_from]. now rewrite string_append_nil_r.
  - rewrite orb_false_iff. intros [Hc Hs]. cbn [final_component_from].
    rewrite Hc, (IH _ Hs). now rewrite string_append_assoc.
Qed.

Lemma final_component_plain (s : string) :
  has_slash s = false -> kept_component s = true -> final_component s = s.
Proof.
  intros Hs Hk. unfold final_component.
  rewrite final_component_from_plain by exact Hs. cbn [append]. now rewrite Hk.
Qed.

(** What precedes the last slash decides nothing when a kept component
    follows it. *)
Lemma final_component_from_slash (a b cur seen : string) :
  exists seen',
    final_component_from cur seen (a ++ "/" ++ b)
    = final_component_from "" seen' b.
Proof.
  revert cur seen; induction a as [|c a IH]; intros cur seen.
  - cbn. eauto.
  - cbn [append final_component_from]. destruct (Ascii.eqb c "/"%char); apply IH.
Qed.

Lemma final_component_after_slash (dir name : string) :
  has_slash name = false -> kept_component name = true ->
  final_component (dir ++ "/" ++ name) = name.
Proof.
  intros Hs Hk. unfold final_component.
  destruct (final_component_from_slash dir name "" "") as [seen' ->].
  rewrite final_component_from_plain by exact Hs. cbn [append]. now rewrite Hk.
Qed.

Lemma kept_component_dotted (base ext : string) :
  base <> "" -> kept_component (base ++ "." ++ ext) = true.
Proof.
  intros Hb. destruct base as [|c [|c' base]]; [contradiction| |];
    unfold kept_component; cbn [append String.eqb].
  - destruct (Ascii.eqb c "."%char); reflexivity.
  - destruct (Ascii.eqb c "."%char); reflexivity.
Qed.

(** X13.  For a name without a slash, the label of [<base>.<ext>] (a
    nonempty base, a nonempty extension without a point) is [<base>.txt]:
    only the last extension is dropped, so points inside the base stay.
    A name without a point, and a name that starts with its only point
    and goes on, keep their whole name before [.txt]; the name [.] gives
    [.txt]; and whatever precedes the last slash of a name is dropped
    with the slash. *)
Theorem label_file_name (base ext : string) :
  has_slash base = false ->
  has_slash ext = false ->
  has_dot ext = false ->
  (base <> "" -> ext <> "" ->
   stem (base ++ "." ++ ext) ++ ".txt" = base ++ ".txt")
  /\ stem ext ++ ".txt" = ext ++ ".txt"
  /\ (ext <> "" -> stem ("." ++ ext) ++ ".txt" = "." ++ ext ++ ".txt")
  /\ stem "." ++ ".txt" = ".txt"
  /\ (forall dir name,
        has_slash name = false -> kept_component name = true ->
        stem (dir ++ "/" ++ name) = stem name).
Proof.
  intros Hsb Hse Hext. split; [|split; [|split; [|split]]].
  - intros Hb He. unfold stem.
    rewrite final_component_plain
      by (rewrite ?has_slash_append, ?Hsb, ?Hse; auto using kept_component_dotted).
    unfold rfind_dot.
    rewrite rfind_dot_from_last by assumption. cbn [Nat.add].
    rewrite !string_length_append.
    assert (H1 : (0 <? String.length base)%nat = true)
      by (apply Nat.ltb_lt; destruct base; [contradiction | simpl; lia]).
    assert (H2 : (String.length base
                  <? String.length base + (String.length "." + String.length ext) - 1)%nat
                 = true)
      by (apply Nat.ltb_lt; destruct ext; [contradiction | simpl; lia]).
    rewrite H1, H2. cbn [andb]. now rewrite substring_prefix.
  - unfold stem, final_component.
    rewrite final_component_from_plain by exact Hse. cbn [append].
    destruct (kept_component ext) eqn:Ek.
    + unfold rfind_dot. now rewrite rfind_dot_from_none.
    + destruct ext as [|c [|c' ext]]; [reflexivity| |].
      * unfold kept_component in Ek. cbn in Ek. cbn in Hext.
        rewrite orb_false_r in Hext. destruct (Ascii.eqb c "."%char);
          discriminate.
      * unfold kept_component in Ek. cbn in Ek.
        destruct (Ascii.eqb c "."%char); discriminate.
  - intros He. unfold stem.
    rewrite final_component_plain.
    + unfold rfind_dot.
      pose proof (rfind_dot_from_last "" ext 0 Hext) as H.
      cbn [append String.length Nat.add] in H. cbn [append]. rewrite H.
      reflexivity.
    + cbn [append has_slash]. now rewrite Hse.
    + destruct ext; [contradiction | reflexivity].
  - reflexivity.
  - intros dir name Hs Hk. unfold stem.
    now rewrite final_component_after_slash, final_component_plain.
Qed.

Lemma label_file_name_example :
  has_slash "scan.v2" = false
  /\ has_slash "png" = false
  /\ has_dot "png" = false
  /\ stem "scan.v2.png" ++ ".txt" = "scan.v2.txt"
  /\ stem "old/scan.v2.png" = stem "scan.v2.png".
Proof.
  split; [reflexivity|]. split; [reflexivity|]. split; [reflexivity|].
  destruct (label_file_name "scan.v2" "png" eq_refl eq_refl eq_refl)
    as (H1 & _ & _ & _ & H5).
  split; [apply H1; discriminate|].
  exact (H5 "old" "scan.v2.png" eq_refl eq_refl).
Defined.

(** ** Reading an emitted coordinate *)

Lemma read_digits_append (a b : string) (acc : Z) :
  read_digits (a ++ b) acc
  = match read_digits a acc with
    | Some x => read_digits b x
    | None => None
    end.
Proof.
  revert acc; induction a as [|c a IH]; intros acc; simpl; [reflexivity|].
  destruct (digit_value c); [apply IH | reflexivity].
Qed.

Lemma digit_value_digit_char (d : Z) :
  (0 <= d < 10)%Z -> digit_value (digit_char d) = Some d.
Proof.
  intros H.
  assert (Hd : (d = 0 \/ d = 1 \/ d = 2 \/ d = 3 \/ d = 4 \/ d = 5 \/ d = 6
                \/ d = 7 \/ d = 8 \/ d = 9)%Z) by lia.
  repeat (destruct Hd as [-> | Hd]; [reflexivity|]). now subst.
Qed.

Lemma read_zero_pad (k : nat) : forall n acc : Z,
  read_digits (zero_pad k n) acc
  = Some (acc * 10 ^ Z.of_nat k + n mod 10 ^ Z.of_nat k)%Z.
Proof.
  induction k as [|k IH]; intros n acc.
  - simpl. rewrite Z.mod_1_r. f_equal. lia.
  - cbn [zero_pad]. rewrite read_digits_append, IH. cbn [read_digits].
    rewrite digit_value_digit_char by (apply Z.mod_pos_bound; lia).
    f_equal. rewrite Nat2Z.inj_succ, Z.pow_succ_r by lia.
    rewrite (Z.rem_mul_r n 10 (10 ^ Z.of_nat k)) by lia.
    lia.
Qed.

Lemma read_uint_acc (d : Decimal.uint) : forall acc : positive,
  read_digits (NilEmpty.string_of_uint d) (Zpos acc)
  = Some (Zpos (Pos.of_uint_acc d acc)).
Proof.
  induction d; intros acc; cbn [NilEmpty.string_of_uint read_digits];
    [reflexivity|..];
    match goal with
    | |- context [digit_value ?c] =>
        let v := eval vm_compute in (digit_value c) in
        change (digit_value c) with v
    end; cbv iota; cbn [Pos.of_uint_acc]; rewrite <- IHd; f_equal; lia.
Qed.

Lemma read_uint (d : Decimal.uint) :
  read_digits (NilEmpty.string_of_uint d) 0 = Some (Z.of_N (Pos.of_uint d)).
Proof.
  induction d; cbn [NilEmpty.string_of_uint read_digits Pos.of_uint];
    [reflexivity|..];
    match goal with
    | |- context [digit_value ?c] =>
        let v := eval vm_compute in (digit_value c) in
        change (digit_value c) with v
    end; cbv iota;
    [exact IHd | ..];
    match goal with
    | |- read_digits _ ?a = _ =>
        let p := eval vm_compute in a in change a with p
    end; apply read_uint_acc.
Qed.

Lemma read_str_of_N (n : N) : read_digits (str_of_N n) 0 = Some (Z.of_N n).
Proof.
  unfold str_of_N. rewrite read_uint.
  change (Pos.of_uint (N.to_uint n)) with (N.of_uint (N.to_uint n)).
  now rewrite DecimalN.Unsigned.of_to.
Qed.

Lemma substring_skip (a b : string) (k : nat) :
  substring (String.length a) k (a ++ b) = substring 0 k b.
Proof. induction a as [|c a IH]; simpl; [reflexivity | exact IH]. Qed.

Lemma substring_whole (a : string) : substring 0 (String.length a) a = a.
Proof. induction a as [|c a IH]; simpl; [reflexivity | now rewrite IH]. Qed.

Lemma read_unsigned6_print (whole frac : string) (a b : Z) :
  whole <> "" -> String.length frac = 6 ->
  read_digits whole 0 = Some a -> read_digits frac 0 = Some b ->
  read_unsigned6 (whole ++ "." ++ frac) = Some (a * 1000000 + b)%Z.
Proof.
  intros Hne Hlen Ha Hb. unfold read_unsigned6.
  rewrite !string_length_append, Hlen. cbn [String.length].
  assert (Hw : 1 <= String.length whole)
    by (destruct whole; [contradiction | simpl; lia]).
  replace (String.length whole + (1 + 6) <? 8)%nat with false
    by (symmetry; apply Nat.ltb_ge; lia).
  replace (String.length whole + (1 + 6) - 7) with (String.length whole) by lia.
  replace (String.length whole + (1 + 6) - 6)
    with (String.length (whole ++ ".")) by (rewrite string_length_append; simpl; lia).
  rewrite substring_skip, substring_prefix.
  rewrite <- (string_append_assoc whole "." frac), substring_skip.
  rewrite <- Hlen, substring_whole, Ha, Hb.
  destruct frac; [discriminate Hlen|]. reflexivity.
Qed.

Lemma digits_head (s : string) :
  all_digits s = true -> s <> "" ->
  exists c r, s = String c r /\ Ascii.eqb c "-"%char = false.
Proof.
  destruct s as [|c r]; [contradiction|]. cbn [all_digits].
  rewrite andb_true_iff. intros [Hc _] _. exists c, r. split; [reflexivity|].
  destruct (Ascii.eqb_spec c "-"%char) as [->|]; [discriminate Hc | reflexivity].
Qed.

Lemma read_fixed6_signed (s : bool) (body : string) (u : Z) :
  (exists c r, body = String c r /\ Ascii.eqb c "-"%char = false) ->
  read_unsigned6 body = Some u ->
  read_fixed6 (sign_str s ++ body) = Some (s, u).
Proof.
  intros (c & r & -> & Hc) Hu. destruct s; unfold read_fixed6, sign_str.
  - change ("-" ++ String c r) with (String "-"%char (String c r)).
    change (Ascii.eqb "-"%char "-"%char) with true. cbv iota.
    now rewrite Hu.
  - change ("" ++ String c r) with (String c r). cbv beta iota.
    rewrite Hc. now rewrite Hu.
Qed.

Lemma read_fixed6_print (s : bool) (u : Z) :
  (0 <= u)%Z -> read_fixed6 (sign_str s ++ fixed6 u) = Some (s, u).
Proof.
  intros Hu. apply read_fixed6_signed.
  - unfold fixed6.
    destruct (str_of_N_shape (Z.to_N (u / 1000000))) as [Hd Hne].
    destruct (digits_head _ Hd Hne) as (c & r & Hw & Hc).
    rewrite Hw. exists c, (r ++ "." ++ zero_pad 6 (u mod 1000000)).
    split; [reflexivity | exact Hc].
  - unfold fixed6.
    destruct (str_of_N_shape (Z.to_N (u / 1000000))) as [Hd Hne].
    destruct (zero_pad_shape 6 (u mod 1000000)) as [Hl _].
    rewrite (read_unsigned6_print _ _ (u / 1000000) (u mod 1000000) Hne Hl).
    + f_equal. pose proof (Z.div_mod u 1000000 ltac:(lia)). lia.
    + rewrite read_str_of_N. f_equal. apply Z2N.id. apply Z.div_pos; lia.
    + rewrite read_zero_pad. f_equal.
      change (10 ^ Z.of_nat 6)%Z with 1000000%Z.
      rewrite Z.mod_mod by lia. lia.
Qed.

Lemma round_half_even_tie (num den : Z) :
  (0 < den)%Z ->
  (2 * Z.abs (round_half_even num den * den - num) = den)%Z ->
  Z.even (round_half_even num den) = true.
Proof.
  intros Hden. unfold round_half_even.
  pose proof (Z.div_mod num den ltac:(lia)) as Hdm.
  pose proof (Z.mod_pos_bound num den Hden) as Hr.
  destruct (2 * (num mod den) ?= den)%Z eqn:E.
  - intros _. destruct (Z.even (num / den)) eqn:Ev; [exact Ev|].
    rewrite Z.even_add, Ev. reflexivity.
  - rewrite Z.compare_lt_iff in E. intros H. exfalso. nia.
  - rewrite Z.compare_gt_iff in E. intros H. exfalso. nia.
Qed.

Lemma micro_units_nonneg (m : positive) (e : Z) : (0 <= micro_units m e)%Z.
Proof.
  unfold micro_units. destruct e as [|p|p].
  - lia.
  - assert (0 < 2 ^ Zpos p)%Z by (apply Z.pow_pos_nonneg; lia). nia.
  - assert (HD : (0 < 2 ^ Zpos p)%Z) by (apply Z.pow_pos_nonneg; lia).
    eapply Z.le_trans; [|apply round_half_even_floor; exact HD].
    apply Z.div_pos; lia.
Qed.

Lemma micro_units_nearest (m : positive) (e : Z) :
  nearest_even (micro_units m e) (float_value m e * 1000000)%Q.
Proof.
  unfold nearest_even, micro_units, float_value.
  destruct e as [|p|p].
  - assert (H : (inject_Z (Z.pos m * 2 ^ 0 * 1000000)
                 - inject_Z (Z.pos m * 2 ^ 0) * 1000000 == 0)%Q).
    { unfold Qeq, Qminus, Qplus, Qopp, Qmult, inject_Z. cbn [Qnum Qden]. lia. }
    rewrite H. split; [discriminate | intros H0; discriminate H0].
  - assert (H : (inject_Z (Z.pos m * 2 ^ Z.pos p * 1000000)
                 - inject_Z (Z.pos m * 2 ^ Z.pos p) * 1000000 == 0)%Q).
    { unfold Qeq, Qminus, Qplus, Qopp, Qmult, inject_Z. cbn [Qnum Qden]. lia. }
    rewrite H. split; [discriminate | intros H0; discriminate H0].
  - set (r := round_half_even (Z.pos m * 1000000) (2 ^ Z.pos p)).
    assert (HD : (0 < 2 ^ Z.pos p)%Z) by (apply Z.pow_pos_nonneg; lia).
    pose proof (round_half_even_error (Z.pos m * 1000000) (2 ^ Z.pos p) HD) as He.
    pose proof (round_half_even_tie (Z.pos m * 1000000) (2 ^ Z.pos p) HD) as Ht.
    fold r in He, Ht.
    assert (Hx : (inject_Z r - (Z.pos m # 2 ^ p) * 1000000
                  == (r * 2 ^ Z.pos p - Z.pos m * 1000000) # (2 ^ p))%Q).
    { unfold Qeq, Qminus, Qplus, Qopp, Qmult, inject_Z. cbn [Qnum Qden].
      rewrite ?Pos2Z.inj_mul, ?Pos2Z.inj_pow. lia. }
    rewrite Hx. cbn [Qabs]. unfold Qle, Qeq. cbn [Qnum Qden].
    rewrite ?Pos2Z.inj_pow. split; [lia|]. intros H. apply Ht. lia.
Qed.

(** C3 (as amended).  Dividing a coordinate by a positive width or height
    either overflows or yields a double [q].  For a finite
    [q = (-1)^s * m * 2^e] the emitted text is a decimal with six
    fractional digits: read back, it has the sign of [q] and a number [u]
    of millionths that is the integer nearest to a million times the
    magnitude of [q], the even one at a tie.  So the printed value
    differs from the computed quotient by at most 0.0000005, and
    re-scaling it by a dimension [w] gives the quotient times [w] only to
    within 0.0000005 * [w].  Nothing is clamped: a magnitude of at least 1
    prints as at least 1.000000 and a negative quotient keeps its sign.
    A zero quotient is emitted as zero millionths with its sign, and an
    infinite or NaN quotient as [inf], [-inf] or [nan], which are no
    decimals. *)
Theorem emitted_coordinate_rounding (c d : pynum) :
  positive_num d = true ->
  match truediv c d with
  | Raise e => e = OverflowError
  | Ok (S754_finite s m e) =>
      exists u : Z,
        read_fixed6 (format_6f (S754_finite s m e)) = Some (s, u)
        /\ nearest_even u (float_value m e * 1000000)%Q
        /\ (Qabs (printed_value u - float_value m e) <= 1 # 2000000)%Q
        /\ (forall w : Q, (0 <= w)%Q ->
              (Qabs (printed_value u * w - float_value m e * w)
               <= (1 # 2000000) * w)%Q)
        /\ ((1 <= float_value m e)%Q -> (1000000 <= u)%Z)
  | Ok (S754_zero s) =>
      read_fixed6 (format_6f (S754_zero s)) = Some (s, 0%Z)
  | Ok (S754_infinity s) =>
      format_6f (S754_infinity s) = sign_str s ++ "inf"
      /\ read_fixed6 (format_6f (S754_infinity s)) = None
  | Ok S754_nan =>
      format_6f S754_nan = "nan" /\ read_fixed6 (format_6f S754_nan) = None
  end.
Proof.
  intros Hd. destruct (truediv c d) as [q|e0] eqn:E;
    [|eapply truediv_positive; eauto].
  destruct q as [s|s| |s m e].
  - destruct s; reflexivity.
  - split; [reflexivity | destruct s; reflexivity].
  - split; reflexivity.
  - exists (micro_units m e). cbn [format_6f].
    split; [apply read_fixed6_print, micro_units_nonneg|].
    split; [apply micro_units_nearest|].
    split; [apply micro_units_error|].
    split; [|apply micro_units_above_one].
    intros w Hw.
    assert (Heq : (printed_value (micro_units m e) * w - float_value m e * w
                   == (printed_value (micro_units m e) - float_value m e) * w)%Q)
      by ring.
    rewrite Heq, Qabs_Qmult, (Qabs_pos w Hw).
    apply Qmult_le_compat_r; [apply micro_units_error | exact Hw].
Qed.

(** 300 / 200 on a positive width: printed as 1.500000, not clamped. *)
Lemma emitted_coordinate_rounding_example :
  positive_num (PyInt 200) = true
  /\ truediv (PyInt 300) (PyInt 200)
     = Ok (S754_finite false 6755399441055744 (-52))
  /\ format_6f (S754_finite false 6755399441055744 (-52)) = "1.500000"
  /\ exists u : Z,
       read_fixed6 "1.500000" = Some (false, u)
       /\ nearest_even u (float_value 6755399441055744 (-52) * 1000000)%Q
       /\ (1000000 <= u)%Z.
Proof.
  split; [reflexivity|]. split; [reflexivity|]. split; [reflexivity|].
  pose proof (emitted_coordinate_rounding (PyInt 300) (PyInt 200) eq_refl) as H.
  change (truediv (PyInt 300) (PyInt 200))
    with (Ok (S754_finite false 6755399441055744 (-52))) in H.
  cbv beta iota in H. destruct H as (u & H1 & H2 & _ & _ & H5).
  exists u. split; [exact H1|]. split; [exact H2|].
  apply H5. unfold float_value, Qle. cbn [Qnum Qden]. vm_compute. discriminate.
Defined.

(** C3 as stated fails: the double 100.0001220703125 on a width of 1000
    is emitted as 0.100000; re-scaled by the width that is exactly 100,
    which rounds to 100 at every precision, 1/8192 away from the source
    and not within 0.000001 of it. *)
Lemma rescaling_counterexample :
  positive_num (PyInt 1000) = true
  /\ ex_subpixel = PyFloat (S754_finite false 7036883007700992 (-46))
  /\ (float_value 7036883007700992 (-46) == 819201 # 8192)%Q
  /\ format_6f (quotient ex_subpixel (PyInt 1000)) = "0.100000"
  /\ read_fixed6 "0.100000" = Some (false, 100000%Z)
  /\ (printed_value 100000 * 1000 == 100)%Q
  /\ ~ (Qabs (printed_value 100000 * 1000 - (819201 # 8192)) <= 1 # 1000000)%Q.
Proof.
  repeat split; try reflexivity.
  vm_compute. intros H. now apply H.
Qed.

(** ** Where a fold writes *)

Lemma writes_ret {A : Type} (P : path -> Prop) (a : A) :
  writes_files_at P (io_ret a).
Proof. intros w q. now left. Qed.

Lemma writes_lift {A : Type} (P : path -> Prop) (r : result A) :
  writes_files_at P (lift r).
Proof. intros w q. now left. Qed.

Lemma writes_print (P : path -> Prop) (s : string) :
  writes_files_at P (print s).
Proof. intros w q. now left. Qed.

Lemma writes_path_exists (P : path -> Prop) (p : path) :
  writes_files_at P (path_exists p).
Proof. intros w q. now left. Qed.

Lemma writes_bind {A B : Type} (P : path -> Prop) (c : io A) (k : A -> io B) :
  writes_files_at P c -> (forall a, writes_files_at P (k a)) ->
  writes_files_at P (io_bind c k).
Proof.
  intros Hc Hk w q. specialize (Hc w q). unfold io_bind.
  destruct (c w) as [w' r]. simpl in Hc. destruct r as [a|e]; [|exact Hc].
  destruct (Hk a w' q) as [H|H]; [|now right].
  rewrite H. exact Hc.
Qed.

Lemma writes_for_each {A : Type} (P : path -> Prop) (l : list A)
  (body : A -> io unit) :
  (forall a, writes_files_at P (body a)) -> writes_files_at P (for_each l body).
Proof.
  intros Hb. induction l as [|a l IH]; simpl.
  - apply writes_ret.
  - apply writes_bind; auto.
Qed.

Lemma writes_write_text (P : path -> Prop) (p : path) (s : string) :
  P p -> writes_files_at P (write_text p s).
Proof.
  intros Hp w q. simpl. unfold update.
  destruct (path_eqb p q) eqn:E; [|now left].
  apply path_eqb_eq in E; subst. right. eauto.
Qed.

Lemma writes_copy (P : path -> Prop) (src dst : path) :
  P dst -> P (dst // last src "") -> writes_files_at P (copy src dst).
Proof.
  intros Hd Hd' w q. unfold copy.
  destruct (disk w src) as [[content|]|]; simpl; try now left.
  unfold update.
  destruct (path_eqb _ q) eqn:E; [|now left].
  apply path_eqb_eq in E; subst. right.
  split; [destruct (disk w dst) as [[|]|]; assumption | eauto].
Qed.

Lemma writes_weaken {A : Type} (P Q : path -> Prop) (c : io A) :
  (forall q, P q -> Q q) -> writes_files_at P c -> writes_files_at Q c.
Proof.
  intros HPQ Hc w q. destruct (Hc w q) as [H|[Hp H]]; [now left|].
  right. auto.
Qed.

Section Places.
Variable base_path : path.
Variable images_info : list (Z * image).
Variable annotations_by_image_id : list (Z * list annotation).
Variable coco_cat_id_to_yolo_id : list (Z * nat).
Variable class_names_ordered : list string.
Variable split_info : split_manifest.

Local Abbreviation run_fold :=
  (process_fold base_path images_info annotations_by_image_id
     coco_cat_id_to_yolo_id class_names_ordered split_info).
Local Abbreviation tail :=
  (fold_tail base_path images_info annotations_by_image_id
     coco_cat_id_to_yolo_id class_names_ordered split_info).
Local Abbreviation out i := (output_base_path_of base_path (fold_name_of i)).

Lemma process_image_writes (o : path) (split_name f : string) :
  writes_files_at (split_file_place o)
    (process_image base_path images_info annotations_by_image_id
       coco_cat_id_to_yolo_id o split_name f).
Proof.
  unfold process_image.
  destruct (find_image_id images_info f); [|apply writes_ret].
  apply writes_bind; [apply writes_path_exists|].
  intros [|]; [|apply writes_ret].
  apply writes_bind.
  - apply writes_copy; unfold child; rewrite <- !app_assoc; cbn [app].
    + exists "images", split_name, f, []. auto.
    + exists "images", split_name, f, [last (base_path ++ [f])%list ""]. auto.
  - intros _. apply writes_bind; [apply writes_lift | intros info].
    apply writes_bind; [apply writes_lift | intros lines].
    apply writes_write_text. unfold child. rewrite <- !app_assoc. cbn [app].
    exists "labels", split_name, (stem f ++ ".txt"), []. auto.
Qed.

Lemma split_loop_writes (o : path) (fold_name : string)
  (fold_splits : list (string * list string)) :
  writes_files_at (split_file_place o)
    (for_each fold_splits
       (process_split base_path images_info annotations_by_image_id
          coco_cat_id_to_yolo_id o fold_name)).
Proof.
  apply writes_for_each. intros [split_name files]. unfold process_split.
  apply writes_bind; [apply writes_print | intros _].
  apply writes_for_each. intros f. apply process_image_writes.
Qed.

Lemma fold_tail_writes (i : nat) :
  writes_files_at (fold_file_place (out i)) (tail i).
Proof.
  unfold fold_tail.
  destruct (dict_get String.eqb split_info (fold_name_of i)) as [[|e l]|];
    try apply writes_print.
  unfold materialize. apply writes_bind.
  - eapply writes_weaken; [|apply split_loop_writes]. intros q H. now left.
  - intros _. apply writes_bind; [|intros _; apply writes_print].
    apply writes_write_text. now right.
Qed.
End Places.

(** ** Output directory names *)

Lemma upper_digits (s : string) : all_digits s = true -> upper s = s.
Proof.
  induction s as [|c s IH]; simpl; [reflexivity|].
  rewrite andb_true_iff. intros [Hc Hs]. rewrite (IH Hs). f_equal.
  unfold is_digit in Hc. unfold upper_char.
  apply andb_true_iff in Hc. destruct Hc as [_ Hc]. apply Nat.leb_le in Hc.
  replace (97 <=? nat_of_ascii c)%nat with false
    by (symmetry; apply Nat.leb_gt; lia).
  reflexivity.
Qed.

Lemma str_of_nat_inj (i j : nat) : str_of_nat i = str_of_nat j -> i = j.
Proof.
  unfold str_of_nat, str_of_N. intros H.
  apply (f_equal NilEmpty.uint_of_string) in H. rewrite !NilEmpty.usu in H.
  inversion H as [H']. apply DecimalN.Unsigned.to_uint_inj in H'.
  now apply Nnat.Nat2N.inj.
Qed.

Lemma output_name_inj (i j : nat) :
  "AKUDENTAL_YOLO_" ++ upper (fold_name_of i)
  = "AKUDENTAL_YOLO_" ++ upper (fold_name_of j) -> i = j.
Proof.
  unfold fold_name_of. cbn [append upper]. intros H.
  inversion H as [H']. clear H.
  unfold str_of_nat in H'.
  rewrite !upper_digits in H' by apply str_of_N_shape.
  now apply str_of_nat_inj.
Qed.

Lemma under_other_output (base_path : path) (i j : nat) (r : path) :
  i <> j ->
  is_prefix (output_base_path_of base_path (fold_name_of i))
    (output_base_path_of base_path (fold_name_of j) ++ r)%list = false.
Proof.
  intros Hij. unfold output_base_path_of, child.
  rewrite <- app_assoc, is_prefix_app_same. cbn [app is_prefix].
  rewrite andb_true_r. apply String.eqb_neq. intros H.
  apply Hij. now apply output_name_inj.
Qed.

(** A path that is not under [base / n] is an ancestor of it only by
    being an ancestor of [base]. *)
Lemma ancestor_of_child (base_path : path) (n : string) (q : path) :
  is_prefix (base_path // n) q = false ->
  is_prefix q (base_path // n) = is_prefix q base_path.
Proof.
  intros H. unfold child in *.
  destruct (is_prefix base_path q) eqn:E.
  - destruct (is_prefix_split _ _ E) as [r ->].
    rewrite is_prefix_app_same in H.
    rewrite is_prefix_app_same.
    rewrite <- (app_nil_r base_path) at 2. rewrite is_prefix_app_same.
    destruct r as [|x r]; [reflexivity|]. cbn [is_prefix] in *.
    rewrite andb_true_r in H. rewrite (String.eqb_sym x n), H. reflexivity.
  - now apply is_prefix_outside.
Qed.

Section Outside.
Variable base_path : path.
Variable images_info : list (Z * image).
Variable annotations_by_image_id : list (Z * list annotation).
Variable coco_cat_id_to_yolo_id : list (Z * nat).
Variable class_names_ordered : list string.
Variable split_info : split_manifest.

Local Abbreviation run_fold :=
  (process_fold base_path images_info annotations_by_image_id
     coco_cat_id_to_yolo_id class_names_ordered split_info).
Local Abbreviation out i := (output_base_path_of base_path (fold_name_of i)).

Lemma run_fold_outside (i : nat) (w : world) (q : path) :
  is_prefix (out i) q = false ->
  disk (fst (run_fold i w)) q = with_ancestors base_path (disk w) q.
Proof.
  intros H. rewrite process_fold_decompose.
  rewrite (fold_tail_frames base_path images_info annotations_by_image_id
             coco_cat_id_to_yolo_id class_names_ordered split_info i)
    by now apply not_under_not_below.
  unfold prepared. cbn [disk]. rewrite skeleton_disk_outside by assumption.
  unfold with_ancestors. unfold output_base_path_of in *.
  now rewrite ancestor_of_child.
Qed.

(** X14.  On a disk where neither the fold's output path nor a path above
    it is a regular file, and for a manifest entry whose splits are among
    train, val and test and whose file names are plain, a run of a fold leaves every path outside the
    fold's output directory as it was, except that missing ancestors of
    that directory become directories: no source image and no other file
    of the data set is modified or removed, whether the run ends normally
    or not. *)
Theorem fold_run_keeps_outside (i : nat) (w : world) (q : path) :
  no_file_above (disk w) (out i) = true ->
  plain_fold split_info i = true ->
  is_prefix (out i) q = false ->
  disk (fst (run_fold i w)) q = with_ancestors base_path (disk w) q.
Proof. intros _ _. apply run_fold_outside. Qed.

(** X15.  For a manifest entry whose splits are among train, val and
    test and whose file names are plain, a run of fold [i] leaves the output tree of every other fold
    [j] as it was, entry for entry. *)
Theorem fold_run_keeps_other_folds (i j : nat) (w : world) (r : path) :
  plain_fold split_info i = true ->
  i <> j ->
  disk (fst (run_fold i w)) (out j ++ r)%list = disk w (out j ++ r)%list.
Proof.
  intros _ Hij. rewrite run_fold_outside by now apply under_other_output.
  unfold with_ancestors, output_base_path_of, child.
  rewrite <- app_assoc.
  rewrite <- (app_nil_r base_path) at 2. rewrite is_prefix_app_same.
  reflexivity.
Qed.
End Outside.

Lemma fold_run_keeps_outside_example :
  no_file_above (disk ex_world)
    (output_base_path_of ex_base (fold_name_of 0)) = true
  /\ plain_fold ex_split_info 0 = true
  /\ is_prefix (output_base_path_of ex_base (fold_name_of 0))
       (ex_base // "tooth.png") = false
  /\ disk (fst (process_fold ex_base (images_info_of (ex_coco [ex_no_ring]))
                  (annotations_by_image_id_of (ex_coco [ex_no_ring])) ex_map
                  ["cavity"; "crown"] ex_split_info 0 ex_world))
       (ex_base // "tooth.png")
     = Some (File "PNG").
Proof.
  split; [reflexivity|]. split; [reflexivity|]. split; [reflexivity|].
  exact (fold_run_keeps_outside ex_base (images_info_of (ex_coco [ex_no_ring]))
           (annotations_by_image_id_of (ex_coco [ex_no_ring])) ex_map
           ["cavity"; "crown"] ex_split_info 0 ex_world
           (ex_base // "tooth.png") eq_refl eq_refl eq_refl).
Defined.

Lemma fold_run_keeps_other_folds_example :
  plain_fold ex_split_info 0 = true
  /\ 0 <> 1
  /\ disk (fst (process_fold ex_base (images_info_of (ex_coco [ex_annotation]))
                  (annotations_by_image_id_of (ex_coco [ex_annotation])) ex_map
                  ["cavity"; "crown"] ex_split_info 0 ex_world_old))
       ["data"; "AKUDENTAL_YOLO_FOLD_1"; "labels"; "train"; "old.txt"]
     = Some (File "0 0.100000 0.100000").
Proof.
  split; [reflexivity|]. split; [discriminate|].
  exact (fold_run_keeps_other_folds ex_base
           (images_info_of (ex_coco [ex_annotation]))
           (annotations_by_image_id_of (ex_coco [ex_annotation])) ex_map
           ["cavity"; "crown"] ex_split_info 0 1 ex_world_old
           ["labels"; "train"; "old.txt"] eq_refl ltac:(discriminate)).
Defined.

(** ** The tree of a fold after a run *)

Lemma skeleton_dirs_member (r : path) :
  existsb (path_eqb r) skeleton_dirs = true <-> In r skeleton_dirs.
Proof.
  rewrite existsb_exists. split.
  - intros (x & Hin & Heq). apply path_eqb_eq in Heq. now subst.
  - intros H. exists r. split; [assumption | apply path_eqb_refl].
Qed.

Lemma file_place_not_skeleton (o r : path) :
  fold_file_place o (o ++ r)%list -> ~ In r skeleton_dirs.
Proof.
  intros [(d & s & f & rest & _ & H) | H] Hin.
  - apply app_inv_head in H. subst r.
    unfold skeleton_dirs in Hin. simpl in Hin.
    repeat (destruct Hin as [Hin | Hin]; [discriminate Hin|]). exact Hin.
  - unfold child in H. apply app_inv_head in H. subst r.
    unfold skeleton_dirs in Hin. simpl in Hin.
    repeat (destruct Hin as [Hin | Hin]; [discriminate Hin|]). exact Hin.
Qed.

Section Tree.
Variable base_path : path.
Variable images_info : list (Z * image).
Variable annotations_by_image_id : list (Z * list annotation).
Variable coco_cat_id_to_yolo_id : list (Z * nat).
Variable class_names_ordered : list string.
Variable split_info : split_manifest.

Local Abbreviation run_fold :=
  (process_fold base_path images_info annotations_by_image_id
     coco_cat_id_to_yolo_id class_names_ordered split_info).
Local Abbreviation out i := (output_base_path_of base_path (fold_name_of i)).

(** X16.  On a disk where neither the fold's output path nor a path above
    it is a regular file, and for a manifest entry whose splits are among
    train, val and test and whose file names are plain: after a run of a fold, however it ends, the
    fold's tree has the nine skeleton directories ([images/] and
    [labels/] with [train], [val] and [test] below each, and the root),
    no other directory, and regular files only at [images/<split>/...],
    [labels/<split>/...] and [dataset.yaml]. *)
Theorem fold_tree_shape (i : nat) (w : world) :
  no_file_above (disk w) (out i) = true ->
  plain_fold split_info i = true ->
  absent_is_empty (disk w) (out i) ->
  let w' := fst (run_fold i w) in
  (forall r, In r skeleton_dirs -> disk w' (out i ++ r)%list = Some Dir)
  /\ (forall r, ~ In r skeleton_dirs ->
        disk w' (out i ++ r)%list = None
        \/ (fold_file_place (out i) (out i ++ r)%list
            /\ exists content,
                 disk w' (out i ++ r)%list = Some (File content))).
Proof.
  intros _ _ Hw w'. subst w'. rewrite process_fold_decompose.
  pose proof (skeleton_disk_under (out i) (disk w) Hw) as Hsk.
  split; intros r Hr.
  - destruct (fold_tail_writes base_path images_info annotations_by_image_id
                coco_cat_id_to_yolo_id class_names_ordered split_info i
                (prepared base_path i w) (out i ++ r)%list) as [H|[Hp _]].
    + rewrite H. unfold prepared. cbn [disk]. rewrite Hsk.
      now rewrite (proj2 (skeleton_dirs_member r) Hr).
    + now apply file_place_not_skeleton in Hp.
  - destruct (fold_tail_writes base_path images_info annotations_by_image_id
                coco_cat_id_to_yolo_id class_names_ordered split_info i
                (prepared base_path i w) (out i ++ r)%list) as [H|H].
    + left. rewrite H. unfold prepared. cbn [disk]. rewrite Hsk.
      destruct (existsb (path_eqb r) skeleton_dirs) eqn:E; [|reflexivity].
      now apply skeleton_dirs_member in E.
    + now right.
Qed.

End Tree.

Lemma fold_tree_shape_example :
  let run :=
    process_fold ex_base (images_info_of (ex_coco [ex_annotation]))
      (annotations_by_image_id_of (ex_coco [ex_annotation])) ex_map
      ["cavity"; "crown"] ex_split_info 1 in
  no_file_above (disk ex_world_old)
    (output_base_path_of ex_base (fold_name_of 1)) = true
  /\ plain_fold ex_split_info 1 = true
  /\ absent_is_empty (disk ex_world_old)
       (output_base_path_of ex_base (fold_name_of 1))
  /\ disk (fst (run ex_world_old))
       ["data"; "AKUDENTAL_YOLO_FOLD_1"; "images"; "val"] = Some Dir.
Proof.
  intros run.
  assert (H : absent_is_empty (disk ex_world_old)
                (output_base_path_of ex_base (fold_name_of 1)))
    by (intros H; vm_compute in H; discriminate H).
  split; [reflexivity|]. split; [reflexivity|]. split; [exact H|].
  refine (proj1 (fold_tree_shape ex_base
                   (images_info_of (ex_coco [ex_annotation]))
                   (annotations_by_image_id_of (ex_coco [ex_annotation]))
                   ex_map ["cavity"; "crown"] ex_split_info 1 ex_world_old
                   eq_refl eq_refl H)
            ["images"; "val"] _).
  unfold skeleton_dirs. simpl. auto 10.
Defined.


(** ** The whole run *)

Lemma with_ancestors_idem (base_path : path) (d d1 : fs) (q : path) :
  d1 q = with_ancestors base_path d q ->
  with_ancestors base_path d1 q = with_ancestors base_path d q.
Proof.
  unfold with_ancestors. intros ->.
  destruct (is_prefix q base_path); [|reflexivity]. now destruct (d q).
Qed.

Lemma bridge_total (c : coco) :
  exists d,
    coco_cat_id_to_yolo_id_of
      (class_name_to_id_of (class_names_ordered_of c)) (categories c) = Ok d.
Proof.
  destruct (cat_id_bridge (class_name_to_id_of (class_names_ordered_of c))
              (categories c)) as (d & Hd & _); [|eauto].
  intros cat Hin. apply class_name_to_id_covers.
  eapply Permutation_in; [apply class_names_ordered_perm|]. now apply in_map.
Qed.

Section Run.
Variable base_path : path.
Variable images_info : list (Z * image).
Variable annotations_by_image_id : list (Z * list annotation).
Variable coco_cat_id_to_yolo_id : list (Z * nat).
Variable class_names_ordered : list string.
Variable split_info : split_manifest.

Local Abbreviation run_folds :=
  (process_folds base_path images_info annotations_by_image_id
     coco_cat_id_to_yolo_id class_names_ordered split_info).
Local Abbreviation out i := (output_base_path_of base_path (fold_name_of i)).

Lemma run_folds_outside (folds : list nat) (q : path) :
  (forall i, In i folds -> is_prefix (out i) q = false) ->
  forall w,
    disk (fst (run_folds folds w)) q
    = match folds with
      | [] => disk w q
      | _ => with_ancestors base_path (disk w) q
      end.
Proof.
  unfold process_folds.
  induction folds as [|i folds IH]; intros Hq w; [reflexivity|].
  cbn [for_each].
  pose proof (run_fold_outside base_path images_info annotations_by_image_id
                coco_cat_id_to_yolo_id class_names_ordered split_info i w q
                (Hq i (or_introl eq_refl))) as Hi.
  unfold io_bind.
  destruct (process_fold base_path images_info annotations_by_image_id
              coco_cat_id_to_yolo_id class_names_ordered split_info i w)
    as [w1 [[]|e]]; cbn [fst] in *; [|exact Hi].
  rewrite IH by (intros j Hj; apply Hq; now right).
  destruct folds; [exact Hi | now apply with_ancestors_idem].
Qed.
End Run.

(** X18.  On a disk where none of the five output paths and no path above
    them is a regular file, and for a manifest whose splits are among
    train, val and test and whose file names are plain, the whole run, however it ends, leaves every path
    outside the five output directories as it was, except that missing
    ancestors of those directories become directories: the source images
    and the metadata files are never modified or removed. *)
Theorem run_keeps_outside (base_path : path) (coco_data : coco)
  (split_info : split_manifest) (w : world) (q : path) :
  (forall i, i < 5 ->
     no_file_above (disk w) (output_base_path_of base_path (fold_name_of i))
     = true) ->
  (forall i, i < 5 -> plain_fold split_info i = true) ->
  (forall i, i < 5 ->
     is_prefix (output_base_path_of base_path (fold_name_of i)) q = false) ->
  disk (fst (create_yolo_datasets_for_all_folds base_path coco_data
               split_info w)) q
  = with_ancestors base_path (disk w) q.
Proof.
  intros _ _ Hq. unfold create_yolo_datasets_for_all_folds. cbv zeta.
  erewrite io_bind_ok by reflexivity.
  erewrite io_bind_ok by reflexivity.
  destruct (bridge_total coco_data) as [d Hd].
  erewrite io_bind_ok by (unfold lift; rewrite Hd; reflexivity).
  set (w0 := {| disk := _; console := _ |}).
  pose proof (run_folds_outside base_path (images_info_of coco_data)
                (annotations_by_image_id_of coco_data) d
                (class_names_ordered_of coco_data) split_info (seq 0 5) q)
    as Hf.
  cbn [seq] in Hf. specialize (Hf ltac:(intros i Hi; apply Hq; simpl in Hi; lia) w0).
  cbn [seq]. unfold io_bind at 1.
  destruct (process_folds _ _ _ _ _ _ _ w0) as [w1 [[]|e]]; cbn [fst] in *.
  - unfold io_bind, print. cbn [fst disk]. exact Hf.
  - exact Hf.
Qed.

Lemma run_keeps_outside_example :
  (forall i, i < 5 ->
     no_file_above (disk ex_world)
       (output_base_path_of ex_base (fold_name_of i)) = true)
  /\ (forall i, i < 5 -> plain_fold ex_split_info i = true)
  /\ (forall i, i < 5 ->
        is_prefix (output_base_path_of ex_base (fold_name_of i))
          (ex_base // "tooth.png") = false)
  /\ disk (fst (create_yolo_datasets_for_all_folds ex_base
                  (ex_coco [ex_no_ring]) ex_split_info ex_world))
       (ex_base // "tooth.png")
     = Some (File "PNG").
Proof.
  assert (Hw : forall i, i < 5 ->
                 no_file_above (disk ex_world)
                   (output_base_path_of ex_base (fold_name_of i)) = true).
  { intros i Hi.
    do 5 (destruct i as [|i]; [reflexivity|]). exfalso. lia. }
  assert (Hp : forall i, i < 5 -> plain_fold ex_split_info i = true).
  { intros i Hi.
    do 5 (destruct i as [|i]; [reflexivity|]). exfalso. lia. }
  assert (H : forall i, i < 5 ->
                is_prefix (output_base_path_of ex_base (fold_name_of i))
                  (ex_base // "tooth.png") = false).
  { intros i Hi.
    do 5 (destruct i as [|i]; [reflexivity|]). exfalso. lia. }
  split; [exact Hw|]. split; [exact Hp|]. split; [exact H|].
  exact (run_keeps_outside ex_base (ex_coco [ex_no_ring]) ex_split_info
           ex_world (ex_base // "tooth.png") Hw Hp H).
Defined.

(** ** Dictionary lookups *)

Lemma no_key_error_bind {A B : Type} (c : io A) (k : A -> io B) :
  no_key_error c -> (forall a, no_key_error (k a)) ->
  no_key_error (io_bind c k).
Proof.
  intros Hc Hk w. unfold io_bind. specialize (Hc w).
  destruct (c w) as [w1 [a|e]]; [apply Hk|].
  cbn [snd] in *. intros H. apply Hc. inversion H. reflexivity.
Qed.

Lemma no_key_error_for_each {A : Type} (body : A -> io unit) (l : list A) :
  (forall a, no_key_error (body a)) -> no_key_error (for_each l body).
Proof.
  intros Hb. induction l as [|a l IH]; cbn [for_each].
  - intros w. discriminate.
  - apply no_key_error_bind; [apply Hb | intros _; exact IH].
Qed.

Lemma no_key_error_ret {A : Type} (a : A) : no_key_error (io_ret a).
Proof. intros w. discriminate. Qed.

Lemma no_key_error_print (s : string) : no_key_error (print s).
Proof. intros w. discriminate. Qed.

Lemma no_key_error_path_exists (p : path) : no_key_error (path_exists p).
Proof. intros w. discriminate. Qed.

Lemma no_key_error_rmtree (p : path) : no_key_error (rmtree p).
Proof. intros w. discriminate. Qed.

Lemma no_key_error_mkdir_parents (p : path) : no_key_error (mkdir_parents p).
Proof. intros w. discriminate. Qed.

Lemma no_key_error_write_text (p : path) (s : string) :
  no_key_error (write_text p s).
Proof. intros w. discriminate. Qed.

Lemma no_key_error_copy (src dst : path) : no_key_error (copy src dst).
Proof.
  intros w. unfold copy. destruct (disk w src) as [[content|]|]; discriminate.
Qed.

Lemma no_key_error_lift {A : Type} (r : result A) :
  r <> Raise KeyError -> no_key_error (lift r).
Proof. intros H w. exact H. Qed.

Lemma label_lines_no_key_error (img : image)
  (annotations_by_image_id : list (Z * list annotation))
  (m : list (Z * nat)) (id : Z) :
  label_lines img annotations_by_image_id m id <> Raise KeyError.
Proof.
  unfold label_lines, dict_mem.
  destruct (dict_get Z.eqb annotations_by_image_id id) as [anns|];
    [|discriminate].
  intros H. apply label_loop_raises in H.
  destruct H as [[H _] | [H | [H _]]]; discriminate H.
Qed.

Create HintDb nke.
#[local] Hint Resolve no_key_error_ret no_key_error_print
  no_key_error_path_exists no_key_error_rmtree no_key_error_mkdir_parents
  no_key_error_write_text no_key_error_copy : nke.

Section Lookups.
Variable base_path : path.
Variable images_info : list (Z * image).
Variable annotations_by_image_id : list (Z * list annotation).
Variable coco_cat_id_to_yolo_id : list (Z * nat).
Variable class_names_ordered : list string.
Variable split_info : split_manifest.

Lemma process_image_no_key_error (out : path) (split_name f : string) :
  no_key_error
    (process_image base_path images_info annotations_by_image_id
       coco_cat_id_to_yolo_id out split_name f).
Proof.
  unfold process_image.
  destruct (find_image_id images_info f) as [id|] eqn:Ef; [|auto with nke].
  destruct (find_image_id_key images_info f id Ef) as [info Hinfo].
  cbv zeta. apply no_key_error_bind; [auto with nke|].
  intros [|]; [|auto with nke].
  apply no_key_error_bind; [auto with nke|]. intros _.
  apply no_key_error_bind.
  { apply no_key_error_lift. rewrite Hinfo. discriminate. }
  intros img. apply no_key_error_bind; [|auto with nke].
  apply no_key_error_lift, label_lines_no_key_error.
Qed.

Lemma process_fold_no_key_error (i : nat) :
  no_key_error
    (process_fold base_path images_info annotations_by_image_id
       coco_cat_id_to_yolo_id class_names_ordered split_info i).
Proof.
  unfold process_fold. cbv zeta.
  apply no_key_error_bind; [auto with nke|]. intros _.
  apply no_key_error_bind; [auto with nke|]. intros _.
  apply no_key_error_bind; [auto with nke|]. intros present.
  apply no_key_error_bind; [destruct present; auto with nke|]. intros _.
  apply no_key_error_bind.
  { unfold make_skeleton. apply no_key_error_for_each. intros s.
    apply no_key_error_bind; auto with nke. }
  intros _.
  destruct (dict_get String.eqb split_info (fold_name_of i)) as [[|e es]|];
    [auto with nke| |auto with nke].
  apply no_key_error_bind.
  { apply no_key_error_for_each. intros [split_name files].
    unfold process_split.
    apply no_key_error_bind; [auto with nke|]. intros _.
    apply no_key_error_for_each. intros f. apply process_image_no_key_error. }
  intros _. apply no_key_error_bind; auto with nke.
Qed.
End Lookups.

(** X19.  No subscript of the four dictionaries the program builds
    fails: a run never ends in [KeyError], whatever the records of the
    annotation document, the manifest and the disk are.  Every category
    name is a key of the name table, an image id found by file name is a
    key of [images_info], and the two lookups of the label loop are
    guarded by membership tests. *)
Theorem run_never_raises_key_error (base_path : path) (coco_data : coco)
  (split_info : split_manifest) (w : world) :
  snd (create_yolo_datasets_for_all_folds base_path coco_data split_info w)
  <> Raise KeyError.
Proof.
  revert w. change (no_key_error
    (create_yolo_datasets_for_all_folds base_path coco_data split_info)).
  unfold create_yolo_datasets_for_all_folds. cbv zeta.
  apply no_key_error_bind; [auto with nke|]. intros _.
  apply no_key_error_bind; [auto with nke|]. intros _.
  apply no_key_error_bind.
  { apply no_key_error_lift.
    destruct (bridge_total coco_data) as [d ->]. discriminate. }
  intros d. apply no_key_error_bind.
  { unfold process_folds. apply no_key_error_for_each. intros i.
    apply process_fold_no_key_error. }
  intros _. apply no_key_error_bind; auto with nke.
Qed.

(** ** Repeated class names *)

Lemma enumerate_from_app {A : Type} (l1 l2 : list A) (s : nat) :
  enumerate_from s (l1 ++ l2)%list
  = (enumerate_from s l1 ++ enumerate_from (s + List.length l1) l2)%list.
Proof.
  revert s; induction l1 as [|a l1 IH]; intros s; simpl.
  - now rewrite Nat.add_0_r.
  - rewrite IH. now rewrite Nat.add_succ_r.
Qed.

Lemma class_name_to_id_last (names : list string) (x : string) (i : nat) :
  dict_get String.eqb (class_name_to_id_of names) x = Some i ->
  nth_error names i = Some x
  /\ forall j, i < j -> nth_error names j <> Some x.
Proof.
  unfold class_name_to_id_of, enumerate. revert x i.
  induction names as [|a names IH] using rev_ind; intros x i;
    [simpl; discriminate|].
  rewrite enumerate_from_app, fold_left_app. cbn [enumerate_from fold_left].
  rewrite Nat.add_0_l.
  destruct (String.eqb_spec a x) as [->|Hne].
  - rewrite (dict_get_set_same String.eqb string_eqb_iff).
    intros H; inversion H; subst i. split.
    + rewrite nth_error_app2 by lia. now rewrite Nat.sub_diag.
    + intros j Hj. rewrite nth_error_app2 by lia.
      destruct (j - List.length names) as [|[|n]] eqn:E; simpl;
        [lia | discriminate | discriminate].
  - rewrite (dict_get_set_other String.eqb string_eqb_iff) by exact Hne.
    intros H. destruct (IH x i H) as [Hn Hlast].
    assert (Hi : i < List.length names)
      by (apply nth_error_Some; congruence).
    split; [now rewrite nth_error_app1|].
    intros j Hj. destruct (Nat.lt_ge_cases j (List.length names)) as [Hl|Hl].
    + rewrite nth_error_app1 by exact Hl. now apply Hlast.
    + rewrite nth_error_app2 by exact Hl.
      destruct (j - List.length names) as [|[|n]]; simpl;
        [congruence | discriminate | discriminate].
Qed.

(** X20.  When a class name occurs more than once, the name table keeps
    the index of its last occurrence in the list: the index found for a
    name is a position of that name, and no later position holds it. *)
Theorem repeated_name_gets_last_index (names : list string) (x : string)
  (i : nat) :
  dict_get String.eqb (class_name_to_id_of names) x = Some i ->
  nth_error names i = Some x
  /\ forall j, i < j -> nth_error names j <> Some x.
Proof. apply class_name_to_id_last. Qed.

Lemma repeated_name_gets_last_index_example :
  dict_get String.eqb (class_name_to_id_of ["cavity"; "cavity"; "crown"])
    "cavity" = Some 1
  /\ nth_error ["cavity"; "cavity"; "crown"] 1 = Some "cavity"
  /\ nth_error ["cavity"; "cavity"; "crown"] 2 <> Some "cavity".
Proof.
  assert (H : dict_get String.eqb
                (class_name_to_id_of ["cavity"; "cavity"; "crown"]) "cavity"
              = Some 1) by reflexivity.
  split; [exact H|].
  destruct (repeated_name_gets_last_index _ _ _ H) as [Hn Hlast].
  split; [exact Hn | apply Hlast; lia].
Defined.

(** ** The names block of the descriptor *)

Lemma names_block_fold (pairs : list (nat * string)) (acc : string) :
  fold_left
    (fun acc '(j, name) => acc ++ "  " ++ str_of_nat j ++ ": " ++ name ++ nl)
    pairs acc
  = acc ++ fold_right (fun '(j, n) rest => names_line j n ++ rest) "" pairs.
Proof.
  revert acc; induction pairs as [|[j n] pairs IH]; intros acc;
    cbn [fold_left fold_right].
  - clear. induction acc as [|a acc IH]; simpl; [reflexivity | now rewrite <- IH].
  - rewrite IH. now rewrite string_append_assoc.
Qed.

Lemma names_block_line (names : list string) (fold_name : string)
  (out : path) (j : nat) (n : string) :
  nth_error names j = Some n ->
  exists pre post,
    yaml_content_of names fold_name out = pre ++ names_line j n ++ post.
Proof.
  intros Hn. apply nth_error_split in Hn.
  destruct Hn as (l1 & l2 & -> & <-).
  unfold yaml_content_of, enumerate.
  rewrite enumerate_from_app, fold_left_app. cbn [enumerate_from fold_left].
  rewrite Nat.add_0_l, names_block_fold.
  eexists; eexists. rewrite string_append_assoc. reflexivity.
Qed.

(** X6.  Whatever the category names, the class name list is in ascending
    order of [str], holds every category name as often as it occurs, and
    so has one entry per category record; the descriptor of every fold is
    its header, the [nc:] line with that length, the [names:] line and
    one line per entry of the list, in order: [nc] counts category
    records, not distinct names. *)
Theorem class_names_sorted_with_repeats (c : coco) :
  let names := class_names_ordered_of c in
  StronglySorted (fun a b => String.leb a b = true) names
  /\ Permutation (map name (categories c)) names
  /\ List.length names = List.length (categories c)
  /\ (forall fold_name out,
        yaml_content_of names fold_name out
        = nl ++ "# Dataset configuration for " ++ upper fold_name ++ nl
            ++ "path: " ++ resolve out ++ nl
            ++ "train: images/train" ++ nl
            ++ "val: images/val" ++ nl
            ++ "test: images/test" ++ nl
            ++ nl
            ++ "nc: " ++ str_of_nat (List.length (categories c)) ++ nl
            ++ "names:" ++ nl
            ++ fold_right (fun '(j, n) rest => names_line j n ++ rest) ""
                 (enumerate names)).
Proof.
  intros names.
  assert (Hlen : List.length names = List.length (categories c)).
  { unfold names.
    rewrite <- (Permutation_length (class_names_ordered_perm c)).
    apply length_map. }
  split; [apply sorted_sorted|].
  split; [apply class_names_ordered_perm|].
  split; [exact Hlen|].
  intros fold_name out. unfold yaml_content_of.
  rewrite names_block_fold, Hlen.
  repeat (rewrite string_append_assoc; cbn [append]).
  reflexivity.
Qed.

(** X21.  The descriptor agrees with the label files: whenever the id
    bridge sends a category id to a class index, the names block of the
    descriptor holds the line of that index, and the name on it is the
    name of the last category with that id. *)
Theorem descriptor_lists_label_classes (c : coco) (fold_name : string)
  (out : path) (d : list (Z * nat)) (k : Z) (i : nat) :
  coco_cat_id_to_yolo_id_of
    (class_name_to_id_of (class_names_ordered_of c)) (categories c) = Ok d ->
  dict_get Z.eqb d k = Some i ->
  exists cat pre post,
    find (fun x => Z.eqb (cat_id x) k) (rev (categories c)) = Some cat
    /\ yaml_content_of (class_names_ordered_of c) fold_name out
       = pre ++ names_line i (name cat) ++ post.
Proof.
  intros Hd Hk.
  destruct (cat_id_bridge (class_name_to_id_of (class_names_ordered_of c))
              (categories c)) as (d' & Hd' & Hget).
  { intros cat Hin. apply class_name_to_id_covers.
    eapply Permutation_in; [apply class_names_ordered_perm|].
    now apply in_map. }
  rewrite Hd in Hd'. inversion Hd'; subst d'. rewrite Hget in Hk.
  destruct (find (fun x => Z.eqb (cat_id x) k) (rev (categories c)))
    as [cat|]; [|discriminate].
  apply class_name_to_id_position in Hk.
  destruct (names_block_line _ fold_name out _ _ Hk) as (pre & post & H).
  exists cat, pre, post. auto.
Qed.

Lemma descriptor_lists_label_classes_example :
  coco_cat_id_to_yolo_id_of
    (class_name_to_id_of (class_names_ordered_of (ex_coco [])))
    (categories (ex_coco [])) = Ok ex_map
  /\ dict_get Z.eqb ex_map 7%Z = Some 1
  /\ exists cat pre post,
       find (fun x => Z.eqb (cat_id x) 7%Z) (rev (categories (ex_coco [])))
       = Some cat
       /\ yaml_content_of (class_names_ordered_of (ex_coco [])) "fold_0"
            ["data"; "AKUDENTAL_YOLO_FOLD_0"]
          = pre ++ names_line 1 (name cat) ++ post.
Proof.
  assert (H : coco_cat_id_to_yolo_id_of
                (class_name_to_id_of (class_names_ordered_of (ex_coco [])))
                (categories (ex_coco [])) = Ok ex_map) by reflexivity.
  split; [exact H|]. split; [reflexivity|].
  exact (descriptor_lists_label_classes (ex_coco []) "fold_0"
           ["data"; "AKUDENTAL_YOLO_FOLD_0"] ex_map 7%Z 1 H eq_refl).
Defined.

(** ** Names that share a stem *)

Lemma source_is_not_output (base_path : path) (o d s f g : string) :
  base_path // g <> base_path // o // d // s // f.
Proof.
  unfold child. intros H. apply (f_equal (@List.length string)) in H.
  rewrite !length_app in H. simpl in H. lia.
Qed.

Lemma image_paths_differ (out : path) (s f g : string) :
  f <> g -> out // "images" // s // f <> out // "images" // s // g.
Proof.
  unfold child. intros Hne H. apply app_inj_tail in H. now destruct H.
Qed.

(** X22.  Two different names of one split with the same stem share one
    label file: after both are processed (plain, resolved names, regular
    source files, the two split directories being there, no destination
    and not the label path being a directory), both images are in the
    output tree and the label file holds the lines of the second name
    only. *)
Theorem same_stem_label_is_overwritten (base_path : path)
  (images_info : list (Z * image))
  (annotations_by_image_id : list (Z * list annotation))
  (m : list (Z * nat)) (o split_name f1 f2 : string) (w : world)
  (id1 id2 : Z) (info1 info2 : image) (content1 content2 : string)
  (lines1 lines2 : list string) :
  plain_name o = true ->
  plain_name split_name = true ->
  plain_name f1 = true ->
  plain_name f2 = true ->
  f1 <> f2 ->
  stem f1 = stem f2 ->
  find_image_id images_info f1 = Some id1 ->
  dict_get Z.eqb images_info id1 = Some info1 ->
  find_image_id images_info f2 = Some id2 ->
  dict_get Z.eqb images_info id2 = Some info2 ->
  disk w (base_path // f1) = Some (File content1) ->
  disk w (base_path // f2) = Some (File content2) ->
  disk w (base_path // o // "images" // split_name // f1) <> Some Dir ->
  disk w (base_path // o // "images" // split_name // f2) <> Some Dir ->
  disk w (base_path // o // "images" // split_name) = Some Dir ->
  disk w (base_path // o // "labels" // split_name) = Some Dir ->
  disk w (base_path // o // "labels" // split_name // (stem f1 ++ ".txt"))
  <> Some Dir ->
  label_lines info1 annotations_by_image_id m id1 = Ok lines1 ->
  label_lines info2 annotations_by_image_id m id2 = Ok lines2 ->
  let r := for_each [f1; f2]
             (process_image base_path images_info annotations_by_image_id m
                (base_path // o) split_name) w in
  snd r = Ok tt
  /\ disk (fst r) (base_path // o // "images" // split_name // f1)
     = Some (File content1)
  /\ disk (fst r) (base_path // o // "images" // split_name // f2)
     = Some (File content2)
  /\ disk (fst r)
       (base_path // o // "labels" // split_name // (stem f1 ++ ".txt"))
     = Some (File (join nl lines2)).
Proof.
  intros _ _ _ _ Hne Hstem Hf1 Hi1 Hf2 Hi2 Hs1 Hs2 Hd1 Hd2 _ _ _ Hl1 Hl2 r.
  subst r.
  cbn [for_each].
  pose proof (process_image_run base_path images_info annotations_by_image_id
                m (base_path // o) split_name f1 w id1 info1 content1
                Hf1 Hi1 Hs1 Hd1) as R1.
  rewrite Hl1 in R1. rewrite (io_bind_ok _ _ _ _ _ R1).
  set (w1 := {| disk := _; console := _ |}) in *.
  assert (Hs2' : disk w1 (base_path // f2) = Some (File content2)).
  { unfold w1. cbn [disk].
    rewrite !update_other by (apply not_eq_sym, source_is_not_output).
    exact Hs2. }
  assert (Hd2' : disk w1 (base_path // o // "images" // split_name // f2)
                 <> Some Dir).
  { unfold w1. cbn [disk].
    rewrite update_other
      by (apply not_eq_sym, image_path_is_not_label_path).
    rewrite update_other by (now apply image_paths_differ).
    exact Hd2. }
  pose proof (process_image_run base_path images_info annotations_by_image_id
                m (base_path // o) split_name f2 w1 id2 info2 content2
                Hf2 Hi2 Hs2' Hd2') as R2.
  rewrite Hl2 in R2. rewrite (io_bind_ok _ _ _ _ _ R2).
  unfold io_ret. cbn [fst snd disk]. rewrite <- Hstem.
  split; [reflexivity|]. split; [|split].
  - rewrite update_other
      by (apply not_eq_sym, image_path_is_not_label_path).
    rewrite update_other by (apply image_paths_differ; congruence).
    unfold w1. cbn [disk].
    rewrite update_other
      by (apply not_eq_sym, image_path_is_not_label_path).
    apply update_same.
  - rewrite update_other
      by (apply not_eq_sym, image_path_is_not_label_path).
    apply update_same.
  - apply update_same.
Qed.

Lemma same_stem_label_is_overwritten_example :
  let c := ex_coco_pair [ex_annotation] in
  let out := ex_base // "OUT" in
  let r := for_each ["tooth.png"; "tooth.jpg"]
             (process_image ex_base (images_info_of c)
                (annotations_by_image_id_of c) ex_map out "train")
             ex_world_ready in
  forallb plain_name ["OUT"; "train"; "tooth.png"; "tooth.jpg"] = true
  /\ "tooth.png" <> "tooth.jpg"
  /\ stem "tooth.png" = stem "tooth.jpg"
  /\ disk ex_world_ready (out // "images" // "train") = Some Dir
  /\ disk ex_world_ready (out // "labels" // "train") = Some Dir
  /\ disk ex_world_ready (out // "labels" // "train" // "tooth.txt") = None
  /\ snd r = Ok tt
  /\ disk (fst r) (out // "labels" // "train" // "tooth.txt")
     = Some (File "").
Proof.
  intros c out r.
  assert (Hne : "tooth.png" <> "tooth.jpg") by discriminate.
  assert (Hd1 : disk ex_world_ready
                  (out // "images" // "train" // "tooth.png")
                <> Some Dir) by (intros H; vm_compute in H; discriminate H).
  assert (Hd2 : disk ex_world_ready
                  (out // "images" // "train" // "tooth.jpg")
                <> Some Dir) by (intros H; vm_compute in H; discriminate H).
  assert (Hl : disk ex_world_ready
                 (ex_base // "OUT" // "labels" // "train"
                    // (stem "tooth.png" ++ ".txt"))
               <> Some Dir) by (intros H; vm_compute in H; discriminate H).
  split; [reflexivity|]. split; [exact Hne|]. split; [reflexivity|].
  split; [reflexivity|]. split; [reflexivity|]. split; [reflexivity|].
  pose proof (same_stem_label_is_overwritten ex_base (images_info_of c)
                (annotations_by_image_id_of c) ex_map "OUT" "train"
                "tooth.png" "tooth.jpg" ex_world_ready 1%Z 3%Z
                ex_image ex_image_jpg "PNG" "JPG"
                ["1 0.000000 0.000000 0.500000 0.000000 0.500000 1.000000 0.000000 1.000000"]
                []
                eq_refl eq_refl eq_refl eq_refl
                Hne eq_refl eq_refl eq_refl eq_refl eq_refl eq_refl eq_refl
                Hd1 Hd2 eq_refl eq_refl Hl eq_refl eq_refl) as H.
  split; [exact (proj1 H)|]. exact (proj2 (proj2 (proj2 H))).
Defined.
